(** * Receipt extraction pipeline (reimburse-ai): a shallow embedding

    The development embeds the receipt OCR pipeline of [lib/ocrProcessing]
    ([aiOCRExtraction], [validateAndFixDate], [generateReasonableDate],
    [enhancedPatternExtraction], [normalizeCurrency], [normalizeMerchant],
    [parseDateRobust], [checkForDuplicate]) and the post-processing of the
    [/api/ocr] route handler, and states the properties of the specification
    over that embedding.  It also embeds the synchronous handler of
    [app/api/ocr/route], the key checks of [lib/security], the query
    function and the metric card of the admin page, and the handlers of
    [/api/company-settings] over a table of rows.

    Modelling conventions.
    - A JavaScript string is a [string]: a sequence of code units, here
      restricted to U+0000..U+00FF (one [ascii] per code unit).
    - A JavaScript number is a [number]: [NaN], an infinity, or a finite
      value held as an exact rational; arithmetic is exact (the rounding of
      binary64 is not modelled).
    - A [Date] is its time value: milliseconds since the epoch, or none for
      an Invalid Date.  The process runs with the local time zone UTC.
    - Everything outside the process (clock, random source, HTTP fetch,
      vision model, receipt table, and the implementation-defined parts of
      [Date.parse] and [JSON.parse]) is a field of the [World] record;
      reads of the clock and of the random source are threaded through a
      state-and-exception monad. *)

From Stdlib Require Import ZArith QArith Qround Bool List String Ascii.
From Stdlib Require Import DecimalString Lia Lqa Permutation.
Import ListNotations.

Open Scope bool_scope.
Open Scope string_scope.
Open Scope Z_scope.

(** ** Characters *)

Module Char.

Definition code (c : ascii) : Z := Z.of_N (N_of_ascii c).

Definition of_code (n : Z) : ascii := ascii_of_N (Z.to_N n).

Definition in_range (lo hi : Z) (c : ascii) : bool :=
  (lo <=? code c) && (code c <=? hi).

(** [\d] *)
Definition is_digit (c : ascii) : bool := in_range 48 57 c.

Definition is_lower (c : ascii) : bool := in_range 97 122 c.

Definition is_upper (c : ascii) : bool := in_range 65 90 c.

(** [\w]: [A-Za-z0-9_] *)
Definition is_word (c : ascii) : bool :=
  is_digit c || is_lower c || is_upper c || (code c =? 95).

(** LineTerminator: LF and CR (U+2028 and U+2029 lie outside the modelled
    range); these are the characters [.] does not match. *)
Definition is_LT (c : ascii) : bool := (code c =? 10) || (code c =? 13).

(** [\s], and the characters [trim] strips: TAB, LF, VT, FF, CR, SP, NBSP. *)
Definition is_ws (c : ascii) : bool :=
  in_range 9 13 c || (code c =? 32) || (code c =? 160).

(** [toUpperCase] of a single [\w] character. *)
Definition upper (c : ascii) : ascii :=
  if is_lower c then of_code (code c - 32) else c.

(** [toLowerCase] of one code unit of U+0000..U+00FF. *)
Definition lower (c : ascii) : ascii :=
  if is_upper c
     || (in_range 192 222 c && negb (code c =? 215))
  then of_code (code c + 32) else c.

(** Equality under the [i] flag against an ASCII pattern character. *)
Definition eq_ci (p c : ascii) : bool := Ascii.eqb (upper p) (upper c).

Definition digit_val (c : ascii) : Z := code c - 48.

Definition of_digit (d : Z) : ascii := of_code (48 + d).

End Char.

(** ** Strings *)

Module Str.

Definition is_empty (s : string) : bool :=
  match s with EmptyString => true | String _ _ => false end.

Fixpoint all (p : ascii -> bool) (s : string) : bool :=
  match s with
  | EmptyString => true
  | String c s' => p c && all p s'
  end.

(** No character that [.] refuses: [.*$] matches the whole of [s]. *)
Definition noLT (s : string) : bool := all (fun c => negb (Char.is_LT c)) s.

Fixpoint drop (n : nat) (s : string) : string :=
  match n, s with
  | O, _ => s
  | S n', String _ s' => drop n' s'
  | S _, EmptyString => EmptyString
  end.

Fixpoint take (n : nat) (s : string) : string :=
  match n, s with
  | S n', String c s' => String c (take n' s')
  | _, _ => EmptyString
  end.

(** Longest prefix of characters satisfying [p], and what follows it. *)
Fixpoint span (p : ascii -> bool) (s : string) : string * string :=
  match s with
  | EmptyString => (EmptyString, EmptyString)
  | String c s' =>
      if p c then let (a, b) := span p s' in (String c a, b)
      else (EmptyString, s)
  end.

Fixpoint skip (p : ascii -> bool) (s : string) : string :=
  match s with
  | EmptyString => EmptyString
  | String c s' => if p c then skip p s' else s
  end.

Definition skipWs : string -> string := skip Char.is_ws.

(** [s.trim()] *)
Fixpoint trimEnd (s : string) : string :=
  match s with
  | EmptyString => EmptyString
  | String c s' =>
      let t := trimEnd s' in
      if Char.is_ws c && is_empty t then EmptyString else String c t
  end.

Definition trimStart : string -> string := skipWs.

Definition trim (s : string) : string := trimEnd (trimStart s).

Fixpoint map (f : ascii -> ascii) (s : string) : string :=
  match s with
  | EmptyString => EmptyString
  | String c s' => String (f c) (map f s')
  end.

Definition toLowerCase : string -> string := map Char.lower.

(** [lit] is a prefix of [s], comparing with [eq]; the rest of [s]. *)
Fixpoint strip_prefix (eq : ascii -> ascii -> bool) (lit s : string)
  : option string :=
  match lit, s with
  | EmptyString, _ => Some s
  | String a lit', String c s' =>
      if eq a c then strip_prefix eq lit' s' else None
  | String _ _, EmptyString => None
  end.

Definition starts_with (lit s : string) : bool :=
  match strip_prefix Ascii.eqb lit s with Some _ => true | None => false end.

(** [s.includes(pat)] *)
Fixpoint includes (s pat : string) : bool :=
  starts_with pat s ||
  match s with
  | EmptyString => false
  | String _ s' => includes s' pat
  end.

(** [s.replace(re, "")] for a regular expression [re] without the [g] flag
    that ends in [.*$]: a match, when there is one, runs to the end of the
    input, so the replacement keeps the text before the leftmost position
    at which [re] matches.  [p u] decides whether [re] matches at the start
    of the suffix [u]. *)
Fixpoint cutAt (p : string -> bool) (s : string) : string :=
  if p s then EmptyString
  else match s with
       | EmptyString => EmptyString
       | String c s' => String c (cutAt p s')
       end.

(** [\s+] followed by what [h] accepts.  The patterns below continue after
    [\s+] with a character that is not white space, so [\s+] has to take
    the whole run. *)
Definition wsPlus (h : string -> bool) (s : string) : bool :=
  match s with
  | String c s' => Char.is_ws c && h (skipWs s')
  | EmptyString => false
  end.

(** [s.split(sep)[0]] for a one-character separator. *)
Fixpoint before (sep : ascii) (s : string) : string :=
  match s with
  | EmptyString => EmptyString
  | String c s' => if Ascii.eqb c sep then EmptyString else String c (before sep s')
  end.

Fixpoint repeat (c : ascii) (n : nat) : string :=
  match n with
  | O => EmptyString
  | S n' => String c (repeat c n')
  end.

(** [s.padStart(n, "0")] *)
Definition padStart0 (n : nat) (s : string) : string :=
  repeat "0"%char (n - String.length s) ++ s.

End Str.

(** ** The merchant normalizer *)

(** [/\*TRIP.*$/i] at the start of [s]. *)
Definition re_trip (s : string) : bool :=
  match Str.strip_prefix Char.eq_ci "*TRIP" s with
  | Some rest => Str.noLT rest
  | None => false
  end.

(** [/\s+\*\s*.*$/i]: after the asterisk [\s*] may take line terminators,
    [.*] may not. *)
Definition after_asterisk (r : string) : bool :=
  match r with
  | String c r' => Ascii.eqb c "*" && Str.noLT (Str.skipWs r')
  | EmptyString => false
  end.

Definition re_asterisk : string -> bool := Str.wsPlus after_asterisk.

(** [/\s+#\d+.*$/i] *)
Definition after_hash (r : string) : bool :=
  match r with
  | String c (String d r') =>
      Ascii.eqb c "#" && Char.is_digit d && Str.noLT r'
  | _ => false
  end.

Definition re_store_number : string -> bool := Str.wsPlus after_hash.

(** [/\s+\d{4}.*$/i] *)
Definition after_code (r : string) : bool :=
  match r with
  | String d1 (String d2 (String d3 (String d4 r'))) =>
      Char.is_digit d1 && Char.is_digit d2 && Char.is_digit d3
      && Char.is_digit d4 && Str.noLT r'
  | _ => false
  end.

Definition re_four_digits : string -> bool := Str.wsPlus after_code.

(** [/\s+-\s+.*$/i] *)
Definition after_dash (r : string) : bool :=
  match r with
  | String c (String c' r') =>
      Ascii.eqb c "-" && Char.is_ws c' && Str.noLT (Str.skipWs r')
  | _ => false
  end.

Definition re_location : string -> bool := Str.wsPlus after_dash.

(** [s.replace(/\s+/g, " ")] *)
Fixpoint collapseSpaces (s : string) : string :=
  match s with
  | EmptyString => EmptyString
  | String c s' =>
      if Char.is_ws c then
        match s' with
        | String c' _ =>
            if Char.is_ws c' then collapseSpaces s'
            else String " " (collapseSpaces s')
        | EmptyString => " "
        end
      else String c (collapseSpaces s')
  end.

(** A word character after a word boundary is put in upper case. *)
Definition initial (prev : bool) (c : ascii) : ascii :=
  if Char.is_word c && negb prev then Char.upper c else c.

(** [s.replace(/\b\w/g, l => l.toUpperCase())]; [prev] tells whether the
    character before [s] is a word character. *)
Fixpoint upperInitials (prev : bool) (s : string) : string :=
  match s with
  | EmptyString => EmptyString
  | String c s' =>
      String (initial prev c) (upperInitials (Char.is_word c) s')
  end.

Definition normalizeMerchant (merchantName : string) : string :=
  if Str.is_empty merchantName then "Unknown Merchant"
  else
    let normalized :=
      Str.trim
        (Str.cutAt re_location
          (Str.cutAt re_four_digits
            (Str.cutAt re_store_number
              (Str.cutAt re_asterisk
                (Str.cutAt re_trip merchantName))))) in
    let normalized := collapseSpaces normalized in
    let normalized := upperInitials false normalized in
    if Str.is_empty normalized then "Unknown Merchant" else normalized.

(** ** Numbers *)

(** A JavaScript number; a finite value is kept as a reduced fraction. *)
Inductive number : Type :=
| NaN
| Inf (negative : bool)
| Fin (q : Q).

Module Num.

Definition of_Q (q : Q) : number := Fin (Qred q).

Definition of_Z (z : Z) : number := Fin (inject_Z z).

Definition Qltb (a b : Q) : bool := negb (Qle_bool b a).

(** ToBoolean *)
Definition truthy (n : number) : bool :=
  match n with
  | NaN => false
  | Inf _ => true
  | Fin q => negb (Qeq_bool q 0)
  end.

Definition is_NaN (n : number) : bool :=
  match n with NaN => true | _ => false end.

Definition is_finite (n : number) : bool :=
  match n with Fin _ => true | _ => false end.

(** [a < b]; false when either side is [NaN]. *)
Definition ltb (a b : number) : bool :=
  match a, b with
  | NaN, _ | _, NaN => false
  | Inf true, Inf true => false
  | Inf true, _ => true
  | _, Inf true => false
  | Inf false, _ => false
  | Fin _, Inf false => true
  | Fin x, Fin y => Qltb x y
  end.

(** Strict equality [===]. *)
Definition eqb (a b : number) : bool :=
  match a, b with
  | Fin x, Fin y => Qeq_bool x y
  | Inf s, Inf s' => Bool.eqb s s'
  | _, _ => false
  end.

(** Value of a string of decimal digits. *)
Fixpoint digits_acc (acc : Z) (s : string) : Z :=
  match s with
  | EmptyString => acc
  | String c s' => digits_acc (10 * acc + Char.digit_val c) s'
  end.

Definition digits (s : string) : Z := digits_acc 0 s.

(** Decimal digits of a natural number, without sign. *)
Definition Z_digits (n : Z) : string :=
  NilZero.string_of_uint (N.to_uint (Z.to_N n)).

(** [10^e] as a rational, for any integer [e]. *)
Definition pow10 (e : Z) : Q :=
  if 0 <=? e then inject_Z (10 ^ e) else (1 / inject_Z (10 ^ (- e)))%Q.

(** The exponent part of a StrDecimalLiteral at the start of [s], when it
    is well formed: [e] or [E], an optional sign, one digit or more. *)
Definition exponent_part (s : string) : Z :=
  match s with
  | String c r =>
      if Char.eq_ci "e" c then
        let '(neg, r1) :=
          match r with
          | String "-" r1 => (true, r1)
          | String "+" r1 => (false, r1)
          | _ => (false, r)
          end in
        let (ds, _) := Str.span Char.is_digit r1 in
        if Str.is_empty ds then 0
        else if neg then - digits ds else digits ds
      else 0
  | EmptyString => 0
  end.

(** [parseFloat(s)] for a string [s]: leading white space is skipped and
    the longest prefix that is a StrDecimalLiteral is read. *)
Definition parseFloat (s : string) : number :=
  let s := Str.trimStart s in
  let '(neg, s) :=
    match s with
    | String "-" r => (true, r)
    | String "+" r => (false, r)
    | _ => (false, s)
    end in
  if Str.starts_with "Infinity" s then Inf neg
  else
    let (ip, r) := Str.span Char.is_digit s in
    let '(fp, r) :=
      match r with
      | String "." r1 => Str.span Char.is_digit r1
      | _ => (EmptyString, r)
      end in
    if Str.is_empty ip && Str.is_empty fp then NaN
    else
      let m := digits (ip ++ fp) in
      let e := exponent_part r - Z.of_nat (String.length fp) in
      let v := (inject_Z m * pow10 e)%Q in
      of_Q (if neg then - v else v)%Q.

(** [parseInt(s)] of a string matched by [\d+]. *)
Definition parseInt (s : string) : Z := digits s.

(** Digits of the fractional part [r] (with [0 <= r < 1]), at most [fuel]
    of them; the expansion of a decimal fraction ends by itself. *)
Fixpoint frac_digits (fuel : nat) (r : Q) : string :=
  match fuel with
  | O => EmptyString
  | S f =>
      if Qeq_bool r 0 then EmptyString
      else
        let d := Qfloor (r * 10)%Q in
        String (Char.of_digit d) (frac_digits f (Qred (r * 10 - inject_Z d)%Q))
  end.

Definition is_zero_char (c : ascii) : bool := Ascii.eqb c "0".

(** Number::toString of a positive finite value (radix 10): with [s] the
    significant digits, [k] their count and [n] the position of the
    decimal point, the four layouts of the language definition. *)
Definition toString_pos (q : Q) : string :=
  let i := Qfloor q in
  let ipart := if i =? 0 then EmptyString else Z_digits i in
  let fpart :=
    frac_digits (Pos.size_nat (Qden q)) (Qred (q - inject_Z i)%Q) in
  let all := ipart ++ fpart in
  let lead := Str.skip is_zero_char all in
  let n := Z.of_nat (String.length ipart)
           - Z.of_nat (String.length all - String.length lead) in
  let s :=
    if Str.is_empty fpart
    then string_of_list_ascii
           (rev (list_ascii_of_string
              (Str.skip is_zero_char
                 (string_of_list_ascii (rev (list_ascii_of_string lead))))))
    else lead in
  let k := Z.of_nat (String.length s) in
  if (k <=? n) && (n <=? 21) then
    s ++ Str.repeat "0" (Z.to_nat (n - k))
  else if (0 <? n) && (n <=? 21) then
    Str.take (Z.to_nat n) s ++ "." ++ Str.drop (Z.to_nat n) s
  else if (-6 <? n) && (n <=? 0) then
    "0." ++ Str.repeat "0" (Z.to_nat (- n)) ++ s
  else
    let e := n - 1 in
    let es := (if e <? 0 then "-" else "+") ++ Z_digits (Z.abs e) in
    match s with
    | String c EmptyString => String c ("e" ++ es)
    | String c r => String c ("." ++ r ++ "e" ++ es)
    | EmptyString => EmptyString
    end.

(** [String(n)] *)
Definition toString (n : number) : string :=
  match n with
  | NaN => "NaN"
  | Inf false => "Infinity"
  | Inf true => "-Infinity"
  | Fin q =>
      if Qeq_bool q 0 then "0"
      else if Qltb q 0 then "-" ++ toString_pos (- q)%Q
      else toString_pos q
  end.

(** [Math.floor], [Math.round] (halves go up) on a finite value. *)
Definition floor (q : Q) : Z := Qfloor q.

Definition round (q : Q) : Z := Qfloor (q + (1 # 2))%Q.

End Num.

(** ** Dates *)

(** The time value of a [Date] object; [None] is an Invalid Date. *)
Definition Date : Type := option Z.

Module JSDate.

Definition msPerDay : Z := 86400000.

Definition maxTime : Z := 8640000000000000.

Definition TimeClip (t : Z) : Date :=
  if Z.abs t <=? maxTime then Some t else None.

Definition Day (t : Z) : Z := t / msPerDay.

Definition TimeWithinDay (t : Z) : Z := t mod msPerDay.

(** Day number (days since 1970-01-01) of the civil date [y]-[m]-[d] of the
    proleptic Gregorian calendar, [m] counted from 1. *)
Definition days_from_civil (y m d : Z) : Z :=
  let y' := if m <=? 2 then y - 1 else y in
  let era := y' / 400 in
  let yoe := y' - era * 400 in
  let mp := if 2 <? m then m - 3 else m + 9 in
  let doy := (153 * mp + 2) / 5 + d - 1 in
  let doe := yoe * 365 + yoe / 4 - yoe / 100 + doy in
  era * 146097 + doe - 719468.

(** Civil date (year, month from 1, day of month) of a day number. *)
Definition civil_from_days (z : Z) : Z * Z * Z :=
  let z := z + 719468 in
  let era := z / 146097 in
  let doe := z - era * 146097 in
  let yoe := (doe - doe / 1460 + doe / 36524 - doe / 146096) / 365 in
  let doy := doe - (365 * yoe + yoe / 4 - yoe / 100) in
  let mp := (5 * doy + 2) / 153 in
  let d := doy - (153 * mp + 2) / 5 + 1 in
  let m := if mp <? 10 then mp + 3 else mp - 9 in
  let y := yoe + era * 400 in
  (if m <=? 2 then y + 1 else y, m, d).

Definition YearFromTime (t : Z) : Z :=
  let '(y, _, _) := civil_from_days (Day t) in y.

(** Month number, counted from 0. *)
Definition MonthFromTime (t : Z) : Z :=
  let '(_, m, _) := civil_from_days (Day t) in m - 1.

Definition DateFromTime (t : Z) : Z :=
  let '(_, _, d) := civil_from_days (Day t) in d.

Definition is_leap (y : Z) : bool :=
  ((y mod 4 =? 0) && negb (y mod 100 =? 0)) || (y mod 400 =? 0).

Definition days_in_month (y m : Z) : Z :=
  if m =? 2 then (if is_leap y then 29 else 28)
  else if (m =? 4) || (m =? 6) || (m =? 9) || (m =? 11) then 30
  else 31.

(** MakeDay, with [month] counted from 0 and free to leave [0..11]. *)
Definition MakeDay (year month date : Z) : Z :=
  let ym := year + month / 12 in
  let mn := month mod 12 in
  days_from_civil ym (mn + 1) 1 + date - 1.

Definition MakeDate (day time : Z) : Z := day * msPerDay + time.

(** [new Date(year, monthIndex, day)] with integer arguments; a year in
    [0..99] stands for [1900 + year].  Local time is UTC. *)
Definition new_Date_ymd (year month day : Z) : Date :=
  let yr := if (0 <=? year) && (year <=? 99) then 1900 + year else year in
  TimeClip (MakeDate (MakeDay yr month day) 0).

(** [new Date(ms)] for an integer number of milliseconds. *)
Definition new_Date_ms (t : Z) : Date := TimeClip t.

Definition getTime (d : Date) : number :=
  match d with Some t => Num.of_Z t | None => NaN end.

(** [d.setDate(dt)], returning the updated date. *)
Definition setDate (d : Date) (dt : Z) : Date :=
  match d with
  | None => None
  | Some t =>
      TimeClip
        (MakeDate (MakeDay (YearFromTime t) (MonthFromTime t) dt)
                  (TimeWithinDay t))
  end.

(** [a > b], [a < b] on dates: comparisons of time values, false on NaN. *)
Definition gtb (a b : Date) : bool :=
  match a, b with
  | Some x, Some y => y <? x
  | _, _ => false
  end.

Definition ltb (a b : Date) : bool :=
  match a, b with
  | Some x, Some y => x <? y
  | _, _ => false
  end.

Definition pad (n : nat) (z : Z) : string :=
  Str.padStart0 n (Num.Z_digits z).

(** The date part [YYYY-MM-DD] of the ISO format; years outside
    [0..9999] are written with a sign and six digits. *)
Definition iso_date (t : Z) : string :=
  let '(y, m, d) := civil_from_days (Day t) in
  let ys :=
    if (0 <=? y) && (y <=? 9999) then pad 4 y
    else (if y <? 0 then "-" else "+") ++ pad 6 (Z.abs y) in
  ys ++ "-" ++ pad 2 m ++ "-" ++ pad 2 d.

Definition iso_time (t : Z) : string :=
  let ms := TimeWithinDay t in
  pad 2 (ms / 3600000) ++ ":" ++ pad 2 (ms / 60000 mod 60) ++ ":"
  ++ pad 2 (ms / 1000 mod 60) ++ "." ++ pad 3 (ms mod 1000).

(** [d.toISOString()]; a RangeError on an Invalid Date. *)
Definition toISOString (d : Date) : option string :=
  match d with
  | Some t => Some (iso_date t ++ "T" ++ iso_time t ++ "Z")
  | None => None
  end.

(** The date-only ISO form [YYYY-MM-DD] of [Date.parse]: UTC midnight of
    that day, when the month and the day exist. *)
Definition parse_iso_date_only (s : string) : option Z :=
  match s with
  | String y1 (String y2 (String y3 (String y4 (String "-"
      (String m1 (String m2 (String "-"
        (String d1 (String d2 EmptyString))))))))) =>
      if Str.all Char.is_digit
           (String y1 (String y2 (String y3 (String y4
             (String m1 (String m2 (String d1 (String d2 "")))))))) then
        let y := Num.digits (String y1 (String y2 (String y3 (String y4 ""))))
        in
        let m := Num.digits (String m1 (String m2 "")) in
        let d := Num.digits (String d1 (String d2 "")) in
        if (1 <=? m) && (m <=? 12) && (1 <=? d) && (d <=? days_in_month y m)
        then Some (days_from_civil y m d * msPerDay)
        else None
      else None
  | _ => None
  end.

End JSDate.

(** ** JSON values *)

Set Warnings "-register-all".

Inductive json : Type :=
| JNull
| JBool (b : bool)
| JNum (n : number)
| JStr (s : string)
| JArr (items : list json)
| JObj (fields : list (string * json)).

(** A JavaScript value as the pipeline meets it: [None] is [undefined]. *)
Definition value : Type := option json.

Module JSON.

Definition dquote : ascii := Char.of_code 34.

Definition backslash : ascii := Char.of_code 92.

Definition quoted (s : string) : string :=
  String dquote (s ++ String dquote EmptyString).

Inductive presult (A : Type) : Type :=
| POk (a : A) (rest : string)
| PSyntaxError
| POther.

Arguments POk {A} a rest.
Arguments PSyntaxError {A}.
Arguments POther {A}.

Definition pmap {A B : Type} (f : A -> B) (r : presult A) : presult B :=
  match r with
  | POk a rest => POk (f a) rest
  | PSyntaxError => PSyntaxError
  | POther => POther
  end.

(** JSON white space: space, TAB, LF, CR. *)
Definition is_jws (c : ascii) : bool :=
  (Char.code c =? 32) || (Char.code c =? 9) || (Char.code c =? 10)
  || (Char.code c =? 13).

Definition skip_jws : string -> string := Str.skip is_jws.

Definition hex_val (c : ascii) : option Z :=
  if Char.is_digit c then Some (Char.code c - 48)
  else if Char.in_range 97 102 c then Some (Char.code c - 87)
  else if Char.in_range 65 70 c then Some (Char.code c - 55)
  else None.

Definition hex4 (a b c d : ascii) : option Z :=
  match hex_val a, hex_val b, hex_val c, hex_val d with
  | Some x, Some y, Some z, Some t => Some (((x * 16 + y) * 16 + z) * 16 + t)
  | _, _, _, _ => None
  end.

Definition escape_char (e : ascii) : option ascii :=
  if Ascii.eqb e dquote then Some dquote
  else if Ascii.eqb e backslash then Some backslash
  else if Ascii.eqb e "/" then Some "/"%char
  else if Ascii.eqb e "b" then Some (Char.of_code 8)
  else if Ascii.eqb e "f" then Some (Char.of_code 12)
  else if Ascii.eqb e "n" then Some (Char.of_code 10)
  else if Ascii.eqb e "r" then Some (Char.of_code 13)
  else if Ascii.eqb e "t" then Some (Char.of_code 9)
  else None.

(** The characters of a string literal after its opening quote.  An escape
    [\uXXXX] above U+00FF has no code unit in the modelled range: the text
    is then left to the host ([POther]). *)
Fixpoint parse_string_body (s : string) : presult string :=
  match s with
  | EmptyString => PSyntaxError
  | String c r =>
      if Ascii.eqb c dquote then POk EmptyString r
      else if Ascii.eqb c backslash then
        match r with
        | String "u" (String h1 (String h2 (String h3 (String h4 r')))) =>
            match hex4 h1 h2 h3 h4 with
            | Some n =>
                if n <=? 255
                then pmap (String (Char.of_code n)) (parse_string_body r')
                else POther
            | None => PSyntaxError
            end
        | String e r' =>
            match escape_char e with
            | Some x => pmap (String x) (parse_string_body r')
            | None => PSyntaxError
            end
        | EmptyString => PSyntaxError
        end
      else if Char.code c <? 32 then PSyntaxError
      else pmap (String c) (parse_string_body r)
  end.

(** A JSON number: an optional minus sign, an integer part without a
    leading zero (or a single zero), an optional fraction, an optional
    exponent. *)
Definition parse_number (s : string) : presult number :=
  let '(neg, s1) :=
    match s with
    | String "-" r => (true, r)
    | _ => (false, s)
    end in
  let (ip, r) := Str.span Char.is_digit s1 in
  if Str.is_empty ip then PSyntaxError
  else if Str.starts_with "0" ip && negb (String.length ip =? 1)%nat
  then PSyntaxError
  else
    let frac :=
      match r with
      | String "." r1 =>
          let (fp, r2) := Str.span Char.is_digit r1 in
          if Str.is_empty fp then None else Some (fp, r2)
      | _ => Some (EmptyString, r)
      end in
    match frac with
    | None => PSyntaxError
    | Some (fp, r2) =>
        let expo :=
          match r2 with
          | String c r3 =>
              if Char.eq_ci "e" c then
                let '(eneg, r4) :=
                  match r3 with
                  | String "-" r4 => (true, r4)
                  | String "+" r4 => (false, r4)
                  | _ => (false, r3)
                  end in
                let (ds, r5) := Str.span Char.is_digit r4 in
                if Str.is_empty ds then None
                else Some (if eneg then - Num.digits ds else Num.digits ds, r5)
              else Some (0, r2)
          | EmptyString => Some (0, r2)
          end in
        match expo with
        | None => PSyntaxError
        | Some (e, rest) =>
            let v := (inject_Z (Num.digits (ip ++ fp))
                      * Num.pow10 (e - Z.of_nat (String.length fp)))%Q in
            POk (Num.of_Q (if neg then - v else v)%Q) rest
        end
    end.

Definition parse_literal (lit : string) (v : json) (s : string)
  : presult json :=
  match Str.strip_prefix Ascii.eqb lit s with
  | Some rest => POk v rest
  | None => PSyntaxError
  end.

(** Recursive descent; every call reads a character before it calls again,
    so a fuel of the length of the text plus one is never used up. *)
Fixpoint parse_value (fuel : nat) (s : string) : presult json :=
  match fuel with
  | O => PSyntaxError
  | S f =>
      match skip_jws s with
      | EmptyString => PSyntaxError
      | String c r =>
          if Ascii.eqb c "{" then
            match skip_jws r with
            | String "}" r' => POk (JObj []) r'
            | r1 => parse_members f r1 []
            end
          else if Ascii.eqb c "[" then
            match skip_jws r with
            | String "]" r' => POk (JArr []) r'
            | r1 => parse_elements f r1 []
            end
          else if Ascii.eqb c dquote then pmap JStr (parse_string_body r)
          else if Ascii.eqb c "t" then parse_literal "true" (JBool true) (String c r)
          else if Ascii.eqb c "f" then parse_literal "false" (JBool false) (String c r)
          else if Ascii.eqb c "n" then parse_literal "null" JNull (String c r)
          else pmap JNum (parse_number (String c r))
      end
  end

with parse_members (fuel : nat) (s : string) (acc : list (string * json))
  : presult json :=
  match fuel with
  | O => PSyntaxError
  | S f =>
      match skip_jws s with
      | String q r =>
          if Ascii.eqb q dquote then
            match parse_string_body r with
            | POk k r1 =>
                match skip_jws r1 with
                | String ":" r2 =>
                    match parse_value f r2 with
                    | POk v r3 =>
                        match skip_jws r3 with
                        | String "," r4 =>
                            parse_members f r4 (acc ++ [(k, v)])%list
                        | String "}" r4 => POk (JObj (acc ++ [(k, v)])%list) r4
                        | _ => PSyntaxError
                        end
                    | PSyntaxError => PSyntaxError
                    | POther => POther
                    end
                | _ => PSyntaxError
                end
            | PSyntaxError => PSyntaxError
            | POther => POther
            end
          else PSyntaxError
      | EmptyString => PSyntaxError
      end
  end

with parse_elements (fuel : nat) (s : string) (acc : list json)
  : presult json :=
  match fuel with
  | O => PSyntaxError
  | S f =>
      match parse_value f s with
      | POk v r1 =>
          match skip_jws r1 with
          | String "," r2 => parse_elements f r2 (acc ++ [v])%list
          | String "]" r2 => POk (JArr (acc ++ [v])%list) r2
          | _ => PSyntaxError
          end
      | PSyntaxError => PSyntaxError
      | POther => POther
      end
  end.

(** [JSON.parse(text)]; [None] is a SyntaxError.  [other] is the host's
    parser, asked only for a text with an escape outside the modelled
    range of code units. *)
Definition parse (other : string -> option json) (text : string)
  : option json :=
  match parse_value (S (String.length text)) text with
  | POk v rest => if Str.is_empty (skip_jws rest) then Some v else None
  | PSyntaxError => None
  | POther => other text
  end.

(** Own property [k] of an object built by [JSON.parse]: the last member
    of that name. *)
Definition lookup (fields : list (string * json)) (k : string) : value :=
  fold_left
    (fun acc kv => if String.eqb (fst kv) k then Some (snd kv) else acc)
    fields None.

(** [v.k] for one of the record's field names [k] (none of them is a
    property of a prototype): [None] is a TypeError, raised on [null]. *)
Definition get (v : json) (k : string) : option value :=
  match v with
  | JNull => None
  | JObj fields => Some (lookup fields k)
  | _ => Some None
  end.

(** ToString of a value built by [JSON.parse]; [None] is a TypeError.  An
    array is joined with commas, [null] giving the empty string.  An
    object answers through [Object.prototype.toString], unless it has a
    member named toString of its own: that member is no function, and no
    primitive value can be had from the object. *)
Fixpoint toString (v : json) : option string :=
  match v with
  | JNull => Some "null"
  | JBool true => Some "true"
  | JBool false => Some "false"
  | JNum n => Some (Num.toString n)
  | JStr s => Some s
  | JArr items =>
      (fix join (l : list json) : option string :=
         match l with
         | [] => Some EmptyString
         | x :: l' =>
             match match x with
                   | JNull => Some EmptyString
                   | _ => toString x
                   end with
             | Some e =>
                 match l' with
                 | [] => Some e
                 | _ :: _ =>
                     match join l' with
                     | Some t => Some (e ++ "," ++ t)
                     | None => None
                     end
                 end
             | None => None
             end
         end) items
  | JObj fields =>
      match lookup fields "toString" with
      | Some _ => None
      | None => Some "[object Object]"
      end
  end.

End JSON.

Module Val.

(** [String(v)]; [None] is a TypeError. *)
Definition toString (v : value) : option string :=
  match v with
  | None => Some "undefined"
  | Some j => JSON.toString j
  end.

(** ToBoolean *)
Definition truthy (v : value) : bool :=
  match v with
  | None | Some JNull => false
  | Some (JBool b) => b
  | Some (JNum n) => Num.truthy n
  | Some (JStr s) => negb (Str.is_empty s)
  | Some (JArr _) | Some (JObj _) => true
  end.

(** [v || d] *)
Definition or_else (v : value) (d : json) : json :=
  match v with
  | Some j => if truthy v then j else d
  | None => d
  end.

(** [parseFloat(v)]: the argument is converted to a string first. *)
Definition parseFloat (v : value) : option number :=
  match toString v with
  | Some s => Some (Num.parseFloat s)
  | None => None
  end.

(** [list.includes(v)] for a list of strings: only an equal string is in. *)
Definition in_strings (l : list string) (v : value) : option string :=
  match v with
  | Some (JStr s) => if existsb (String.eqb s) l then Some s else None
  | _ => None
  end.

End Val.

(** ** Regular expressions on dates *)

Module Re.

(** The first position of [s], from the left, at which [m] matches. *)
Fixpoint find_first {A : Type} (m : string -> option A) (s : string)
  : option A :=
  match m s with
  | Some a => Some a
  | None =>
      match s with
      | EmptyString => None
      | String _ s' => find_first m s'
      end
  end.

(** [(\d{n})]: the group and the rest. *)
Fixpoint digits_n (n : nat) (s : string) : option (string * string) :=
  match n with
  | O => Some (EmptyString, s)
  | S n' =>
      match s with
      | String c r =>
          if Char.is_digit c then
            match digits_n n' r with
            | Some (g, rest) => Some (String c g, rest)
            | None => None
            end
          else None
      | EmptyString => None
      end
  end.

(** [(\d{1,2})] followed by one character of the class [sep], none of whose
    members is a digit: two digits when the separator follows them, one
    digit when it follows the first. *)
Definition digits_1_2_sep (sep : ascii -> bool) (s : string)
  : option (string * string) :=
  match s with
  | String d1 (String c r) =>
      if Char.is_digit d1 then
        if sep c then Some (String d1 EmptyString, r)
        else if Char.is_digit c then
          match r with
          | String c2 r' =>
              if sep c2 then Some (String d1 (String c EmptyString), r')
              else None
          | EmptyString => None
          end
        else None
      else None
  | _ => None
  end.

(** [(\d{1,2})] at the end of a pattern: greedy. *)
Definition digits_1_2 (s : string) : option (string * string) :=
  match s with
  | String d1 r =>
      if Char.is_digit d1 then
        match r with
        | String d2 r' =>
            if Char.is_digit d2
            then Some (String d1 (String d2 EmptyString), r')
            else Some (String d1 EmptyString, r)
        | EmptyString => Some (String d1 EmptyString, r)
        end
      else None
  | EmptyString => None
  end.

Definition groups : Type := string * string * string.

(** [(\d{1,2}) sep (\d{1,2}) sep (\d{n})] at the start of [s]. *)
Definition short_short_n (sep : ascii -> bool) (n : nat) (s : string)
  : option groups :=
  match digits_1_2_sep sep s with
  | Some (g1, r1) =>
      match digits_1_2_sep sep r1 with
      | Some (g2, r2) =>
          match digits_n n r2 with
          | Some (g3, _) => Some (g1, g2, g3)
          | None => None
          end
      | None => None
      end
  | None => None
  end.

(** [(\d{4}) sep (\d{1,2}) sep (\d{1,2})] at the start of [s]. *)
Definition four_short_short (sep : ascii -> bool) (s : string)
  : option groups :=
  match digits_n 4 s with
  | Some (g1, String c r1) =>
      if sep c then
        match digits_1_2_sep sep r1 with
        | Some (g2, r2) =>
            match digits_1_2 r2 with
            | Some (g3, _) => Some (g1, g2, g3)
            | None => None
            end
        | None => None
        end
      else None
  | _ => None
  end.

Definition slash (c : ascii) : bool := Ascii.eqb c "/".

Definition dash (c : ascii) : bool := Ascii.eqb c "-".

Definition dash_or_underscore (c : ascii) : bool :=
  Ascii.eqb c "_" || Ascii.eqb c "-".

(** [s.match(re)] for the date patterns of the source. *)
Definition match_mdY_slash : string -> option groups :=
  find_first (short_short_n slash 4).

Definition match_mdY_dash : string -> option groups :=
  find_first (short_short_n dash 4).

Definition match_mdy_slash : string -> option groups :=
  find_first (short_short_n slash 2).

Definition match_mdy_dash : string -> option groups :=
  find_first (short_short_n dash 2).

Definition match_Ymd_dash : string -> option groups :=
  find_first (four_short_short dash).

Definition match_file_Ymd : string -> option groups :=
  find_first (four_short_short dash_or_underscore).

Definition match_file_mdY : string -> option groups :=
  find_first (short_short_n dash_or_underscore 4).

(** The first [{] of [s]. *)
Fixpoint from_brace (s : string) : option string :=
  match s with
  | EmptyString => None
  | String c r => if Ascii.eqb c "{" then Some s else from_brace r
  end.

(** [s] up to its last [}], when it has one. *)
Fixpoint upto_last_brace (s : string) : option string :=
  match s with
  | EmptyString => None
  | String c r =>
      match upto_last_brace r with
      | Some t => Some (String c t)
      | None => if Ascii.eqb c "}" then Some (String c EmptyString) else None
      end
  end.

(** [s.match(/\{[\s\S]*\}/)]: from the first opening brace to the last
    closing brace after it. *)
Definition match_json_object (s : string) : option string :=
  match from_brace s with
  | Some (String _ r as t) =>
      match upto_last_brace r with
      | Some _ => upto_last_brace t
      | None => None
      end
  | _ => None
  end.

(** The pattern [\d+\.?\d*] (one group): a run of digits, a point after it
    when there is one, and the digits after the point. *)
Definition amount_at (s : string) : option string :=
  let (ip, r) := Str.span Char.is_digit s in
  if Str.is_empty ip then None
  else
    match r with
    | String "." r1 => let (fp, _) := Str.span Char.is_digit r1 in
                       Some (ip ++ "." ++ fp)
    | _ => Some ip
    end.

Definition match_amount : string -> option string := find_first amount_at.

End Re.

(** ** The world outside the process *)

Record Response : Type := {
  status : Z;
  content_type : option string;
  body : option string
}.

Record Message : Type := { content : option string }.

Record Choice : Type := { message : option Message }.

Record ChatCompletion : Type := { choices : option (list Choice) }.

(** What the vision request carries besides the fixed instructions. *)
Record VisionRequest : Type := {
  context : string;
  todays_date : string;
  image_url : string
}.

Record Receipt : Type := {
  userId : Z;
  merchantName : string;
  receiptAmount : number;
  receiptDate : Z;
  createdAt : Z
}.

Record World : Type := {
  (** the successive readings of the clock, in milliseconds *)
  clock : nat -> Z;
  (** the successive results of [Math.random()] *)
  random : nat -> Q;
  (** [fetch(url)]: a response, or none when the request fails *)
  fetch : string -> option Response;
  (** [SecureKeyStore.getKey("openai")] *)
  openai_key : option string;
  (** the chat completion call: a completion, or none when it rejects *)
  vision : VisionRequest -> option ChatCompletion;
  (** the receipt table, or none when the store cannot be reached *)
  receipts : option (list Receipt);
  (** [Date.parse] outside the date-only ISO form *)
  date_parse_other : string -> option Z;
  (** [JSON.parse] outside the modelled range of code units *)
  json_parse_other : string -> option json
}.

(** The clock shows a time of the current era, and the random source a
    number of [[0, 1)]. *)
Definition clock_ok (w : World) : Prop :=
  forall n, 0 <= clock w n <= JSDate.maxTime.

Definition random_ok (w : World) : Prop :=
  forall n, (0 <= random w n)%Q /\ (random w n < 1)%Q.

(** ** Effects: a state and exception monad *)

Record St : Type := { ticks : nat; draws : nat }.

Inductive result (A : Type) : Type :=
| Ok (a : A)
| Throw (e : string).

Arguments Ok {A} a.
Arguments Throw {A} e.

Definition M (A : Type) : Type := St -> result A * St.

Definition ret {A : Type} (a : A) : M A := fun st => (Ok a, st).

Definition throw {A : Type} (e : string) : M A := fun st => (Throw e, st).

Definition bind {A B : Type} (m : M A) (k : A -> M B) : M B :=
  fun st =>
    match m st with
    | (Ok a, st') => k a st'
    | (Throw e, st') => (Throw e, st')
    end.

(** [try { m } catch (e) { h e }] *)
Definition try_catch {A : Type} (m : M A) (h : string -> M A) : M A :=
  fun st =>
    match m st with
    | (Ok a, st') => (Ok a, st')
    | (Throw e, st') => h e st'
    end.

Declare Scope monad_scope.
Delimit Scope monad_scope with monad.

Notation "x <- c1 ;; c2" := (bind c1 (fun x => c2))
  (at level 61, c1 at next level, right associativity) : monad_scope.

Open Scope monad_scope.

(** [new Date()] *)
Definition new_Date (w : World) : M Z :=
  fun st =>
    (Ok (clock w (ticks st)), {| ticks := S (ticks st); draws := draws st |}).

(** [Math.random()] *)
Definition Math_random (w : World) : M Q :=
  fun st =>
    (Ok (random w (draws st)), {| ticks := ticks st; draws := S (draws st) |}).

Definition of_option {A : Type} (e : string) (o : option A) : M A :=
  match o with
  | Some a => ret a
  | None => throw e
  end.

(** ** The date reconciler *)

Module DateResult.
Record t : Type := { date : string; confidence : string }.
End DateResult.

(** [Date.parse]: the date-only ISO form, else the host's parser. *)
Definition Date_parse (w : World) (s : string) : Date :=
  match JSDate.parse_iso_date_only s with
  | Some t => JSDate.TimeClip t
  | None =>
      match date_parse_other w s with
      | Some t => JSDate.TimeClip t
      | None => None
      end
  end.

(** ToIntegerOrInfinity of a finite value: truncation towards zero. *)
Definition truncate (q : Q) : Z :=
  if Num.Qltb q 0 then - Qfloor (- q) else Qfloor q.

(** [new Date(v)] for a value [v] read from the model's reply: a string
    is parsed, any other primitive value is a number of milliseconds, an
    array or an object is converted to a string first ([None] is the
    TypeError of that conversion). *)
Definition new_Date_value (w : World) (v : value) : option Date :=
  match v with
  | None => Some None
  | Some (JStr s) => Some (Date_parse w s)
  | Some (JNum (Fin q)) => Some (JSDate.TimeClip (truncate q))
  | Some (JNum _) => Some None
  | Some (JBool b) => Some (Some (if b then 1 else 0))
  | Some JNull => Some (Some 0)
  | Some (JArr _ as j) | Some (JObj _ as j) =>
      match JSON.toString j with
      | Some s => Some (Date_parse w s)
      | None => None
      end
  end.

Definition is_invalid (d : Date) : bool :=
  match d with None => true | Some _ => false end.

Definition date_of_groups (month day year : string) : Date :=
  JSDate.new_Date_ymd (Num.parseInt year) (Num.parseInt month - 1)
                      (Num.parseInt day).

(** The loop of [validateAndFixDate] over its two formats, entered when the
    native parse gave an Invalid Date; [dateString.match] is a TypeError
    unless [dateString] is a string. *)
Definition parse_formats (dateString : value) (parsedDate : Date)
  : result Date :=
  match dateString with
  | Some (JStr s) =>
      match Re.match_mdY_slash s with
      | Some (m, d, y) => Ok (date_of_groups m d y)
      | None =>
          match Re.match_mdY_dash s with
          | Some (m, d, y) => Ok (date_of_groups m d y)
          | None => Ok parsedDate
          end
      end
  | _ => Throw "TypeError: dateString.match is not a function"
  end.

Definition lift {A : Type} (r : result A) : M A := fun st => (r, st).

Definition sane_ymd (today : Z) (year month day : Z) : bool :=
  (2020 <=? year) && (year <=? JSDate.YearFromTime today)
  && (1 <=? month) && (month <=? 12) && (1 <=? day) && (day <=? 31).

Definition ymd_string (year month day : Z) : string :=
  Num.Z_digits year ++ "-" ++ Str.padStart0 2 (Num.Z_digits month)
  ++ "-" ++ Str.padStart0 2 (Num.Z_digits day).

(** [d.toISOString().split("T")[0]] *)
Definition iso_day (d : Date) : M string :=
  s <- of_option "RangeError: Invalid time value" (JSDate.toISOString d) ;;
  ret (Str.before "T" s).

(** The last resort of [generateReasonableDate]: a day of the last
    fourteen. *)
Definition random_recent (w : World) (today : Z) : M DateResult.t :=
  r <- Math_random w ;;
  let daysAgo := Num.floor (r * 14)%Q in
  let receiptDate :=
    JSDate.setDate (Some today) (JSDate.DateFromTime today - daysAgo) in
  s <- iso_day receiptDate ;;
  ret {| DateResult.date := s; DateResult.confidence := "low" |}.

Definition from_filename (today : Z) (year month day : string)
  : option DateResult.t :=
  let y := Num.parseInt year in
  let m := Num.parseInt month in
  let d := Num.parseInt day in
  if sane_ymd today y m d
  then Some {| DateResult.date := ymd_string y m d;
               DateResult.confidence := "medium" |}
  else None.

Definition filename_Ymd (today : Z) (filename : string)
  : option DateResult.t :=
  match Re.match_file_Ymd filename with
  | Some (y, m, d) => from_filename today y m d
  | None => None
  end.

Definition filename_mdY (today : Z) (filename : string)
  : option DateResult.t :=
  match Re.match_file_mdY filename with
  | Some (m, d, y) => from_filename today y m d
  | None => None
  end.

Definition generateReasonableDate (w : World) (filename : string)
  : M DateResult.t :=
  today <- new_Date w ;;
  match filename_Ymd today filename with
  | Some r => ret r
  | None =>
      match filename_mdY today filename with
      | Some r => ret r
      | None => random_recent w today
      end
  end.

Definition oneYearAgo (today : Z) : Date :=
  JSDate.new_Date_ymd (JSDate.YearFromTime today - 1)
                      (JSDate.MonthFromTime today) (JSDate.DateFromTime today).

Definition tomorrow (today : Z) : Date :=
  JSDate.new_Date_ms (today + 24 * 60 * 60 * 1000).

Definition out_of_window (today : Z) (parsedDate : Date) : bool :=
  is_invalid parsedDate
  || JSDate.gtb parsedDate (tomorrow today)
  || JSDate.ltb parsedDate (oneYearAgo today).

Definition validateAndFixDate (w : World) (dateString : value)
    (filename : string) : M DateResult.t :=
  today <- new_Date w ;;
  try_catch
    (parsedDate <-
       of_option "TypeError: cannot convert object to primitive value"
                 (new_Date_value w dateString) ;;
     parsedDate <-
       (if is_invalid parsedDate
        then lift (parse_formats dateString parsedDate)
        else ret parsedDate) ;;
     if out_of_window today parsedDate
     then generateReasonableDate w filename
     else
       s <- iso_day parsedDate ;;
       ret {| DateResult.date := s; DateResult.confidence := "high" |})
    (fun _ => generateReasonableDate w filename).

(** ** The pattern fallback extractor *)

Record ExtractedData : Type := {
  merchant_name : string;
  amount : number;
  category : string;
  receipt_date : string;
  confidence : string;
  date_source : string;
  extraction_notes : value
}.

Record MerchantPattern : Type := {
  name : string;
  pattern_category : string;
  avgAmount : Z * Z
}.

Definition mp (n c : string) (lo hi : Z) : MerchantPattern :=
  {| name := n; pattern_category := c; avgAmount := (lo, hi) |}.

Definition merchantPatterns : list (string * MerchantPattern) :=
  [ ("starbucks", mp "Starbucks" "Meals" 4 12);
    ("coffee", mp "Coffee Shop" "Meals" 3 8);
    ("dunkin", mp "Dunkin" "Meals" 3 10);
    ("mcdonald", mp "McDonald's" "Meals" 5 15);
    ("subway", mp "Subway" "Meals" 8 15);
    ("chipotle", mp "Chipotle" "Meals" 10 18);
    ("panera", mp "Panera Bread" "Meals" 8 20);
    ("pizza", mp "Pizza Place" "Meals" 12 25);
    ("restaurant", mp "Restaurant" "Meals" 15 50);
    ("diner", mp "Diner" "Meals" 8 25);
    ("uber", mp "Uber" "Travel" 8 35);
    ("lyft", mp "Lyft" "Travel" 8 35);
    ("taxi", mp "Taxi" "Travel" 10 40);
    ("shell", mp "Shell" "Travel" 25 80);
    ("exxon", mp "ExxonMobil" "Travel" 25 80);
    ("chevron", mp "Chevron" "Travel" 25 80);
    ("bp", mp "BP" "Travel" 25 80);
    ("gas", mp "Gas Station" "Travel" 30 70);
    ("hotel", mp "Hotel" "Travel" 80 300);
    ("motel", mp "Motel" "Travel" 50 150);
    ("marriott", mp "Marriott" "Travel" 100 400);
    ("hilton", mp "Hilton" "Travel" 100 400);
    ("delta", mp "Delta Air Lines" "Travel" 200 800);
    ("american", mp "American Airlines" "Travel" 200 800);
    ("southwest", mp "Southwest Airlines" "Travel" 150 600);
    ("united", mp "United Airlines" "Travel" 200 800);
    ("parking", mp "Parking" "Travel" 5 30);
    ("office", mp "Office Depot" "Supplies" 15 100);
    ("staples", mp "Staples" "Supplies" 15 100);
    ("depot", mp "Office Depot" "Supplies" 15 100);
    ("amazon", mp "Amazon" "Supplies" 10 200);
    ("best buy", mp "Best Buy" "Supplies" 20 500);
    ("costco", mp "Costco" "Supplies" 50 300);
    ("walmart", mp "Walmart" "Supplies" 10 150);
    ("target", mp "Target" "Supplies" 15 200);
    ("fedex", mp "FedEx Office" "Supplies" 5 50);
    ("ups", mp "UPS Store" "Supplies" 5 50);
    ("print", mp "Print Shop" "Supplies" 5 40) ].

(** [Object.entries(merchantPatterns).find(...)?.[1]] *)
Definition matchedMerchant (filename : string) : option MerchantPattern :=
  let lowerFilename := Str.toLowerCase filename in
  match find (fun e => Str.includes lowerFilename (fst e)) merchantPatterns with
  | Some e => Some (snd e)
  | None => None
  end.

Definition amount_range (m : option MerchantPattern) : Z * Z :=
  match m with
  | Some p => avgAmount p
  | None => (5, 50)
  end.

(** [Math.round((r1 * (max - min) + min + r2) * 100) / 100] *)
Definition synthesize_amount (min max : Z) (r1 r2 : Q) : Q :=
  (inject_Z
     (Num.round ((r1 * inject_Z (max - min) + inject_Z min + r2) * 100))
   / 100)%Q.

(** [s || d] on strings *)
Definition str_or (s d : string) : string :=
  if Str.is_empty s then d else s.

Definition enhancedPatternExtraction (w : World) (filename : string)
  : M ExtractedData :=
  let matched := matchedMerchant filename in
  let (min, max) := amount_range matched in
  r1 <- Math_random w ;;
  r2 <- Math_random w ;;
  let amount := synthesize_amount min max r1 r2 in
  dateResult <- generateReasonableDate w filename ;;
  ret {| merchant_name :=
           match matched with
           | Some p => str_or (name p) "Unknown Merchant"
           | None => "Unknown Merchant"
           end;
         amount := Num.of_Q amount;
         category :=
           match matched with
           | Some p => str_or (pattern_category p) "Other"
           | None => "Other"
           end;
         receipt_date := DateResult.date dateResult;
         confidence := DateResult.confidence dateResult;
         date_source := "estimated";
         extraction_notes := None |}.

(** ** The image fetcher *)

Module Base64.

Definition alphabet : string :=
  "ABCDEFGHIJKLMNOPQRSTUVWXYZabcdefghijklmnopqrstuvwxyz0123456789+/".

Definition digit (n : Z) : ascii :=
  match String.get (Z.to_nat n) alphabet with
  | Some c => c
  | None => "="%char
  end.

Fixpoint encode (s : string) : string :=
  match s with
  | EmptyString => EmptyString
  | String a EmptyString =>
      let x := Char.code a in
      String (digit (x / 4)) (String (digit (x mod 4 * 16)) "==")
  | String a (String b EmptyString) =>
      let x := Char.code a in
      let y := Char.code b in
      String (digit (x / 4))
        (String (digit (x mod 4 * 16 + y / 16))
           (String (digit (y mod 16 * 4)) "="))
  | String a (String b (String c r)) =>
      let x := Char.code a in
      let y := Char.code b in
      let z := Char.code c in
      String (digit (x / 4))
        (String (digit (x mod 4 * 16 + y / 16))
           (String (digit (y mod 16 * 4 + z / 64))
              (String (digit (z mod 64)) (encode r))))
  end.

End Base64.

Definition imageUrlToBase64 (w : World) (imageUrl : string) : M string :=
  response <- of_option "fetch failed" (fetch w imageUrl) ;;
  if negb ((200 <=? status response) && (status response <=? 299))
  then throw ("Failed to fetch image: " ++ Num.Z_digits (status response))
  else
    buffer <- of_option "body stream failed" (body response) ;;
    let contentType :=
      match content_type response with
      | Some t => str_or t "image/jpeg"
      | None => "image/jpeg"
      end in
    if negb (Str.starts_with "image/" contentType)
    then throw ("Unsupported file type: " ++ contentType
                ++ ". Only images supported.")
    else ret ("data:" ++ contentType ++ ";base64," ++ Base64.encode buffer).

(** ** The vision extractor *)

(** [withKeyProtection(keyType, operation, fn)]: the outcome of [fn], after
    a log line. *)
Definition withKeyProtection {A : Type} (keyType operation : string)
    (fn : M A) : M A :=
  try_catch (result <- fn ;; ret result) (fun error => throw error).

(** [SecureKeyStore.getKey(keyName)] for the key of the model. *)
Definition getKey (w : World) : M string :=
  match openai_key w with
  | Some key => if Str.is_empty key then throw "Key openai not found" else ret key
  | None => throw "Key openai not found"
  end.

Definition categories : list string := ["Meals"; "Travel"; "Supplies"; "Other"].

Definition confidences : list string := ["high"; "medium"; "low"].

(** Coercion of the two closed sets. *)
Definition coerce_category (v : value) : string :=
  match Val.in_strings categories v with
  | Some c => c
  | None => "Other"
  end.

Definition coerce_confidence (v : value) : string :=
  match Val.in_strings confidences v with
  | Some c => c
  | None => "medium"
  end.

(** [n || 0] *)
Definition num_or_zero (n : number) : number :=
  if Num.truthy n then n else Num.of_Z 0.

(** The object literal [validatedData], given the parsed reply. *)
Definition validate (w : World) (extractedData : json) (filename : string)
  : M ExtractedData :=
  let field k :=
    of_option "TypeError: cannot read properties of null"
              (JSON.get extractedData k) in
  let convert {A : Type} (o : option A) :=
    of_option "TypeError: cannot convert object to primitive value" o in
  v_merchant <- field "merchant_name" ;;
  merchant <-
    convert (JSON.toString (Val.or_else v_merchant (JStr "Unknown Merchant"))) ;;
  v_amount <- field "amount" ;;
  parsed <- convert (Val.parseFloat v_amount) ;;
  v_category <- field "category" ;;
  v_date <- field "receipt_date" ;;
  fixed <- validateAndFixDate w v_date filename ;;
  v_confidence <- field "confidence" ;;
  v_notes <- field "extraction_notes" ;;
  ret {| merchant_name := Str.trim merchant;
         amount := num_or_zero parsed;
         category := coerce_category v_category;
         receipt_date := DateResult.date fixed;
         confidence := coerce_confidence v_confidence;
         date_source := "ai_vision";
         extraction_notes :=
           Some (Val.or_else v_notes (JStr "Extracted using AI vision")) |}.

(** The text handed to [JSON.parse]: the match of the object pattern in the
    trimmed reply, or the whole trimmed reply when there is none. *)
Definition jsonMatch (content : string) : string :=
  let cleanContent := Str.trim content in
  match Re.match_json_object cleanContent with
  | Some m => m
  | None => cleanContent
  end.

(** The inner [try] of [aiOCRExtraction]: the JSON object in the reply is
    found and parsed, the fields are validated; whatever is thrown there is
    thrown again as one error. *)
Definition parse_reply (w : World) (content filename : string)
  : M ExtractedData :=
  try_catch
    (extractedData <-
       of_option "SyntaxError"
         (JSON.parse (json_parse_other w) (jsonMatch content)) ;;
     validate w extractedData filename)
    (fun parseError => throw "Invalid JSON response from vision API").

(** The [try] block of [aiOCRExtraction]. *)
Definition vision_extract (w : World) (fileUrl filename : string)
  : M ExtractedData :=
  base64Image <- imageUrlToBase64 w fileUrl ;;
  now <- new_Date w ;;
  today <- iso_day (Some now) ;;
  data <-
    withKeyProtection "openai" "vision_analysis"
      (openaiKey <- getKey w ;;
       of_option "request failed"
         (vision w {| context := str_or filename "receipt";
                      todays_date := today;
                      image_url := base64Image |})) ;;
  match choices data with
  | Some (c :: _) =>
      match message c with
      | Some m =>
          match content m with
          | Some text =>
              if Str.is_empty text
              then throw "No content in OpenAI response"
              else parse_reply w text filename
          | None => throw "No content in OpenAI response"
          end
      | None => throw "Invalid vision API response format"
      end
  | _ => throw "Invalid vision API response format"
  end.

Definition aiOCRExtraction (w : World) (fileUrl filename : string)
  : M ExtractedData :=
  try_catch (vision_extract w fileUrl filename)
            (fun error => enhancedPatternExtraction w filename).

(** ** Normalizers *)

Module Currency.
Record t : Type := { amount : number; currency : string; symbol : string }.
End Currency.

(** An argument of type [string | number]. *)
Inductive str_or_num : Type :=
| AStr (s : string)
| ANum (n : number).

Definition arg_toString (a : str_or_num) : string :=
  match a with
  | AStr s => s
  | ANum n => Num.toString n
  end.

(** The currency symbols of the source that have a code unit in the
    modelled range: the dollar, pound and yen signs. *)
Definition symbolMap (c : ascii) : option string :=
  if Char.code c =? 36 then Some "USD"
  else if Char.code c =? 163 then Some "GBP"
  else if Char.code c =? 165 then Some "JPY"
  else None.

Definition symbol_at (s : string) : option ascii :=
  match s with
  | String c _ => match symbolMap c with Some _ => Some c | None => None end
  | EmptyString => None
  end.

Definition normalizeCurrency (amount : str_or_num) (currency : string)
  : Currency.t :=
  let text := arg_toString amount in
  let numericValue :=
    match Re.match_amount text with
    | Some g => Num.parseFloat g
    | None => Num.of_Z 0
    end in
  let symbolMatch := Re.find_first symbol_at text in
  let detectedCurrency :=
    match symbolMatch with
    | Some c =>
        match symbolMap c with
        | Some code => str_or code currency
        | None => currency
        end
    | None => currency
    end in
  {| Currency.amount := numericValue;
     Currency.currency := detectedCurrency;
     Currency.symbol :=
       match symbolMatch with
       | Some c => String c EmptyString
       | None => "$"
       end |}.

(** [d.toISOString().split("T")[0]] of a valid time value. *)
Definition iso_day_of (t : Z) : string :=
  Str.before "T" (JSDate.iso_date t ++ "T" ++ JSDate.iso_time t ++ "Z").

(** One turn of the loop of [parseDateRobust]: the date of the groups, and
    its ISO day when the date is valid. *)
Definition robust_date (year month day : Z) : option string :=
  match JSDate.new_Date_ymd year (month - 1) day with
  | Some t => Some (iso_day_of t)
  | None => None
  end.

Definition two_digit_year (year : string) : Z :=
  if Num.parseInt year <? 50 then 2000 + Num.parseInt year
  else 1900 + Num.parseInt year.

Definition try_format (m : option Re.groups)
    (f : Re.groups -> option string) (next : option string) : option string :=
  match m with
  | Some g =>
      match f g with
      | Some s => Some s
      | None => next
      end
  | None => next
  end.

Definition parseDateRobust (dateString : string) : option string :=
  if Str.is_empty dateString then None
  else
    let ymd := fun '(y, m, d) =>
      robust_date (Num.parseInt y) (Num.parseInt m) (Num.parseInt d) in
    let mdY := fun '(m, d, y) =>
      robust_date (Num.parseInt y) (Num.parseInt m) (Num.parseInt d) in
    let mdy := fun '(m, d, y) =>
      robust_date (two_digit_year y) (Num.parseInt m) (Num.parseInt d) in
    try_format (Re.match_Ymd_dash dateString) ymd
      (try_format (Re.match_mdY_slash dateString) mdY
        (try_format (Re.match_mdY_dash dateString) mdY
          (try_format (Re.match_mdy_slash dateString) mdy
            (try_format (Re.match_mdy_dash dateString) mdy None)))).

(** ** The duplicate detector *)

Definition same_receipt (user : Z) (merchant : string) (amount : number)
    (date since : Z) (r : Receipt) : bool :=
  (userId r =? user) && String.eqb (merchantName r) merchant
  && Num.eqb (receiptAmount r) amount && (receiptDate r =? date)
  && (since <? createdAt r).

(** [prisma.receipt.findFirst({ where })]: the first row that meets every
    condition; the call rejects when the store cannot be reached or a
    [Date] argument is invalid. *)
Definition findFirst (w : World) (user : Z) (merchant : string)
    (amount : number) (date since : Date) : M (option Receipt) :=
  rows <- of_option "PrismaClientInitializationError" (receipts w) ;;
  d <- of_option "PrismaClientValidationError" date ;;
  s <- of_option "PrismaClientValidationError" since ;;
  ret (find (same_receipt user merchant amount d s) rows).

Definition checkForDuplicate (w : World) (user : Z) (merchant : string)
    (amount : number) (date : string) : M bool :=
  try_catch
    (now <- new_Date w ;;
     let ninetyDaysAgo :=
       JSDate.setDate (Some now) (JSDate.DateFromTime now - 90) in
     duplicate <-
       findFirst w user merchant amount (Date_parse w date) ninetyDaysAgo ;;
     ret (match duplicate with Some _ => true | None => false end))
    (fun error => ret false).

(** ** The orchestrator *)

Module Original.
Record t : Type := {
  merchant : string;
  amount : number;
  date : string;
  confidence : string
}.
End Original.

Module Processed.
Record t : Type := {
  merchant_name : string;
  amount : number;
  currency : string;
  receipt_date : string;
  category : string;
  confidence : number;
  needs_review : bool;
  is_duplicate : bool;
  date_iso : string;
  extraction_notes : value;
  original_data : Original.t
}.
End Processed.

(** The numeric score of a categorical confidence. *)
Definition confidenceScore (c : string) : number :=
  if String.eqb c "high" then Fin 0.9
  else if String.eqb c "medium" then Fin 0.7
  else Fin 0.5.

Definition needsReview (score : number) : bool := Num.ltb score (Fin 0.72).

(** The route handler [POST] from the call of [aiOCRExtraction] on: the
    session, the rate limit and the validation of the request come before
    it. *)
Definition POST (w : World) (user : Z)
    (sanitizedFileUrl sanitizedFilename : string) : M Processed.t :=
  extractedData <- aiOCRExtraction w sanitizedFileUrl sanitizedFilename ;;
  let normalizedMerchant := normalizeMerchant (merchant_name extractedData) in
  let currencyData := normalizeCurrency (ANum (amount extractedData)) "USD" in
  let normalizedDate :=
    match parseDateRobust (receipt_date extractedData) with
    | Some d => str_or d (receipt_date extractedData)
    | None => receipt_date extractedData
    end in
  isDuplicate <-
    checkForDuplicate w user normalizedMerchant
      (Currency.amount currencyData) normalizedDate ;;
  let score := confidenceScore (confidence extractedData) in
  ret {| Processed.merchant_name := normalizedMerchant;
         Processed.amount := Currency.amount currencyData;
         Processed.currency := Currency.currency currencyData;
         Processed.receipt_date := normalizedDate;
         Processed.category := category extractedData;
         Processed.confidence := score;
         Processed.needs_review := needsReview score;
         Processed.is_duplicate := isDuplicate;
         Processed.date_iso := normalizedDate;
         Processed.extraction_notes :=
           match extraction_notes extractedData with
           | Some n => Some n
           | None => Some (JStr "Processed with enhanced normalization")
           end;
         Processed.original_data :=
           {| Original.merchant := merchant_name extractedData;
              Original.amount := amount extractedData;
              Original.date := receipt_date extractedData;
              Original.confidence := confidence extractedData |} |}.

Definition run {A : Type} (m : M A) : result A * St :=
  m {| ticks := 0; draws := 0 |}.

(** ** Vocabulary of the specification *)

(** The plausibility window, as [validateAndFixDate] checks it. *)
Definition in_window (today t : Z) : Prop := out_of_window today (Some t) = false.


Definition sample_clock : Z := 1793557800123.

(** What [validate] builds from the merchant name and the amount it read
    in the reply, from the other fields of the reply and from the
    reconciled date. *)
Definition validated (merchant : string) (parsed : number)
    (v_category v_confidence v_notes : value) (fixed : DateResult.t)
  : ExtractedData :=
  {| merchant_name := Str.trim merchant;
     amount := num_or_zero parsed;
     category := coerce_category v_category;
     receipt_date := DateResult.date fixed;
     confidence := coerce_confidence v_confidence;
     date_source := "ai_vision";
     extraction_notes :=
       Some (Val.or_else v_notes (JStr "Extracted using AI vision")) |}.

(** The content of the first choice of a completion. *)
Definition first_content (data : ChatCompletion) : option string :=
  match choices data with
  | Some (c :: _) =>
      match message c with
      | Some m => content m
      | None => None
      end
  | _ => None
  end.

(** The record [r] is built from the reply [text]: the text holds the JSON
    value [reply], and [r] is made of its fields and of the date [fixed]
    that the reconciler gave for its [receipt_date]. *)
Inductive reply_run (w : World) (filename text : string) (r : ExtractedData)
  : Prop :=
| reply_run_intro (reply : json)
    (v_merchant v_amount v_category v_date v_confidence v_notes : value)
    (merchant : string) (parsed : number)
    (fixed : DateResult.t) (before after : St) :
    JSON.parse (json_parse_other w) (jsonMatch text) = Some reply ->
    JSON.get reply "merchant_name" = Some v_merchant ->
    JSON.toString (Val.or_else v_merchant (JStr "Unknown Merchant"))
    = Some merchant ->
    JSON.get reply "amount" = Some v_amount ->
    Val.parseFloat v_amount = Some parsed ->
    JSON.get reply "category" = Some v_category ->
    JSON.get reply "receipt_date" = Some v_date ->
    JSON.get reply "confidence" = Some v_confidence ->
    JSON.get reply "extraction_notes" = Some v_notes ->
    validateAndFixDate w v_date filename before = (Ok fixed, after) ->
    r = validated merchant parsed v_category v_confidence v_notes fixed ->
    reply_run w filename text r.

(** The record [r] comes from the vision path: the model answered a
    request with a completion whose first content is the text [r] is built
    from. *)
Definition vision_run (w : World) (filename : string) (r : ExtractedData)
  : Prop :=
  exists request data text,
    vision w request = Some data /\ first_content data = Some text
    /\ reply_run w filename text r.

(** ** Sample inputs *)

(** A line feed. *)
Definition LF : string := String (Char.of_code 10) EmptyString.

(** A member of a JSON object: a quoted name, a colon, the text of the value. *)
Definition member (k v : string) : string := JSON.quoted k ++ ":" ++ v.

Definition uber_reply : string :=
  "Here is the data: {" ++ member "merchant_name" (JSON.quoted "UBER")
  ++ "," ++ member "amount" (JSON.quoted "12.50")
  ++ "," ++ member "category" (JSON.quoted "Travel")
  ++ "," ++ member "receipt_date" (JSON.quoted "2099-01-01")
  ++ "," ++ member "confidence" (JSON.quoted "high") ++ "}".

Definition gadgets_reply : string :=
  "{" ++ member "merchant_name" (JSON.quoted "Gizmo Hut")
  ++ "," ++ member "amount" "19.99"
  ++ "," ++ member "category" (JSON.quoted "Gadgets")
  ++ "," ++ member "receipt_date" (JSON.quoted "2026-10-30")
  ++ "," ++ member "confidence" (JSON.quoted "high") ++ "}".

Definition refund_reply : string :=
  "{" ++ member "merchant_name" (JSON.quoted "Lyft")
  ++ "," ++ member "amount" "-5"
  ++ "," ++ member "category" (JSON.quoted "Travel")
  ++ "," ++ member "receipt_date" (JSON.quoted "2026-10-30")
  ++ "," ++ member "confidence" (JSON.quoted "high") ++ "}".

(** A world in which the clock stands at 2026-11-01T18:30:00.123Z, the
    image is fetched, the model answers [reply] (or the call fails) and
    the receipt table holds [rows]. *)
Definition sample_world (rnd : nat -> Q) (reply : option string)
    (rows : list Receipt) : World :=
  {| clock := fun _ => sample_clock;
     random := rnd;
     fetch := fun _ =>
       Some {| status := 200; content_type := Some "image/png";
               body := Some "receipt" |};
     openai_key := Some "sk-sample";
     vision := fun _ =>
       match reply with
       | Some text =>
           Some {| choices :=
                     Some [ {| message := Some {| content := Some text |} |} ] |}
       | None => None
       end;
     receipts := Some rows;
     date_parse_other := fun _ => None;
     json_parse_other := fun _ => None |}.

Definition half : nat -> Q := fun _ => (1 # 2)%Q.


Definition url : string := "https://cdn.example/r.png".

Definition high_draws : nat -> Q :=
  fun n => match n with O => 63 # 64 | _ => 3 # 4 end.

Definition st0 : St := {| ticks := 0; draws := 0 |}.

Definition ai_notes : value := Some (JStr "Extracted using AI vision").

(** The record of the reply [uber_reply], with the date the reconciler
    gives. *)
Definition uber_record (date : string) : ExtractedData :=
  {| merchant_name := "UBER";
     amount := Fin (25 # 2);
     category := "Travel";
     receipt_date := date;
     confidence := "high";
     date_source := "ai_vision";
     extraction_notes := ai_notes |}.

Definition uber_object : json :=
  JObj [("merchant_name", JStr "UBER"); ("amount", JStr "12.50");
        ("category", JStr "Travel"); ("receipt_date", JStr "2099-01-01");
        ("confidence", JStr "high")].

Definition uber_processed : Processed.t :=
  {| Processed.merchant_name := "UBER";
     Processed.amount := Fin (25 # 2);
     Processed.currency := "USD";
     Processed.receipt_date := "2026-10-25";
     Processed.category := "Travel";
     Processed.confidence := Fin 0.9;
     Processed.needs_review := false;
     Processed.is_duplicate := false;
     Processed.date_iso := "2026-10-25";
     Processed.extraction_notes := ai_notes;
     Processed.original_data :=
       {| Original.merchant := "UBER";
          Original.amount := Fin (25 # 2);
          Original.date := "2026-10-25";
          Original.confidence := "high" |} |}.

Definition gadgets_processed : Processed.t :=
  {| Processed.merchant_name := "Gizmo Hut";
     Processed.amount := Fin 19.99;
     Processed.currency := "USD";
     Processed.receipt_date := "2026-10-30";
     Processed.category := "Other";
     Processed.confidence := Fin 0.9;
     Processed.needs_review := false;
     Processed.is_duplicate := false;
     Processed.date_iso := "2026-10-30";
     Processed.extraction_notes := ai_notes;
     Processed.original_data :=
       {| Original.merchant := "Gizmo Hut";
          Original.amount := Fin 19.99;
          Original.date := "2026-10-30";
          Original.confidence := "high" |} |}.

Definition refund_record : ExtractedData :=
  {| merchant_name := "Lyft";
     amount := Fin (-5);
     category := "Travel";
     receipt_date := "2026-10-30";
     confidence := "high";
     date_source := "ai_vision";
     extraction_notes := ai_notes |}.

Definition fallback_record : ExtractedData :=
  {| merchant_name := "Unknown Merchant";
     amount := Fin (1001 # 20);
     category := "Other";
     receipt_date := "2026-10-22";
     confidence := "low";
     date_source := "estimated";
     extraction_notes := None |}.

(** A receipt of user 7 at UBER, of 12.5, dated 2026-10-25 and created on
    2026-10-26. *)
Definition uber_row : Receipt :=
  {| userId := 7;
     merchantName := "UBER";
     receiptAmount := Fin (25 # 2);
     receiptDate := 1792886400000;
     createdAt := 1793000000000 |}.

(** ** Vocabulary of the proofs *)

(** A computation that always returns. *)
Definition total {A} (m : M A) : Prop :=
  forall st, exists a st', m st = (Ok a, st').

(** [s] does not start with white space. *)
Definition lead_ok (s : string) : bool :=
  match s with
  | String c _ => negb (Char.is_ws c)
  | EmptyString => true
  end.

(** [p] matches at no position of [s]. *)
Fixpoint nowhere (p : string -> bool) (s : string) : Prop :=
  p s = false /\
  match s with
  | EmptyString => True
  | String _ s' => nowhere p s'
  end.

(** What the proof needs of a pattern: it needs a character; a match stays
    a match when text without line terminators is appended; it is not
    created by collapsing white space, nor by the upper-case initials. *)
Record stable (p : string -> bool) : Prop := {
  st_empty : p "" = false;
  st_extend : forall s t, Str.noLT t = true -> p s = true -> p (s ++ t) = true;
  st_collapse : forall u, Str.noLT u = true ->
                p (collapseSpaces u) = true -> p u = true;
  st_upper : forall b u, p (upperInitials b u) = p u
}.

(** What is needed of the part of a pattern after its [\s+]. *)
Record stable_after (h : string -> bool) : Prop := {
  sa_empty : h "" = false;
  sa_extend : forall r t, Str.noLT t = true -> h r = true -> h (r ++ t) = true;
  sa_collapse : forall v, Str.noLT v = true -> lead_ok v = true ->
                h (collapseSpaces v) = true -> h v = true;
  sa_upper : forall b v, h (upperInitials b v) = h v
}.

(** The five cuts of [normalizeMerchant], and what follows them. *)
Definition cuts (s : string) : string :=
  Str.cutAt re_location (Str.cutAt re_four_digits (Str.cutAt re_store_number
    (Str.cutAt re_asterisk (Str.cutAt re_trip s)))).

Definition tidy (s : string) : string :=
  upperInitials false (collapseSpaces (Str.trim s)).

Definition all_nowhere (s : string) : Prop :=
  nowhere re_trip s /\ nowhere re_asterisk s /\ nowhere re_store_number s
  /\ nowhere re_four_digits s /\ nowhere re_location s.

Definition known_category (c : string) : bool :=
  existsb (String.eqb c) categories.

(** ** The synchronous route *)

(** The record that the handler [POST] of [app/api/ocr/route.ts] answers
    with. *)
Module RouteData.
Record t : Type := {
  merchant_name : string;
  amount : number;
  currency : string;
  receipt_date : string;
  category : string;
  confidence : number;
  needs_review : bool;
  is_duplicate : bool;
  extraction_notes : json
}.
End RouteData.

Module OcrRoute.

(** The handler from the call of [aiOCRExtraction] on. *)
Definition POST (w : World) (userId : Z)
    (sanitizedFileUrl sanitizedFilename : string) : M RouteData.t :=
  extractedData <- aiOCRExtraction w sanitizedFileUrl sanitizedFilename ;;
  let merchant := normalizeMerchant (merchant_name extractedData) in
  let currency := normalizeCurrency (ANum (amount extractedData)) "USD" in
  let date :=
    match parseDateRobust (receipt_date extractedData) with
    | Some d => str_or d (receipt_date extractedData)
    | None => receipt_date extractedData
    end in
  isDuplicate <-
    checkForDuplicate w userId merchant (Currency.amount currency) date ;;
  let confidence :=
    if String.eqb (confidence extractedData) "high" then Fin 0.9
    else if String.eqb (confidence extractedData) "medium" then Fin 0.7
    else Fin 0.5 in
  ret {| RouteData.merchant_name := merchant;
         RouteData.amount := Currency.amount currency;
         RouteData.currency := Currency.currency currency;
         RouteData.receipt_date := date;
         RouteData.category := category extractedData;
         RouteData.confidence := confidence;
         RouteData.needs_review := Num.ltb confidence (Fin 0.72);
         RouteData.is_duplicate := isDuplicate;
         RouteData.extraction_notes :=
           Val.or_else (extraction_notes extractedData)
                       (JStr "Processed successfully") |}.

End OcrRoute.

(** ** Keys ([lib/security]) *)

(** [process.env]: a variable holds a string or is not set. *)
Definition Env : Type := string -> option string.

(** [a || b] on values that are a string or undefined. *)
Definition env_or (a b : option string) : option string :=
  match a with
  | Some s => if Str.is_empty s then b else a
  | None => b
  end.

(** [v && !v.startsWith(prefix)] *)
Definition lacks_prefix (prefix : string) (v : option string) : bool :=
  match v with
  | Some s => negb (Str.is_empty s) && negb (Str.starts_with prefix s)
  | None => false
  end.

Definition isLive (env : Env) : bool :=
  match env "STRIPE_MODE" with
  | Some m => String.eqb m "live"
  | None => false
  end.

(** The secret key and the webhook secret of the payment provider: those
    of the mode, else the ones of the old format. *)
Definition finalStripeKey (env : Env) : option string :=
  let stripeKey :=
    if isLive env then env "STRIPE_SECRET_KEY_LIVE"
    else env "STRIPE_SECRET_KEY_TEST" in
  env_or stripeKey (env "STRIPE_SECRET_KEY").

Definition finalWebhookSecret (env : Env) : option string :=
  let webhookSecret :=
    if isLive env then env "STRIPE_WEBHOOK_SECRET_LIVE"
    else env "STRIPE_WEBHOOK_SECRET_TEST" in
  env_or webhookSecret (env "STRIPE_WEBHOOK_SECRET").

Module KeySecurityManager.

(** The list [issues] that [validateKeys] fills, in the order of its
    checks. *)
Definition issues (env : Env) : list string :=
  (if lacks_prefix "sk-" (env "OPENAI_API_KEY")
   then ["Invalid OpenAI API key format"] else [])
  ++ (if lacks_prefix "sk_" (finalStripeKey env)
      then ["Invalid Stripe secret key format"] else [])
  ++ (if lacks_prefix "whsec_" (finalWebhookSecret env)
      then ["Invalid Stripe webhook secret format"] else [])
  ++ (match env "AUTH_SECRET" with
      | Some s =>
          if negb (Str.is_empty s) && (String.length s <? 32)%nat
          then ["AUTH_SECRET must be at least 32 characters"] else []
      | None => []
      end).

Definition validateKeys (env : Env) : result bool :=
  match issues env with
  | [] => Ok true
  | l => Throw ("Security validation failed: " ++ String.concat ", " l)
  end.

End KeySecurityManager.

Module SecureKeyStore.

(** The static map [keys]; a key may be mapped to undefined, which is what
    [initialize] stores for a variable that is not set. *)
Definition Keys : Type := list (string * option string).

(** [keys.set(k, v)] *)
Fixpoint set (k : string) (v : option string) (keys : Keys) : Keys :=
  match keys with
  | [] => [(k, v)]
  | (k', v') :: rest =>
      if String.eqb k' k then (k, v) :: rest else (k', v') :: set k v rest
  end.

(** [keys.get(k)] *)
Fixpoint get (k : string) (keys : Keys) : option string :=
  match keys with
  | [] => None
  | (k', v) :: rest => if String.eqb k' k then v else get k rest
  end.

Definition initialize (env : Env) (keys : Keys) : Keys :=
  let keys := set "openai" (env "OPENAI_API_KEY") keys in
  let keys :=
    match finalStripeKey env with
    | Some s => if Str.is_empty s then keys else set "stripe" (Some s) keys
    | None => keys
    end in
  let keys :=
    match finalWebhookSecret env with
    | Some s => if Str.is_empty s then keys else set "webhook" (Some s) keys
    | None => keys
    end in
  set "auth" (env "AUTH_SECRET") keys.

Definition getKey (keyName : string) (keys : Keys) : result string :=
  match get keyName keys with
  | Some key =>
      if Str.is_empty key then Throw ("Key " ++ keyName ++ " not found")
      else Ok key
  | None => Throw ("Key " ++ keyName ++ " not found")
  end.

Definition rotateKey (keyName newKey : string) (keys : Keys) : Keys :=
  set keyName (Some newKey) keys.

Definition clearKeys (keys : Keys) : Keys := [].

(** The store once the module is loaded: [initialize] on the empty map. *)
Definition loaded (env : Env) : Keys := initialize env [].

End SecureKeyStore.

(** ** The admin page *)

Module Admin.

(** What [axios.get] rejects with: an error of axios, with the status and
    the message of the response when there is one, or anything else. *)
Record ErrorResponse : Type := {
  status : Z;
  message : option string
}.

Inductive failure : Type :=
| AxiosError (response : option ErrorResponse)
| OtherError.

(** [fetchDashboardData]: the data, or the message of the error thrown. *)
Definition fetchDashboardData {Data : Type} (got : Data + failure)
  : result Data :=
  match got with
  | inl data => Ok data
  | inr (AxiosError (Some r)) =>
      if status r =? 403
      then Throw "Access denied. Admin privileges required."
      else Throw (match message r with
                  | Some m => str_or m "Failed to fetch dashboard data"
                  | None => "Failed to fetch dashboard data"
                  end)
  | inr (AxiosError None) => Throw "Failed to fetch dashboard data"
  | inr OtherError => Throw "An unexpected error occurred"
  end.

(** The [retry] option of the query, on the message of the error. *)
Definition retry (failureCount : Z) (error_message : string) : bool :=
  if Str.includes error_message "Access denied" then false
  else failureCount <? 3.

(** The badge of a [MetricCard]: its class and its text, or nothing when
    the change is zero. *)
Record Badge : Type := { className : string; text : string }.

Definition MetricCard_badge (change : number) : option Badge :=
  let isPositive := Num.ltb (Fin 0) change in
  let isNegative := Num.ltb change (Fin 0) in
  if Num.eqb change (Fin 0) then None
  else Some {| className :=
                 "ml-2 text-sm font-medium "
                 ++ (if isPositive then "text-green-600"
                     else if isNegative then "text-red-600"
                     else "text-gray-500");
               text := (if isPositive then "+" else "")
                       ++ Num.toString change ++ "%" |}.

End Admin.

(** ** Further sample inputs *)

(** What the orchestrator answers in the sample world when the model call
    fails and every random draw is one half. *)
Definition fallback_processed : Processed.t :=
  {| Processed.merchant_name := "Unknown Merchant";
     Processed.amount := Fin 28;
     Processed.currency := "USD";
     Processed.receipt_date := "2026-10-25";
     Processed.category := "Other";
     Processed.confidence := Fin 0.5;
     Processed.needs_review := true;
     Processed.is_duplicate := false;
     Processed.date_iso := "2026-10-25";
     Processed.extraction_notes :=
       Some (JStr "Processed with enhanced normalization");
     Processed.original_data :=
       {| Original.merchant := "Unknown Merchant";
          Original.amount := Fin 28;
          Original.date := "2026-10-25";
          Original.confidence := "low" |} |}.

(** What the orchestrator answers for the reply [refund_reply]. *)
Definition refund_processed : Processed.t :=
  {| Processed.merchant_name := "Lyft";
     Processed.amount := Fin 5;
     Processed.currency := "USD";
     Processed.receipt_date := "2026-10-30";
     Processed.category := "Travel";
     Processed.confidence := Fin 0.9;
     Processed.needs_review := false;
     Processed.is_duplicate := false;
     Processed.date_iso := "2026-10-30";
     Processed.extraction_notes := ai_notes;
     Processed.original_data :=
       {| Original.merchant := "Lyft";
          Original.amount := Fin (-5);
          Original.date := "2026-10-30";
          Original.confidence := "high" |} |}.

(** The record of the pattern fallback for a file named after a burger
    chain. *)
Definition burger_record : ExtractedData :=
  {| merchant_name := "McDonald's";
     amount := Fin (21 # 2);
     category := "Meals";
     receipt_date := "2026-10-25";
     confidence := "low";
     date_source := "estimated";
     extraction_notes := None |}.

(** An environment with well-formed keys, in live mode. *)
Definition sample_env : Env :=
  fun name =>
    if String.eqb name "OPENAI_API_KEY" then Some "sk-sample"
    else if String.eqb name "STRIPE_MODE" then Some "live"
    else if String.eqb name "STRIPE_SECRET_KEY_LIVE" then Some "sk_live_sample"
    else if String.eqb name "STRIPE_WEBHOOK_SECRET" then Some "whsec_sample"
    else if String.eqb name "AUTH_SECRET"
         then Some "0123456789abcdef0123456789abcdef"
    else None.

Definition empty_env : Env := fun _ => None.

(** ** Vocabulary of the further properties *)

(** Every white-space character of [s] is a single space between two
    characters that are no white space; [prev] tells whether such a
    character comes just before [s].  With [prev] false at the start, the
    string is not empty either. *)
Fixpoint spaced (prev : bool) (s : string) : bool :=
  match s with
  | EmptyString => prev
  | String c s' =>
      if Char.is_ws c then prev && Ascii.eqb c " " && spaced false s'
      else spaced true s'
  end.

(** No lower-case letter begins a word of [s]; [prev] tells whether the
    character before [s] is a word character. *)
Fixpoint capitalized (prev : bool) (s : string) : bool :=
  match s with
  | EmptyString => true
  | String c s' =>
      (prev || negb (Char.is_lower c)) && capitalized (Char.is_word c) s'
  end.

(** No currency symbol. *)
Definition plain (c : ascii) : bool :=
  match symbolMap c with Some _ => false | None => true end.

(** [c] does not occur in [s]. *)
Definition lacks (c : ascii) (s : string) : bool :=
  Str.all (fun x => negb (Ascii.eqb x c)) s.

Definition not_T (c : ascii) : bool := negb (Ascii.eqb c "T").

(** No digit in [s]. *)
Definition no_digit (s : string) : bool :=
  Str.all (fun c => negb (Char.is_digit c)) s.

(** The integers [lo], [lo + 1], ..., [lo + n - 1]. *)
Fixpoint range (lo : Z) (n : nat) : list Z :=
  match n with
  | O => []
  | S n' => lo :: range (lo + 1) n'
  end.

(** [s] is made of [n] digits, and [z] is their value. *)
Definition digits_of (n : nat) (z : Z) (s : string) : bool :=
  (String.length s =? n)%nat && Str.all Char.is_digit s && (Num.digits s =? z).

(** The ten characters of a date [YYYY-MM-DD]. *)
Definition iso10 (a b c d m1 m2 d1 d2 : ascii) : string :=
  String a (String b (String c (String d (String "-"
    (String m1 (String m2 (String "-" (String d1 (String d2 ""))))))))).

(** A date string is the ISO day of an instant. *)
Definition is_day (s : string) : Prop := exists t, s = iso_day_of t.

(** What the date fallback may give besides: a date string made of a year,
    a month and a day that were only checked against their ranges. *)
Definition is_ranged (s : string) : Prop :=
  exists y m d,
    2020 <= y <= 9999 /\ 1 <= m <= 12 /\ 1 <= d <= 31 /\ s = ymd_string y m d.

(** ** Company settings ([/api/company-settings]) *)

(** [parseInt(s)] without a radix, for any text: white space is skipped, a
    sign is read, then a prefix 0x or 0X choosing the radix 16, then the
    longest run of digits of the radix; [NaN] when there is none. *)
Fixpoint radix_digits (radix : Z) (acc : option Z) (s : string) : option Z :=
  match s with
  | EmptyString => acc
  | String c s' =>
      match JSON.hex_val c with
      | Some d =>
          if d <? radix
          then radix_digits radix
                 (Some (radix * match acc with Some a => a | None => 0 end + d)) s'
          else acc
      | None => acc
      end
  end.

Definition parseInt_text (s : string) : number :=
  let s := Str.trimStart s in
  let '(neg, s) :=
    match s with
    | String "-" r => (true, r)
    | String "+" r => (false, r)
    | _ => (false, s)
    end in
  let '(radix, s) :=
    match s with
    | String "0" (String x r) =>
        if Char.eq_ci "x" x then (16, r) else (10, s)
    | _ => (10, s)
    end in
  match radix_digits radix None s with
  | Some n => Num.of_Z (if neg then - n else n)
  | None => NaN
  end.

(** A row of the table [companySettings]: the columns the handlers
    compare, and the other columns as the values that were passed for
    them. *)
Module Setting.
Record t : Type := {
  id : Z;
  userId : Z;
  companyName : string;
  isDefault : bool;
  columns : list (string * value)
}.
End Setting.

Module Settings.

(** The store behind the client: a call may reject for a reason of its own
    (the connection, the schema and what it takes for a column), which
    [rejects] tells call by call; [new_id] is the identifier the store
    gives to a new row; [name_le] is the order of the store on names. *)
Record Store : Type := {
  rejects : nat -> bool;
  new_id : list Setting.t -> Z;
  name_le : string -> string -> bool
}.

Record Db : Type := { rows : list Setting.t; calls : nat }.

Definition D (A : Type) : Type := Db -> result A * Db.

Definition ret {A : Type} (a : A) : D A := fun db => (Ok a, db).

Definition bind {A B : Type} (m : D A) (k : A -> D B) : D B :=
  fun db =>
    match m db with
    | (Ok a, db') => k a db'
    | (Throw e, db') => (Throw e, db')
    end.

Definition try_catch {A : Type} (m : D A) (h : string -> D A) : D A :=
  fun db =>
    match m db with
    | (Ok a, db') => (Ok a, db')
    | (Throw e, db') => h e db'
    end.

Definition of_result {A : Type} (r : result A) : D A := fun db => (r, db).

Declare Scope db_scope.
Delimit Scope db_scope with db.

Notation "x <- c1 ;; c2" := (bind c1 (fun x => c2))
  (at level 61, c1 at next level, right associativity) : db_scope.

Local Open Scope db_scope.

(** One call of the client: it rejects when the store says so or when the
    operation does, and else changes the table as the operation tells. *)
Definition call {A : Type} (store : Store)
    (op : list Setting.t -> result (A * list Setting.t)) : D A :=
  fun db =>
    let after t := {| rows := t; calls := S (calls db) |} in
    if rejects store (calls db)
    then (Throw "PrismaClientKnownRequestError", after (rows db))
    else match op (rows db) with
         | Ok (a, t) => (Ok a, after t)
         | Throw e => (Throw e, after (rows db))
         end.

Definition set_default (b : bool) (r : Setting.t) : Setting.t :=
  {| Setting.id := Setting.id r; Setting.userId := Setting.userId r;
     Setting.companyName := Setting.companyName r;
     Setting.isDefault := b; Setting.columns := Setting.columns r |}.

(** The order [[{ isDefault: "desc" }, { companyName: "asc" }]]. *)
Definition before (store : Store) (a b : Setting.t) : bool :=
  if Bool.eqb (Setting.isDefault a) (Setting.isDefault b)
  then name_le store (Setting.companyName a) (Setting.companyName b)
  else Setting.isDefault a.

Fixpoint insert (le : Setting.t -> Setting.t -> bool) (r : Setting.t) (t : list Setting.t)
  : list Setting.t :=
  match t with
  | [] => [r]
  | x :: t' => if le r x then r :: t else x :: insert le r t'
  end.

Definition sort (le : Setting.t -> Setting.t -> bool) (t : list Setting.t) : list Setting.t :=
  fold_right (insert le) [] t.

(** [findMany({ where: { userId }, orderBy })] *)
Definition findMany (store : Store) (user : Z) (t : list Setting.t)
  : result (list Setting.t * list Setting.t) :=
  Ok (sort (before store) (filter (fun r => Setting.userId r =? user) t), t).

(** [updateMany({ where: { userId }, data: { isDefault: false } })] *)
Definition cleared (user : Z) (t : list Setting.t) : list Setting.t :=
  map (fun r => if Setting.userId r =? user then set_default false r else r) t.

Definition clear_defaults (user : Z) (t : list Setting.t)
  : result (unit * list Setting.t) :=
  Ok (tt, cleared user t).

(** [findFirst({ where })]: the first row, in the order of the store. *)
Definition findFirst (p : Setting.t -> bool) (t : list Setting.t)
  : result (option Setting.t * list Setting.t) :=
  Ok (find p t, t).

(** The row of least [id] among those that meet [p]. *)
Fixpoint least (p : Setting.t -> bool) (t : list Setting.t) : option Setting.t :=
  match t with
  | [] => None
  | r :: t' =>
      if p r then
        match least p t' with
        | Some r' => if Setting.id r' <? Setting.id r then Some r' else Some r
        | None => Some r
        end
      else least p t'
  end.

(** [findFirst({ where, orderBy: { id: "asc" } })] *)
Definition findFirst_by_id (p : Setting.t -> bool) (t : list Setting.t)
  : result (option Setting.t * list Setting.t) :=
  Ok (least p t, t).

(** [update({ where: { id }, data })]: the row is changed by [f]; the call
    rejects when there is no such row. *)
Definition updated (i : Z) (f : Setting.t -> Setting.t) (t : list Setting.t)
  : list Setting.t :=
  map (fun r => if Setting.id r =? i then f r else r) t.

Definition update (i : Z) (f : Setting.t -> Setting.t) (t : list Setting.t)
  : result (Setting.t * list Setting.t) :=
  match find (fun r => Setting.id r =? i) t with
  | Some r => Ok (f r, updated i f t)
  | None => Throw "PrismaClientKnownRequestError: record not found"
  end.

(** [create({ data })] *)
Definition create (store : Store) (make : Z -> Setting.t) (t : list Setting.t)
  : result (Setting.t * list Setting.t) :=
  let r := make (new_id store t) in
  Ok (r, (t ++ [r])%list).

(** [delete({ where: { id } })], the identifier being a number: the call
    rejects when there is no such row. *)
Definition has_id (i : number) (r : Setting.t) : bool :=
  Num.eqb (Num.of_Z (Setting.id r)) i.

Definition without (i : number) (t : list Setting.t) : list Setting.t :=
  filter (fun r => negb (has_id i r)) t.

Definition delete (i : number) (t : list Setting.t) : result (unit * list Setting.t) :=
  match find (has_id i) t with
  | Some _ => Ok (tt, without i t)
  | None => Throw "PrismaClientKnownRequestError: record not found"
  end.

(** [count({ where: { userId } })] *)
Definition count (user : Z) (t : list Setting.t) : result (Z * list Setting.t) :=
  Ok (Z.of_nat (List.length (filter (fun r => Setting.userId r =? user) t)), t).

(** The session: none, or one whose [id] may be missing. *)
Record Session : Type := { session_id : option Z }.

(** What a handler answers. *)
Inductive Reply : Type :=
| Error (status : Z) (error : string)
| Listed (settings : list Setting.t)
| Saved (setting : Setting.t) (message : string)
| Deleted (message : string).

Definition status_of (r : Reply) : Z :=
  match r with
  | Error s _ => s
  | Listed _ | Saved _ _ | Deleted _ => 200
  end.

(** [session.id] when the session is there and its [id] is truthy. *)
Definition user_of (session : option Session) : option Z :=
  match session with
  | Some s =>
      match session_id s with
      | Some i => if i =? 0 then None else Some i
      | None => None
      end
  | None => None
  end.

(** [v = d] in a destructuring pattern: the default stands for undefined
    only. *)
Definition default_to (d : json) (v : value) : value :=
  match v with
  | Some j => Some j
  | None => Some d
  end.

(** A property of the body that is destructured: undefined unless the
    body is an object that has it. *)
Definition prop (body : json) (k : string) : value :=
  match body with
  | JObj fields => JSON.lookup fields k
  | _ => None
  end.

(** The columns of [data] besides the name and the flag, in its order. *)
Definition columns_of (body : json) : list (string * value) :=
  [ ("approverName", prop body "approverName");
    ("approverEmail", prop body "approverEmail");
    ("addressLine1", prop body "addressLine1");
    ("addressLine2", prop body "addressLine2");
    ("city", prop body "city");
    ("state", prop body "state");
    ("zipCode", prop body "zipCode");
    ("country", default_to (JStr "United States") (prop body "country"));
    ("department", prop body "department");
    ("costCenter", prop body "costCenter");
    ("notes", prop body "notes") ].

(** A value of [data] that is undefined leaves the column as it is. *)
Fixpoint merge (old new : list (string * value)) : list (string * value) :=
  match old, new with
  | (k, v) :: old', (_, Some j) :: new' => (k, Some j) :: merge old' new'
  | (k, v) :: old', (_, None) :: new' => (k, v) :: merge old' new'
  | _, _ => new
  end.

(** The typed arguments of the client: a column of strings takes a string,
    the flag takes a boolean; anything else is refused. *)
Definition as_string (v : value) : result string :=
  match v with
  | Some (JStr s) => Ok s
  | _ => Throw "PrismaClientValidationError"
  end.

Definition as_bool (v : value) : result bool :=
  match v with
  | Some (JBool b) => Ok b
  | _ => Throw "PrismaClientValidationError"
  end.

(** [const { ... } = body]: a TypeError on null. *)
Definition destructure (body : json) : result json :=
  match body with
  | JNull => Throw "TypeError: cannot destructure"
  | _ => Ok body
  end.

(** The handler [GET]; [session] is what [getSession] gives, or the error
    it rejects with. *)
Definition GET (store : Store) (session : result (option Session)) : D Reply :=
  try_catch
    (session <- of_result session ;;
     match user_of session with
     | None => ret (Error 401 "Unauthorized")
     | Some userId =>
         settings <- call store (findMany store userId) ;;
         ret (Listed settings)
     end)
    (fun error => ret (Error 500 "Internal Server Error")).

(** The handler [POST]; [body] is what [request.json()] gives, or the
    error it rejects with. *)
Definition POST (store : Store) (session : result (option Session))
    (body : result json) : D Reply :=
  try_catch
    (session <- of_result session ;;
     match user_of session with
     | None => ret (Error 401 "Unauthorized")
     | Some userId =>
         body <- of_result body ;;
         body <- of_result (destructure body) ;;
         let setting_name := default_to (JStr "default") (prop body "setting_name") in
         let companyName := prop body "companyName" in
         let approverName := prop body "approverName" in
         let approverEmail := prop body "approverEmail" in
         let is_default := default_to (JBool false) (prop body "is_default") in
         if negb (Val.truthy companyName) || negb (Val.truthy approverName)
            || negb (Val.truthy approverEmail)
         then ret (Error 400
                "Company name, approver name, and approver email are required")
         else
           _ <- (if Val.truthy is_default
                 then call store (clear_defaults userId)
                 else ret tt) ;;
           existingSetting <-
             (name <- of_result (as_string setting_name) ;;
              call store
                (findFirst (fun r => (Setting.userId r =? userId)
                                     && String.eqb (Setting.companyName r) name))) ;;
           match existingSetting with
           | Some existing =>
               result <-
                 (name <- of_result (as_string companyName) ;;
                  flag <- of_result (as_bool is_default) ;;
                  call store
                    (update (Setting.id existing)
                       (fun r => {| Setting.id := Setting.id r;
                                    Setting.userId := Setting.userId r;
                                    Setting.companyName := name;
                                    Setting.isDefault := flag;
                                    Setting.columns :=
                                      merge (Setting.columns r) (columns_of body) |}))) ;;
               ret (Saved result "Setting updated successfully")
           | None =>
               result <-
                 (name <- of_result (as_string companyName) ;;
                  flag <- of_result (as_bool is_default) ;;
                  call store
                    (create store
                       (fun i => {| Setting.id := i;
                                    Setting.userId := userId;
                                    Setting.companyName := name;
                                    Setting.isDefault := flag;
                                    Setting.columns := columns_of body |}))) ;;
               ret (Saved result "Setting created successfully")
           end
     end)
    (fun error => ret (Error 500 "Internal Server Error")).

(** The handler [DELETE]; [settingId] is the [id] parameter of the query
    string, when there is one.  What the store does with a number that is
    no identifier (as [NaN]) is its own: it may reject the call; when it
    does not, no row matches. *)
Definition DELETE (store : Store) (session : result (option Session))
    (settingId : option string) : D Reply :=
  try_catch
    (session <- of_result session ;;
     match user_of session with
     | None => ret (Error 401 "Unauthorized")
     | Some userId =>
         match settingId with
         | None => ret (Error 400 "Setting ID is required")
         | Some settingId =>
             if Str.is_empty settingId
             then ret (Error 400 "Setting ID is required")
             else
               let settingIdNum := parseInt_text settingId in
               let same_id := has_id settingIdNum in
               setting <-
                 call store
                   (findFirst (fun r => same_id r && (Setting.userId r =? userId))) ;;
               match setting with
               | None => ret (Error 404 "Setting not found")
               | Some setting =>
                   totalSettings <- call store (count userId) ;;
                   if totalSettings <=? 1
                   then ret (Error 400 "Cannot delete the only company setting")
                   else
                     _ <- (if Setting.isDefault setting then
                             nextDefaultSetting <-
                               call store
                                 (findFirst_by_id
                                    (fun r => (Setting.userId r =? userId)
                                              && negb (same_id r))) ;;
                             match nextDefaultSetting with
                             | Some next =>
                                 _ <- call store
                                        (update (Setting.id next) (set_default true)) ;;
                                 ret tt
                             | None => ret tt
                             end
                           else ret tt) ;;
                     _ <- call store (delete settingIdNum) ;;
                     ret (Deleted "Setting deleted successfully")
               end
         end
     end)
    (fun error => ret (Error 500 "Internal Server Error")).

(** What a handler answers when its body ends with [r]: an error that is
    caught is answered with the status 500. *)
Definition answer (r : result Reply) : Reply :=
  match r with
  | Ok reply => reply
  | Throw _ => Error 500 "Internal Server Error"
  end.

(** The user a request is made for, when its session names one. *)
Definition requester (session : result (option Session)) : option Z :=
  match session with
  | Ok s => user_of s
  | Throw _ => None
  end.

(** The rows of the user, those of the others, and the default rows of the
    user. *)
Definition mine (user : Z) (t : list Setting.t) : list Setting.t :=
  filter (fun r => Setting.userId r =? user) t.

Definition others (user : Z) (t : list Setting.t) : list Setting.t :=
  filter (fun r => negb (Setting.userId r =? user)) t.

Definition defaults (user : Z) (t : list Setting.t) : list Setting.t :=
  filter (fun r => Setting.isDefault r) (mine user t).

(** No two rows have the same identifier. *)
Definition unique_ids (t : list Setting.t) : Prop := NoDup (map Setting.id t).

(** The table after the block of [DELETE] that makes another setting the
    default, when it went through, [setting] being the row to delete. *)
Definition promoted (user : Z) (i : number) (setting : Setting.t)
    (t : list Setting.t) : list Setting.t :=
  if Setting.isDefault setting then
    match least (fun r => (Setting.userId r =? user) && negb (has_id i r)) t with
    | Some next => updated (Setting.id next) (set_default true) t
    | None => t
    end
  else t.

(** What [POST] does to the table [t] for the user: the flags are cleared
    first when the request asks for a default, and cleared they are
    whenever the row that is written is a default; then a row of the user
    is changed, or a row is added for the user, and the answer is that
    row; or nothing more is done, and the answer is an error. *)
Definition post_effect (user : Z) (t : list Setting.t) (reply : Reply)
    (t' : list Setting.t) : Prop :=
  exists t1,
    (t1 = t \/ t1 = cleared user t) /\
    ((t' = t1 /\ exists status error, reply = Error status error) \/
     (exists existing name flag cols message,
        In existing t1 /\ Setting.userId existing = user /\
        (flag = true -> t1 = cleared user t) /\
        let f := fun r => {| Setting.id := Setting.id r; Setting.userId := Setting.userId r;
                             Setting.companyName := name; Setting.isDefault := flag;
                             Setting.columns := merge (Setting.columns r) cols |} in
        t' = updated (Setting.id existing) f t1 /\ reply = Saved (f existing) message) \/
     (exists new message,
        Setting.userId new = user /\
        (Setting.isDefault new = true -> t1 = cleared user t) /\
        t' = (t1 ++ [new])%list /\ reply = Saved new message)).

(** What [DELETE] does to the table [t] for the user, [i] being the
    number read from the parameter. *)
Definition delete_effect (user : Z) (settingId : option string)
    (t : list Setting.t) (reply : Reply) (t' : list Setting.t) : Prop :=
  (t' = t /\
   (reply = Error 500 "Internal Server Error" \/
    reply = Error 400 "Setting ID is required" /\
      (settingId = None \/ settingId = Some EmptyString))) \/
  exists text, settingId = Some text /\ text <> EmptyString /\
    let i := parseInt_text text in
    (t' = t /\ reply = Error 404 "Setting not found" /\
     forall r, In r t -> has_id i r = true -> Setting.userId r <> user) \/
    exists setting,
      In setting t /\ has_id i setting = true /\ Setting.userId setting = user /\
      ((t' = t /\ reply = Error 400 "Cannot delete the only company setting" /\
        (List.length (mine user t) <= 1)%nat) \/
       (t' = t /\ reply = Error 500 "Internal Server Error") \/
       (2 <= List.length (mine user t))%nat /\
         ((t' = t \/ t' = promoted user i setting t) /\
          reply = Error 500 "Internal Server Error" \/
          t' = without i (promoted user i setting t) /\
          reply = Deleted "Setting deleted successfully")).

(** The rows of the user that have the name. *)
Definition named (user : Z) (name : string) (r : Setting.t) : bool :=
  (Setting.userId r =? user) && String.eqb (Setting.companyName r) name.

(** A store that rejects no call. *)
Definition accepts (store : Store) : Prop := forall n, rejects store n = false.

(** No default comes after a row that is none. *)
Fixpoint ordered (l : list Setting.t) : Prop :=
  match l with
  | [] => True
  | x :: l' =>
      (Setting.isDefault x = false -> forall y, In y l' -> Setting.isDefault y = false)
      /\ ordered l'
  end.

(** The defaults come first. *)
Definition defaults_first (l : list Setting.t) : Prop :=
  l = (filter Setting.isDefault l ++ filter (fun r => negb (Setting.isDefault r)) l)%list.

End Settings.

(** ** Sample settings *)

Definition settings_store : Settings.Store :=
  {| Settings.rejects := fun _ => false;
     Settings.new_id := fun t => 1 + fold_right Z.max 0 (map Setting.id t);
     Settings.name_le := String.leb |}.

Definition acme_row : Setting.t :=
  {| Setting.id := 1; Setting.userId := 7; Setting.companyName := "Acme";
     Setting.isDefault := true; Setting.columns := [] |}.

Definition beta_row : Setting.t :=
  {| Setting.id := 2; Setting.userId := 7; Setting.companyName := "Beta";
     Setting.isDefault := false; Setting.columns := [] |}.

Definition gamma_row : Setting.t :=
  {| Setting.id := 3; Setting.userId := 9; Setting.companyName := "Gamma";
     Setting.isDefault := true; Setting.columns := [] |}.

Definition settings_db : Settings.Db :=
  {| Settings.rows := [gamma_row; beta_row; acme_row]; Settings.calls := 0 |}.

Definition session_7 : result (option Settings.Session) :=
  Ok (Some {| Settings.session_id := Some 7 |}).

Definition delta_body : json :=
  JObj [("companyName", JStr "Delta"); ("approverName", JStr "Ann");
        ("approverEmail", JStr "ann@example.com"); ("is_default", JBool true)].

(** * Properties *)

(** ** Facts on dates *)

Module DateFacts.
Import JSDate.

Lemma doy_bounds doe : 0 <= doe <= 146096 ->
  let yoe := (doe - doe / 1460 + doe / 36524 - doe / 146096) / 365 in
  let doy := doe - (365 * yoe + yoe / 4 - yoe / 100) in
  0 <= yoe <= 399 /\ 0 <= doy <= 365.
Proof. intros H. cbv zeta. Z.div_mod_to_equations. lia. Qed.

Lemma month_day_bounds doy : 0 <= doy <= 365 ->
  let mp := (5 * doy + 2) / 153 in
  let d := doy - (153 * mp + 2) / 5 + 1 in
  0 <= mp <= 11 /\ 1 <= d <= 31.
Proof. intros H. cbv zeta. Z.div_mod_to_equations. lia. Qed.

Lemma era_of_year yoe era : 0 <= yoe <= 399 ->
  (yoe + era * 400) / 400 = era.
Proof. intros H. rewrite Z.div_add by lia. rewrite Z.div_small by lia. lia. Qed.

Lemma civil_round_trip z :
  let '(y, m, d) := civil_from_days z in
  days_from_civil y m d = z /\ 1 <= m <= 12 /\ 1 <= d <= 31.
Proof.
  unfold civil_from_days.
  set (era := (z + 719468) / 146097).
  set (doe := z + 719468 - era * 146097).
  assert (Hdoe : 0 <= doe <= 146096).
  { unfold doe, era. pose proof (Z.div_mod (z + 719468) 146097 ltac:(lia)).
    pose proof (Z.mod_pos_bound (z + 719468) 146097 ltac:(lia)). lia. }
  cbv zeta.
  pose proof (doy_bounds doe Hdoe) as Hy. cbv zeta in Hy.
  set (yoe := (doe - doe / 1460 + doe / 36524 - doe / 146096) / 365) in *.
  set (doy := doe - (365 * yoe + yoe / 4 - yoe / 100)) in *.
  destruct Hy as [Hyoe Hdoy].
  pose proof (month_day_bounds doy Hdoy) as Hm. cbv zeta in Hm.
  set (mp := (5 * doy + 2) / 153) in *.
  set (d := doy - (153 * mp + 2) / 5 + 1) in *.
  destruct Hm as [Hmp Hd].
  unfold days_from_civil.
  destruct (mp <? 10) eqn:E10.
  - apply Z.ltb_lt in E10.
    replace (mp + 3 <=? 2) with false by (symmetry; apply Z.leb_gt; lia).
    replace (2 <? mp + 3) with true by (symmetry; apply Z.ltb_lt; lia).
    rewrite era_of_year by lia.
    replace (yoe + era * 400 - era * 400) with yoe by lia.
    replace (mp + 3 - 3) with mp by lia.
    split; [unfold d, doy, doe; lia | lia].
  - apply Z.ltb_ge in E10.
    replace (mp - 9 <=? 2) with true by (symmetry; apply Z.leb_le; lia).
    replace (2 <? mp - 9) with false by (symmetry; apply Z.ltb_ge; lia).
    replace (yoe + era * 400 + 1 - 1) with (yoe + era * 400) by lia.
    rewrite era_of_year by lia.
    replace (yoe + era * 400 - era * 400) with yoe by lia.
    replace (mp - 9 + 9) with mp by lia.
    split; [unfold d, doy, doe; lia | lia].
Qed.

(** [setDate] moves a date by whole days. *)
Lemma setDate_shift t k :
  setDate (Some t) (DateFromTime t - k) = TimeClip (t - k * msPerDay).
Proof.
  unfold setDate, YearFromTime, MonthFromTime, DateFromTime, MakeDay, MakeDate.
  pose proof (civil_round_trip (Day t)) as H.
  destruct (civil_from_days (Day t)) as [[y m] d].
  destruct H as (H & Hm & Hd).
  f_equal.
  replace ((m - 1) / 12) with 0 by (symmetry; apply Z.div_small; lia).
  rewrite Z.mod_small by lia.
  replace (y + 0) with y by lia. replace (m - 1 + 1) with m by lia.
  assert (Hlin : days_from_civil y m 1 + (d - k) - 1 = days_from_civil y m d - k).
  { unfold days_from_civil. lia. }
  rewrite Hlin, H. unfold Day, TimeWithinDay, msPerDay.
  pose proof (Z.div_mod t 86400000 ltac:(lia)). lia.
Qed.



End DateFacts.

(** ** Facts on characters *)

Module CharFacts.
Import Char.

Ltac by_cases c :=
  destruct c as [[] [] [] [] [] [] [] []]; vm_compute;
  try reflexivity; try discriminate; auto.

Lemma upper_ws c : is_ws (upper c) = is_ws c.
Proof. by_cases c. Qed.

Lemma upper_LT c : is_LT (upper c) = is_LT c.
Proof. by_cases c. Qed.

Lemma upper_word c : is_word (upper c) = is_word c.
Proof. by_cases c. Qed.

Lemma upper_digit c : is_digit (upper c) = is_digit c.
Proof. by_cases c. Qed.

Lemma upper_upper c : upper (upper c) = upper c.
Proof. by_cases c. Qed.

Lemma ws_not_word c : is_ws c = true -> is_word c = false.
Proof. by_cases c. Qed.

Lemma digit_not_ws c : is_digit c = true -> is_ws c = false.
Proof. by_cases c. Qed.

Lemma LT_ws c : is_LT c = true -> is_ws c = true.
Proof. by_cases c. Qed.

Lemma upper_not_word c : is_word c = false -> upper c = c.
Proof. by_cases c. Qed.

Lemma initial_cases b c : initial b c = c \/ initial b c = upper c.
Proof. unfold initial. destruct (is_word c && negb b); auto. Qed.

Lemma initial_ws b c : is_ws (initial b c) = is_ws c.
Proof. destruct (initial_cases b c) as [-> | ->]; auto using upper_ws. Qed.

Lemma initial_LT b c : is_LT (initial b c) = is_LT c.
Proof. destruct (initial_cases b c) as [-> | ->]; auto using upper_LT. Qed.

Lemma initial_word b c : is_word (initial b c) = is_word c.
Proof. destruct (initial_cases b c) as [-> | ->]; auto using upper_word. Qed.

Lemma initial_digit b c : is_digit (initial b c) = is_digit c.
Proof. destruct (initial_cases b c) as [-> | ->]; auto using upper_digit. Qed.

Lemma initial_not_word b c : is_word c = false -> initial b c = c.
Proof. unfold initial. intros ->. reflexivity. Qed.

Lemma initial_eq_ci b p c : eq_ci p (initial b c) = eq_ci p c.
Proof.
  destruct (initial_cases b c) as [-> | ->]; [reflexivity|].
  unfold eq_ci. now rewrite upper_upper.
Qed.

Lemma initial_initial b c : initial b (initial b c) = initial b c.
Proof.
  unfold initial at 2. destruct (is_word c && negb b) eqn:E.
  - unfold initial. rewrite upper_word, E. apply upper_upper.
  - unfold initial. now rewrite E.
Qed.

(** A punctuation mark of the patterns is no word character, so [initial]
    leaves it as it is. *)
Lemma initial_eqb b c p :
  is_word p = false -> Ascii.eqb (initial b c) p = Ascii.eqb c p.
Proof.
  intros Hp. unfold initial.
  destruct (is_word c && negb b) eqn:E; [|reflexivity].
  apply andb_true_iff in E as [Hw _].
  destruct (Ascii.eqb c p) eqn:E1.
  - apply Ascii.eqb_eq in E1. congruence.
  - destruct (Ascii.eqb (upper c) p) eqn:E2; [|reflexivity].
    apply Ascii.eqb_eq in E2. rewrite <- E2, upper_word in Hp. congruence.
Qed.

Lemma eq_ci_ws p c : eq_ci p c = true -> is_ws c = is_ws p.
Proof.
  unfold eq_ci. intros H. apply Ascii.eqb_eq in H.
  rewrite <- (upper_ws c), <- (upper_ws p). now rewrite H.
Qed.

End CharFacts.

(** ** Facts on strings *)

Module StrFacts.
Import Str.

Lemma app_empty_r s : s ++ "" = s.
Proof. induction s; simpl; congruence. Qed.

Lemma app_assoc (a b c : string) : (a ++ b) ++ c = a ++ (b ++ c).
Proof. induction a; simpl; congruence. Qed.

Lemma all_app p a b : all p (a ++ b) = all p a && all p b.
Proof. induction a as [|c a IH]; simpl; [reflexivity|]. now rewrite IH, andb_assoc. Qed.

Lemma noLT_app a b : noLT (a ++ b) = noLT a && noLT b.
Proof. apply all_app. Qed.

Lemma noLT_cons c s : noLT (String c s) = negb (Char.is_LT c) && noLT s.
Proof. reflexivity. Qed.

Lemma noLT_tail c s : noLT (String c s) = true -> noLT s = true.
Proof. rewrite noLT_cons. intros H. now apply andb_true_iff in H. Qed.

Lemma noLT_skip p s : noLT s = true -> noLT (skip p s) = true.
Proof.
  induction s as [|c s IH]; simpl; [auto|].
  destruct (p c); [|auto]. intros H. apply IH. eapply noLT_tail; eauto.
Qed.

Lemma noLT_prefix a b : noLT (a ++ b) = true -> noLT a = true.
Proof. rewrite noLT_app. intros H. now apply andb_true_iff in H. Qed.

Lemma noLT_suffix a b : noLT (a ++ b) = true -> noLT b = true.
Proof. rewrite noLT_app. intros H. now apply andb_true_iff in H. Qed.

Lemma noLT_skip_app p a b :
  noLT (skip p a) = true -> noLT b = true -> noLT (skip p (a ++ b)) = true.
Proof.
  induction a as [|c a IH]; simpl; intros Ha Hb.
  - now apply noLT_skip.
  - destruct (p c); [auto|]. change (String c (a ++ b)) with (String c a ++ b).
    rewrite noLT_app, Ha, Hb. reflexivity.
Qed.

Lemma skip_app p s t :
  is_empty (skip p s) = false -> skip p (s ++ t) = skip p s ++ t.
Proof.
  induction s as [|c s IH]; simpl; [discriminate|].
  destruct (p c); [exact IH | reflexivity].
Qed.

Lemma skip_head p c s : p c = false -> skip p (String c s) = String c s.
Proof. simpl. now intros ->. Qed.

Lemma skip_skip p s : skip p (skip p s) = skip p s.
Proof.
  induction s as [|c s IH]; simpl; [reflexivity|].
  destruct (p c) eqn:E; [exact IH|]. simpl. now rewrite E.
Qed.

Lemma cutAt_prefix p s : exists t, s = cutAt p s ++ t.
Proof.
  induction s as [|c s [t IH]]; simpl.
  - destruct (p ""); exists ""; reflexivity.
  - destruct (p (String c s)).
    + now exists (String c s).
    + exists t. simpl. congruence.
Qed.

Lemma trimEnd_prefix s : exists t, s = trimEnd s ++ t.
Proof.
  induction s as [|c s [t IH]]; simpl.
  - now exists "".
  - destruct (Char.is_ws c && is_empty (trimEnd s)).
    + now exists (String c s).
    + exists t. simpl. congruence.
Qed.

Lemma trimEnd_trimEnd s : trimEnd (trimEnd s) = trimEnd s.
Proof.
  induction s as [|c s IH]; simpl; [reflexivity|].
  destruct (Char.is_ws c && is_empty (trimEnd s)) eqn:E; [reflexivity|].
  simpl. now rewrite IH, E.
Qed.

Lemma trimEnd_head c s :
  Char.is_ws c = false -> trimEnd (String c s) = String c (trimEnd s).
Proof. simpl. now intros ->. Qed.

(** Trimming the end leaves a first character that is no white space. *)
Lemma skipWs_trimEnd s : skipWs (trimEnd (skipWs s)) = trimEnd (skipWs s).
Proof.
  unfold skipWs. induction s as [|c s IH]; simpl; [reflexivity|].
  destruct (Char.is_ws c) eqn:E; [exact IH|].
  rewrite trimEnd_head by exact E. now apply skip_head.
Qed.

Lemma trim_trim s : trim (trim s) = trim s.
Proof.
  unfold trim, trimStart. rewrite skipWs_trimEnd. apply trimEnd_trimEnd.
Qed.

End StrFacts.

(** ** The merchant normalizer: what the steps keep *)

Module MerchantFacts.
Import Str StrFacts CharFacts.

Lemma lead_ok_skipWs s : lead_ok (skipWs s) = true.
Proof.
  unfold skipWs. induction s as [|c s IH]; simpl; [reflexivity|].
  destruct (Char.is_ws c) eqn:E; [exact IH|]. simpl. now rewrite E.
Qed.

Lemma skipWs_lead_ok s : lead_ok s = true -> skipWs s = s.
Proof.
  destruct s as [|c s]; unfold skipWs; simpl; [reflexivity|].
  intros H. apply negb_true_iff in H. now rewrite H.
Qed.

(** *** Collapsing white space *)

Lemma collapse_cons c s :
  collapseSpaces (String c s) =
  if Char.is_ws c then
    match s with
    | String c' _ =>
        if Char.is_ws c' then collapseSpaces s
        else String " " (collapseSpaces s)
    | EmptyString => " "
    end
  else String c (collapseSpaces s).
Proof. reflexivity. Qed.

Lemma collapse_other c s :
  Char.is_ws c = false ->
  collapseSpaces (String c s) = String c (collapseSpaces s).
Proof. intros H. now rewrite collapse_cons, H. Qed.

Lemma collapse_ws c s :
  Char.is_ws c = true ->
  collapseSpaces (String c s) = String " " (collapseSpaces (skipWs s)).
Proof.
  revert c. induction s as [|c' s IH]; intros c Hc; rewrite collapse_cons, Hc.
  - reflexivity.
  - unfold skipWs. simpl skip. fold skipWs.
    destruct (Char.is_ws c') eqn:E.
    + now apply IH.
    + reflexivity.
Qed.

Lemma collapse_lead_ok s : lead_ok s = true -> lead_ok (collapseSpaces s) = true.
Proof.
  destruct s as [|c s]; [reflexivity|]. simpl lead_ok at 1. intros H.
  apply negb_true_iff in H. rewrite collapse_other by exact H.
  simpl. now rewrite H.
Qed.

Lemma collapse_empty s : is_empty (collapseSpaces s) = is_empty s.
Proof.
  destruct s as [|c s]; [reflexivity|].
  destruct (Char.is_ws c) eqn:E.
  - now rewrite collapse_ws.
  - now rewrite collapse_other.
Qed.

(** The head of a collapsed string, read back in the string it comes from. *)
Lemma collapse_head d w s :
  collapseSpaces s = String d w -> Char.is_ws d = false ->
  exists s', s = String d s' /\ w = collapseSpaces s'.
Proof.
  destruct s as [|c s]; [discriminate|]. intros H Hd.
  destruct (Char.is_ws c) eqn:E.
  - rewrite collapse_ws in H by exact E. injection H as <- _.
    discriminate Hd.
  - rewrite collapse_other in H by exact E. injection H as <- <-.
    now exists s.
Qed.

Lemma collapse_head_ws d w s :
  collapseSpaces s = String d w -> Char.is_ws d = true ->
  exists c s', s = String c s' /\ Char.is_ws c = true
               /\ w = collapseSpaces (skipWs s').
Proof.
  destruct s as [|c s]; [discriminate|]. intros H Hd.
  destruct (Char.is_ws c) eqn:E.
  - rewrite collapse_ws in H by exact E. injection H as <- <-.
    now exists c, s.
  - rewrite collapse_other in H by exact E. injection H as <- _. congruence.
Qed.

Lemma collapse_noLT s : noLT (collapseSpaces s) = true.
Proof.
  induction s as [|c s IH]; [reflexivity|].
  destruct (Char.is_ws c) eqn:E.
  - rewrite collapse_cons, E. destruct s as [|c' s]; [reflexivity|].
    destruct (Char.is_ws c'); [exact IH|].
    rewrite noLT_cons, IH. reflexivity.
  - rewrite collapse_other by exact E. rewrite noLT_cons, IH.
    destruct (Char.is_LT c) eqn:EL; [|reflexivity].
    apply LT_ws in EL. congruence.
Qed.

Lemma collapse_collapse s : collapseSpaces (collapseSpaces s) = collapseSpaces s.
Proof.
  induction s as [|c s IH]; [reflexivity|].
  destruct (Char.is_ws c) eqn:E.
  - rewrite (collapse_cons c), E. destruct s as [|c' s]; [reflexivity|].
    destruct (Char.is_ws c') eqn:E'; [exact IH|].
    rewrite collapse_ws by reflexivity.
    rewrite skipWs_lead_ok.
    + now rewrite IH.
    + apply collapse_lead_ok. simpl. now rewrite E'.
  - rewrite !collapse_other by exact E. now rewrite IH.
Qed.

Lemma trimEnd_collapse s :
  trimEnd s = s -> trimEnd (collapseSpaces s) = collapseSpaces s.
Proof.
  induction s as [|c s IH]; [reflexivity|]. intros H.
  simpl in H. destruct (Char.is_ws c && is_empty (trimEnd s)) eqn:E;
    [discriminate|]. injection H as H. specialize (IH H).
  destruct (Char.is_ws c) eqn:Ec.
  - simpl in E. rewrite H in E. rewrite collapse_cons, Ec.
    destruct s as [|c' s]; [discriminate|].
    destruct (Char.is_ws c') eqn:Ec'; [exact IH|].
    change (trimEnd (String " " ?x)) with
      (if Char.is_ws " " && is_empty (trimEnd x) then "" else String " " (trimEnd x)).
    rewrite IH, collapse_empty. reflexivity.
  - rewrite collapse_other by exact Ec. rewrite trimEnd_head by exact Ec.
    now rewrite IH.
Qed.

Lemma trim_collapse_trim s :
  trim (collapseSpaces (trim s)) = collapseSpaces (trim s).
Proof.
  unfold trim at 1, trimStart. rewrite skipWs_lead_ok.
  - apply trimEnd_collapse. unfold trim. apply trimEnd_trimEnd.
  - apply collapse_lead_ok. unfold trim, trimStart.
    rewrite <- skipWs_trimEnd. apply lead_ok_skipWs.
Qed.

(** *** Upper-case initials *)

Lemma upper_noLT b s : noLT (upperInitials b s) = noLT s.
Proof.
  revert b. induction s as [|c s IH]; intros b; [reflexivity|].
  simpl upperInitials. rewrite !noLT_cons, IH, initial_LT. reflexivity.
Qed.

Lemma upper_empty b s : is_empty (upperInitials b s) = is_empty s.
Proof. destruct s; reflexivity. Qed.

Lemma skipWs_upper b s :
  exists b', skipWs (upperInitials b s) = upperInitials b' (skipWs s).
Proof.
  unfold skipWs. revert b. induction s as [|c s IH]; intros b.
  - now exists b.
  - simpl. rewrite initial_ws. destruct (Char.is_ws c); [apply IH|].
    now exists b.
Qed.

Lemma skipWs_upper_false s :
  skipWs (upperInitials false s) = upperInitials false (skipWs s).
Proof.
  unfold skipWs. induction s as [|c s IH]; [reflexivity|].
  simpl. rewrite initial_ws. destruct (Char.is_ws c) eqn:E; [|reflexivity].
  rewrite (ws_not_word c E). exact IH.
Qed.

Lemma trimEnd_upper b s :
  trimEnd (upperInitials b s) = upperInitials b (trimEnd s).
Proof.
  revert b. induction s as [|c s IH]; intros b; [reflexivity|].
  simpl. rewrite IH, upper_empty, initial_ws.
  destruct (Char.is_ws c && is_empty (trimEnd s)); reflexivity.
Qed.

Lemma trim_upper s :
  trim (upperInitials false s) = upperInitials false (trim s).
Proof. unfold trim, trimStart. now rewrite skipWs_upper_false, trimEnd_upper. Qed.

Lemma upper_cons b c s :
  upperInitials b (String c s)
  = String (initial b c) (upperInitials (Char.is_word c) s).
Proof. reflexivity. Qed.

Lemma upper_ws_head b c s :
  Char.is_ws c = true ->
  upperInitials b (String c s) = String c (upperInitials false s).
Proof.
  intros H. rewrite upper_cons, (ws_not_word c H).
  now rewrite (initial_not_word b c (ws_not_word c H)).
Qed.

Lemma length_skip p s : (String.length (skip p s) <= String.length s)%nat.
Proof.
  induction s as [|c s IH]; simpl; [lia|]. destruct (p c); simpl; lia.
Qed.

Lemma collapse_upper_bounded n : forall b s,
  (String.length s <= n)%nat ->
  collapseSpaces (upperInitials b s) = upperInitials b (collapseSpaces s).
Proof.
  induction n as [|n IH]; intros b [|c s] Hn; try reflexivity.
  - simpl in Hn. lia.
  - simpl in Hn. destruct (Char.is_ws c) eqn:E.
    + rewrite upper_ws_head by exact E.
      rewrite !collapse_ws by exact E.
      rewrite skipWs_upper_false, IH.
      * now rewrite upper_ws_head by reflexivity.
      * pose proof (length_skip Char.is_ws s). unfold skipWs. lia.
    + rewrite upper_cons, collapse_other by (now rewrite initial_ws).
      rewrite collapse_other by exact E.
      rewrite upper_cons, IH by lia. reflexivity.
Qed.

Lemma collapse_upper b s :
  collapseSpaces (upperInitials b s) = upperInitials b (collapseSpaces s).
Proof. now apply (collapse_upper_bounded (String.length s)). Qed.

Lemma upper_upper_initials b s :
  upperInitials b (upperInitials b s) = upperInitials b s.
Proof.
  revert b. induction s as [|c s IH]; intros b; [reflexivity|].
  simpl. now rewrite initial_initial, initial_word, IH.
Qed.

End MerchantFacts.

(** ** The merchant normalizer: patterns that match nowhere *)

Module PatternFacts.
Import Str StrFacts CharFacts MerchantFacts.

Lemma nowhere_here p s : nowhere p s -> p s = false.
Proof. destruct s; simpl; tauto. Qed.

Lemma cutAt_nowhere p s : nowhere p s -> cutAt p s = s.
Proof.
  induction s as [|c s IH]; simpl; intros [H0 H1]; rewrite H0; [reflexivity|].
  now rewrite IH.
Qed.

Lemma nowhere_skip p q s : nowhere p s -> nowhere p (skip q s).
Proof.
  induction s as [|c s IH]; [auto|]. intros H. simpl skip.
  destruct (q c); [apply IH; apply H | exact H].
Qed.

Section Stable.

Variable p : string -> bool.
Hypothesis Hp : stable p.

Lemma nowhere_prefix a b :
  noLT b = true -> nowhere p (a ++ b) -> nowhere p a.
Proof.
  intros Hb. induction a as [|c a IH]; simpl.
  - intros _. split; [apply (st_empty p Hp) | exact I].
  - intros [H0 H1]. split; [|auto].
    destruct (p (String c a)) eqn:E; [|reflexivity].
    apply (st_extend p Hp _ b Hb) in E. simpl in E. congruence.
Qed.

Lemma nowhere_cutAt s : noLT s = true -> nowhere p (cutAt p s).
Proof.
  induction s as [|c s IH]; intros Hs; simpl.
  - rewrite (st_empty p Hp). split; [apply (st_empty p Hp)|exact I].
  - destruct (p (String c s)) eqn:E.
    + split; [apply (st_empty p Hp)|exact I].
    + split; [|apply IH; eapply noLT_tail; eauto].
      destruct (cutAt_prefix p s) as [t Ht].
      destruct (p (String c (cutAt p s))) eqn:E'; [|reflexivity].
      apply (st_extend p Hp _ t) in E'.
      * simpl in E'. rewrite <- Ht in E'. congruence.
      * apply noLT_tail in Hs. rewrite Ht in Hs. eapply noLT_suffix; eauto.
Qed.

Lemma nowhere_cut_other q s :
  noLT s = true -> nowhere p s -> nowhere p (cutAt q s).
Proof.
  intros Hs H. destruct (cutAt_prefix q s) as [t Ht].
  apply (nowhere_prefix _ t).
  - rewrite Ht in Hs. eapply noLT_suffix; eauto.
  - now rewrite <- Ht.
Qed.

Lemma nowhere_trim s : noLT s = true -> nowhere p s -> nowhere p (trim s).
Proof.
  intros Hs H. unfold trim, trimStart.
  destruct (trimEnd_prefix (skipWs s)) as [t Ht].
  apply (nowhere_prefix _ t).
  - apply (noLT_skip Char.is_ws) in Hs. fold skipWs in Hs.
    rewrite Ht in Hs. eapply noLT_suffix; eauto.
  - rewrite <- Ht. now apply nowhere_skip.
Qed.

Lemma nowhere_collapse s :
  noLT s = true -> nowhere p s -> nowhere p (collapseSpaces s).
Proof.
  induction s as [|c s IH]; intros Hs H; [exact H|].
  assert (Hhere : p (collapseSpaces (String c s)) = false).
  { destruct (p (collapseSpaces (String c s))) eqn:E; [|reflexivity].
    apply (st_collapse p Hp _ Hs) in E. destruct H as [H _]. congruence. }
  destruct H as [H0 H1]. pose proof (noLT_tail _ _ Hs) as Hs'.
  specialize (IH Hs' H1).
  rewrite collapse_cons in *. destruct (Char.is_ws c).
  - destruct s as [|c' s].
    + split; [exact Hhere|]. split; [apply (st_empty p Hp)|exact I].
    + destruct (Char.is_ws c'); [exact IH|]. split; [exact Hhere|exact IH].
  - split; [exact Hhere|exact IH].
Qed.

Lemma nowhere_upper s : nowhere p s -> forall b, nowhere p (upperInitials b s).
Proof.
  induction s as [|c s IH]; intros H b.
  - exact H.
  - destruct H as [H0 H1]. rewrite upper_cons. split.
    + rewrite <- upper_cons. now rewrite (st_upper p Hp).
    + apply IH, H1.
Qed.

End Stable.

(** *** The five patterns are stable *)

Lemma strip_prefix_app eq lit s t r :
  strip_prefix eq lit s = Some r -> strip_prefix eq lit (s ++ t) = Some (r ++ t).
Proof.
  revert s. induction lit as [|a lit IH]; intros s; simpl.
  - now intros [= ->].
  - destruct s as [|c s]; [discriminate|]. simpl.
    destruct (eq a c); [apply IH|discriminate].
Qed.

Lemma strip_prefix_upper lit : forall b s,
  match strip_prefix Char.eq_ci lit (upperInitials b s) with
  | Some r => exists b' r0, strip_prefix Char.eq_ci lit s = Some r0
                            /\ r = upperInitials b' r0
  | None => strip_prefix Char.eq_ci lit s = None
  end.
Proof.
  induction lit as [|a lit IH]; intros b s; simpl.
  - now exists b, s.
  - destruct s as [|c s]; [reflexivity|]. simpl.
    rewrite initial_eq_ci. destruct (Char.eq_ci a c); [apply IH|reflexivity].
Qed.

(** A literal without white space, found at the head of a collapsed
    string, is at the head of the string itself. *)
Lemma strip_prefix_collapse lit :
  all (fun a => negb (Char.is_ws a)) lit = true ->
  forall s r, strip_prefix Char.eq_ci lit (collapseSpaces s) = Some r ->
  exists r0, strip_prefix Char.eq_ci lit s = Some r0.
Proof.
  induction lit as [|a lit IH]; intros Hl s r; simpl.
  - intros _. now exists s.
  - simpl in Hl. apply andb_true_iff in Hl as [Ha Hl].
    apply negb_true_iff in Ha.
    destruct (collapseSpaces s) as [|d w] eqn:Ec; [discriminate|].
    destruct (Char.eq_ci a d) eqn:Ed; [|discriminate].
    intros Hr. pose proof (eq_ci_ws _ _ Ed) as Hws. rewrite Ha in Hws.
    destruct (collapse_head _ _ _ Ec Hws) as (s' & -> & ->).
    rewrite Ed. now apply (IH Hl s' r).
Qed.

Lemma stable_trip : stable re_trip.
Proof.
  split.
  - reflexivity.
  - intros s t Ht. unfold re_trip.
    destruct (strip_prefix Char.eq_ci "*TRIP" s) as [r|] eqn:E; [|discriminate].
    rewrite (strip_prefix_app _ _ _ t _ E), noLT_app, Ht. now intros ->.
  - intros u Hu. unfold re_trip.
    destruct (strip_prefix Char.eq_ci "*TRIP" (collapseSpaces u)) as [r|] eqn:E;
      [|discriminate].
    intros _. destruct (strip_prefix_collapse "*TRIP" eq_refl _ _ E) as [r0 E0].
    rewrite E0. clear E.
    assert (Hsuf : exists a, u = a ++ r0).
    { clear Hu. revert E0. generalize "*TRIP". intros lit. revert u.
      induction lit as [|a lit IH]; intros u; simpl.
      - intros [= ->]. now exists "".
      - destruct u as [|c u]; [discriminate|].
        destruct (Char.eq_ci a c); [|discriminate].
        intros H. destruct (IH _ H) as [x ->]. now exists (String c x). }
    destruct Hsuf as [a ->]. eapply noLT_suffix; eauto.
  - intros b u. unfold re_trip.
    pose proof (strip_prefix_upper "*TRIP" b u) as H.
    destruct (strip_prefix Char.eq_ci "*TRIP" (upperInitials b u)) as [r|].
    + destruct H as (b' & r0 & -> & ->). apply upper_noLT.
    + now rewrite H.
Qed.

End PatternFacts.

Module WsPlusFacts.
Import Str StrFacts CharFacts MerchantFacts PatternFacts.

Lemma stable_wsPlus h : stable_after h -> stable (wsPlus h).
Proof.
  intros Hh. split.
  - reflexivity.
  - intros [|c s] t Ht; [discriminate|]. simpl.
    intros H. apply andb_true_iff in H as [Hc Hr]. rewrite Hc. simpl.
    unfold skipWs in *. rewrite skip_app.
    + now apply (sa_extend h Hh).
    + destruct (skip Char.is_ws s); [|reflexivity].
      rewrite (sa_empty h Hh) in Hr. discriminate.
  - intros [|c s] Hu; [discriminate|].
    destruct (Char.is_ws c) eqn:E.
    + rewrite collapse_ws by exact E. simpl. rewrite E. simpl.
      rewrite skipWs_lead_ok by (apply collapse_lead_ok, lead_ok_skipWs).
      apply (sa_collapse h Hh); [|apply lead_ok_skipWs].
      apply noLT_skip. eapply noLT_tail; eauto.
    + rewrite collapse_other by exact E. simpl. now rewrite E.
  - intros b [|c s]; [reflexivity|]. rewrite upper_cons. simpl.
    rewrite initial_ws. destruct (skipWs_upper (Char.is_word c) s) as [b' ->].
    now rewrite (sa_upper h Hh).
Qed.

Lemma eqb_not_ws c p :
  Ascii.eqb c p = true -> Char.is_ws p = false -> Char.is_ws c = false.
Proof. intros H. apply Ascii.eqb_eq in H. now subst. Qed.

Lemma stable_after_asterisk : stable_after after_asterisk.
Proof.
  split.
  - reflexivity.
  - intros [|c r] t Ht; [discriminate|]. simpl.
    intros H. apply andb_true_iff in H as [-> Hr]. simpl.
    now apply noLT_skip_app.
  - intros v Hv Hl H. unfold after_asterisk in H.
    destruct (collapseSpaces v) as [|d w] eqn:E; [discriminate|].
    apply andb_true_iff in H as [Hd _].
    destruct (collapse_head _ _ _ E (eqb_not_ws _ _ Hd eq_refl)) as (v' & -> & _).
    simpl. rewrite Hd. simpl. apply noLT_skip. eapply noLT_tail; eauto.
  - intros b [|c r]; [reflexivity|]. rewrite upper_cons. simpl.
    rewrite (initial_eqb b c "*" eq_refl).
    destruct (skipWs_upper (Char.is_word c) r) as [b' ->].
    now rewrite upper_noLT.
Qed.

Lemma stable_after_hash : stable_after after_hash.
Proof.
  split.
  - reflexivity.
  - intros [|c [|d r]] t Ht; try discriminate. simpl.
    intros H. rewrite !andb_true_iff in H. destruct H as [[-> ->] Hr].
    simpl. change (all (fun c0 => negb (Char.is_LT c0)) (r ++ t))
      with (noLT (r ++ t)). rewrite noLT_app. fold (noLT r) in Hr.
    now rewrite Hr, Ht.
  - intros v Hv Hl H. unfold after_hash in H.
    destruct (collapseSpaces v) as [|c [|d w]] eqn:E; try discriminate.
    rewrite !andb_true_iff in H. destruct H as [[Hc Hd] _].
    destruct (collapse_head _ _ _ E (eqb_not_ws _ _ Hc eq_refl)) as (v' & -> & E').
    symmetry in E'.
    destruct (collapse_head _ _ _ E' (digit_not_ws _ Hd)) as (v'' & -> & _).
    simpl. rewrite Hc, Hd. simpl.
    apply noLT_tail in Hv. now apply noLT_tail in Hv.
  - intros b [|c [|d r]]; try reflexivity.
    rewrite !upper_cons. simpl.
    rewrite (initial_eqb b c "#" eq_refl), initial_digit.
    fold (noLT (upperInitials (Char.is_word d) r)). fold (noLT r).
    now rewrite upper_noLT.
Qed.

Lemma stable_after_code : stable_after after_code.
Proof.
  split.
  - reflexivity.
  - intros [|d1 [|d2 [|d3 [|d4 r]]]] t Ht; try discriminate. simpl.
    intros H. rewrite !andb_true_iff in H.
    destruct H as [[[[-> ->] ->] ->] Hr]. simpl.
    change (all (fun c0 => negb (Char.is_LT c0)) (r ++ t))
      with (noLT (r ++ t)). rewrite noLT_app. fold (noLT r) in Hr.
    now rewrite Hr, Ht.
  - intros v Hv Hl H. unfold after_code in H.
    destruct (collapseSpaces v) as [|d1 [|d2 [|d3 [|d4 w]]]] eqn:E;
      try discriminate.
    rewrite !andb_true_iff in H. destruct H as [[[[H1 H2] H3] H4] _].
    destruct (collapse_head _ _ _ E (digit_not_ws _ H1)) as (v1 & -> & E1).
    symmetry in E1.
    destruct (collapse_head _ _ _ E1 (digit_not_ws _ H2)) as (v2 & -> & E2).
    symmetry in E2.
    destruct (collapse_head _ _ _ E2 (digit_not_ws _ H3)) as (v3 & -> & E3).
    symmetry in E3.
    destruct (collapse_head _ _ _ E3 (digit_not_ws _ H4)) as (v4 & -> & _).
    simpl. rewrite H1, H2, H3, H4. simpl.
    do 4 apply noLT_tail in Hv. exact Hv.
  - intros b [|d1 [|d2 [|d3 [|d4 r]]]]; try reflexivity;
      rewrite ?upper_cons; try reflexivity.
    simpl. rewrite !initial_digit.
    fold (noLT (upperInitials (Char.is_word d4) r)). fold (noLT r).
    now rewrite upper_noLT.
Qed.

Lemma stable_after_dash : stable_after after_dash.
Proof.
  split.
  - reflexivity.
  - intros [|c [|c' r]] t Ht; try discriminate. simpl.
    intros H. rewrite !andb_true_iff in H. destruct H as [[-> ->] Hr].
    simpl. now apply noLT_skip_app.
  - intros v Hv Hl H. unfold after_dash in H.
    destruct (collapseSpaces v) as [|c [|c' w]] eqn:E; try discriminate.
    rewrite !andb_true_iff in H. destruct H as [[Hc Hc'] _].
    destruct (collapse_head _ _ _ E (eqb_not_ws _ _ Hc eq_refl)) as (v' & -> & E').
    symmetry in E'.
    destruct (collapse_head_ws _ _ _ E' Hc') as (x & v'' & -> & Hx & _).
    simpl. rewrite Hc, Hx. simpl.
    apply noLT_skip. apply noLT_tail in Hv. now apply noLT_tail in Hv.
  - intros b [|c [|c' r]]; try reflexivity.
    rewrite !upper_cons. simpl.
    rewrite (initial_eqb b c "-" eq_refl), initial_ws.
    destruct (skipWs_upper (Char.is_word c') r) as [b' ->].
    now rewrite upper_noLT.
Qed.

End WsPlusFacts.

Module Idem.
Import Str StrFacts CharFacts MerchantFacts PatternFacts WsPlusFacts.

Lemma normalizeMerchant_eq s :
  normalizeMerchant s =
  if is_empty s then "Unknown Merchant"
  else if is_empty (tidy (cuts s)) then "Unknown Merchant" else tidy (cuts s).
Proof. reflexivity. Qed.

Lemma cuts_fixed s : all_nowhere s -> cuts s = s.
Proof.
  intros (H1 & H2 & H3 & H4 & H5). unfold cuts.
  now rewrite (cutAt_nowhere _ _ H1), (cutAt_nowhere _ _ H2),
    (cutAt_nowhere _ _ H3), (cutAt_nowhere _ _ H4), (cutAt_nowhere _ _ H5).
Qed.

Lemma noLT_cutAt p s : noLT s = true -> noLT (cutAt p s) = true.
Proof.
  intros H. destruct (cutAt_prefix p s) as [t Ht]. rewrite Ht in H.
  eapply noLT_prefix; eauto.
Qed.

Lemma cuts_nowhere s : noLT s = true -> all_nowhere (cuts s) /\ noLT (cuts s) = true.
Proof.
  intros H0. unfold cuts.
  pose proof stable_trip as S1.
  pose proof (stable_wsPlus _ stable_after_asterisk) as S2.
  pose proof (stable_wsPlus _ stable_after_hash) as S3.
  pose proof (stable_wsPlus _ stable_after_code) as S4.
  pose proof (stable_wsPlus _ stable_after_dash) as S5.
  fold re_asterisk in S2. fold re_store_number in S3.
  fold re_four_digits in S4. fold re_location in S5.
  set (z1 := cutAt re_trip s).
  set (z2 := cutAt re_asterisk z1).
  set (z3 := cutAt re_store_number z2).
  set (z4 := cutAt re_four_digits z3).
  assert (L1 : noLT z1 = true) by now apply noLT_cutAt.
  assert (L2 : noLT z2 = true) by now apply noLT_cutAt.
  assert (L3 : noLT z3 = true) by now apply noLT_cutAt.
  assert (L4 : noLT z4 = true) by now apply noLT_cutAt.
  assert (N1 : nowhere re_trip z1) by now apply nowhere_cutAt.
  assert (N2 : nowhere re_asterisk z2) by now apply nowhere_cutAt.
  assert (N3 : nowhere re_store_number z3) by now apply nowhere_cutAt.
  assert (N4 : nowhere re_four_digits z4) by now apply nowhere_cutAt.
  split; [|now apply noLT_cutAt].
  repeat split.
  - do 4 (apply nowhere_cut_other; [assumption|assumption|]). exact N1.
  - do 3 (apply nowhere_cut_other; [assumption|assumption|]). exact N2.
  - do 2 (apply nowhere_cut_other; [assumption|assumption|]). exact N3.
  - do 1 (apply nowhere_cut_other; [assumption|assumption|]). exact N4.
  - now apply nowhere_cutAt.
Qed.

Lemma noLT_trim s : noLT s = true -> noLT (trim s) = true.
Proof.
  intros H. unfold trim, trimStart.
  apply (noLT_skip Char.is_ws) in H. fold skipWs in H.
  destruct (trimEnd_prefix (skipWs s)) as [t Ht]. rewrite Ht in H.
  eapply noLT_prefix; eauto.
Qed.

Lemma tidy_nowhere p s :
  stable p -> noLT s = true -> nowhere p s -> nowhere p (tidy s).
Proof.
  intros Hp Hs H. unfold tidy. apply nowhere_upper; [exact Hp|].
  apply nowhere_collapse; [exact Hp|now apply noLT_trim|].
  now apply nowhere_trim.
Qed.

Lemma tidy_all_nowhere s :
  noLT s = true -> all_nowhere s -> all_nowhere (tidy s).
Proof.
  intros Hs (H1 & H2 & H3 & H4 & H5).
  repeat split; apply tidy_nowhere; auto using stable_trip;
    apply stable_wsPlus;
    auto using stable_after_asterisk, stable_after_hash, stable_after_code,
      stable_after_dash.
Qed.

Lemma tidy_tidy s : tidy (tidy s) = tidy s.
Proof.
  unfold tidy. rewrite trim_upper, trim_collapse_trim.
  rewrite collapse_upper, collapse_collapse. apply upper_upper_initials.
Qed.

End Idem.

(** ** C7: the merchant normalizer and idempotence *)

(** C7, as stated, fails on a name with a line break: the first pass
    turns the break into a space, and only then does the trip-code pattern
    match. *)
Lemma normalizeMerchant_not_idempotent :
  normalizeMerchant ("A *TRIP" ++ LF ++ "B") = "A *TRIP B"
  /\ normalizeMerchant (normalizeMerchant ("A *TRIP" ++ LF ++ "B")) = "A"
  /\ String.eqb (normalizeMerchant (normalizeMerchant ("A *TRIP" ++ LF ++ "B")))
                (normalizeMerchant ("A *TRIP" ++ LF ++ "B")) = false.
Proof. repeat split; vm_compute; reflexivity. Qed.

(** C7, amended: the merchant normalizer is idempotent on every name
    without a line terminator. *)
Theorem normalizeMerchant_idempotent (x : string) :
  Str.noLT x = true ->
  normalizeMerchant (normalizeMerchant x) = normalizeMerchant x.
Proof.
  intros Hx. rewrite (Idem.normalizeMerchant_eq x).
  destruct (Str.is_empty x); [reflexivity|].
  destruct (Str.is_empty (tidy (cuts x))) eqn:E; [reflexivity|].
  destruct (Idem.cuts_nowhere x Hx) as [Hn Hl].
  pose proof (Idem.tidy_all_nowhere _ Hl Hn) as Hy.
  rewrite Idem.normalizeMerchant_eq, E.
  rewrite (Idem.cuts_fixed _ Hy), Idem.tidy_tidy, E. reflexivity.
Qed.

Lemma normalizeMerchant_idempotent_witness :
  Str.noLT "UBER *TRIP 3H2K" = true /\
  normalizeMerchant (normalizeMerchant "UBER *TRIP 3H2K")
  = normalizeMerchant "UBER *TRIP 3H2K".
Proof.
  split; [reflexivity|].
  apply (normalizeMerchant_idempotent "UBER *TRIP 3H2K"). reflexivity.
Defined.

(** ** Reasoning in the monad *)

Module MonadFacts.

Lemma bind_ok {A B} (m : M A) (k : A -> M B) st b st' :
  bind m k st = (Ok b, st') ->
  exists a st1, m st = (Ok a, st1) /\ k a st1 = (Ok b, st').
Proof.
  unfold bind. destruct (m st) as [[a|e] st1]; [|discriminate].
  intros H. now exists a, st1.
Qed.

Lemma bind_throw {A B} (m : M A) (k : A -> M B) st e st' :
  bind m k st = (Throw e, st') ->
  m st = (Throw e, st') \/
  exists a st1, m st = (Ok a, st1) /\ k a st1 = (Throw e, st').
Proof.
  unfold bind. destruct (m st) as [[a|e1] st1].
  - intros H. right. now exists a, st1.
  - intros [= -> ->]. now left.
Qed.

Lemma try_catch_ok {A} (m : M A) (h : string -> M A) st a st' :
  try_catch m h st = (Ok a, st') ->
  m st = (Ok a, st') \/
  exists e st1, m st = (Throw e, st1) /\ h e st1 = (Ok a, st').
Proof.
  unfold try_catch. destruct (m st) as [[a1|e] st1].
  - intros [= -> ->]. now left.
  - intros H. right. now exists e, st1.
Qed.

Lemma ret_ok {A} (a b : A) st st' : ret a st = (Ok b, st') -> a = b /\ st = st'.
Proof. unfold ret. now intros [= -> ->]. Qed.

Lemma of_option_ok {A} e (o : option A) st a st' :
  of_option e o st = (Ok a, st') -> o = Some a /\ st = st'.
Proof. destruct o; simpl; [now intros [= -> ->]|discriminate]. Qed.

Lemma new_Date_eq w st :
  new_Date w st = (Ok (clock w (ticks st)),
                   {| ticks := S (ticks st); draws := draws st |}).
Proof. reflexivity. Qed.

Lemma Math_random_eq w st :
  Math_random w st = (Ok (random w (draws st)),
                      {| ticks := ticks st; draws := S (draws st) |}).
Proof. reflexivity. Qed.

Lemma total_ret {A} (a : A) : total (ret a).
Proof. intros st. now exists a, st. Qed.

Lemma total_bind {A B} (m : M A) (k : A -> M B) :
  total m -> (forall a, total (k a)) -> total (bind m k).
Proof.
  intros Hm Hk st. destruct (Hm st) as (a & st1 & E).
  destruct (Hk a st1) as (b & st2 & E'). exists b, st2.
  unfold bind. now rewrite E.
Qed.

Lemma total_try_catch {A} (m : M A) (h : string -> M A) :
  (forall e, total (h e)) -> total (try_catch m h).
Proof.
  intros Hh st. unfold try_catch. destruct (m st) as [[a|e] st1].
  - now exists a, st1.
  - apply Hh.
Qed.

Lemma total_new_Date w : total (new_Date w).
Proof. intros st. eexists _, _. reflexivity. Qed.

Lemma total_Math_random w : total (Math_random w).
Proof. intros st. eexists _, _. reflexivity. Qed.

End MonadFacts.

(** ** The date fallback always gives a date *)

Module FallbackFacts.
Import MonadFacts JSDate DateFacts.

Lemma days_ago_bounds r :
  (0 <= r)%Q -> (r < 1)%Q -> 0 <= Num.floor (r * 14) <= 13.
Proof.
  intros H0 H1. unfold Num.floor.
  pose proof (Qfloor_le (r * 14)) as Hlo.
  pose proof (Qlt_floor (r * 14)) as Hhi.
  split.
  - assert (H : (inject_Z 0 < inject_Z (Qfloor (r * 14) + 1))%Q).
    { eapply Qle_lt_trans; [|exact Hhi]. change (inject_Z 0) with 0%Q. nra. }
    rewrite <- Zlt_Qlt in H. lia.
  - assert (H : (inject_Z (Qfloor (r * 14)) < inject_Z 14)%Q).
    { eapply Qle_lt_trans; [exact Hlo|]. change (inject_Z 14) with 14%Q. nra. }
    rewrite <- Zlt_Qlt in H. lia.
Qed.

Lemma TimeClip_some t : - maxTime <= t <= maxTime -> TimeClip t = Some t.
Proof.
  intros H. unfold TimeClip.
  replace (Z.abs t <=? maxTime) with true; [reflexivity|].
  symmetry. apply Z.leb_le. lia.
Qed.

Lemma random_recent_eq w today st :
  0 <= today <= maxTime ->
  (0 <= random w (draws st))%Q -> (random w (draws st) < 1)%Q ->
  let k := Num.floor (random w (draws st) * 14) in
  random_recent w today st =
  (Ok {| DateResult.date := iso_day_of (today - k * msPerDay);
         DateResult.confidence := "low" |},
   {| ticks := ticks st; draws := S (draws st) |}).
Proof.
  intros Ht H0 H1 k. unfold random_recent, bind. rewrite Math_random_eq.
  fold k. rewrite setDate_shift.
  pose proof (days_ago_bounds _ H0 H1) as Hk. fold k in Hk.
  rewrite TimeClip_some; [reflexivity|].
  unfold msPerDay, maxTime in *. lia.
Qed.

Lemma generateReasonableDate_total w filename :
  clock_ok w -> random_ok w -> total (generateReasonableDate w filename).
Proof.
  intros Hc Hr st. unfold generateReasonableDate, bind.
  rewrite new_Date_eq.
  destruct (filename_Ymd _ _); [eexists _, _; reflexivity|].
  destruct (filename_mdY _ _); [eexists _, _; reflexivity|].
  destruct (Hr (draws st)) as [H0 H1].
  eexists _, _. apply (random_recent_eq w (clock w (ticks st))); auto.
Qed.

Lemma enhancedPatternExtraction_total w filename :
  clock_ok w -> random_ok w -> total (enhancedPatternExtraction w filename).
Proof.
  intros Hc Hr. unfold enhancedPatternExtraction.
  destruct (amount_range (matchedMerchant filename)) as [lo hi].
  apply total_bind; [apply total_Math_random|intros r1].
  apply total_bind; [apply total_Math_random|intros r2].
  apply total_bind; [now apply generateReasonableDate_total|intros d].
  apply total_ret.
Qed.

End FallbackFacts.

(** ** Facts on the sample worlds *)

Lemma sample_clock_ok rnd reply rows : clock_ok (sample_world rnd reply rows).
Proof. intros n. simpl. unfold sample_clock, JSDate.maxTime. lia. Qed.

Lemma half_ok reply rows : random_ok (sample_world half reply rows).
Proof. intros n. simpl. unfold half. split; [discriminate|reflexivity]. Qed.

Lemma high_draws_ok reply rows : random_ok (sample_world high_draws reply rows).
Proof.
  intros [|n]; simpl; split; try discriminate; reflexivity.
Qed.

(** ** C2: the extraction never raises *)

(** C2: for every file URL and filename, [aiOCRExtraction] returns a
    record and never raises, with a clock of the current era and a random
    source in [[0, 1)]: whatever the fetch, the model call or the parse of
    the reply throws is caught, and the record is then the one of the
    pattern fallback. *)
Theorem aiOCRExtraction_never_raises (w : World) (fileUrl filename : string)
    (st : St) :
  clock_ok w -> random_ok w ->
  exists r st',
    aiOCRExtraction w fileUrl filename st = (Ok r, st') /\
    forall e st1,
      vision_extract w fileUrl filename st = (Throw e, st1) ->
      enhancedPatternExtraction w filename st1 = (Ok r, st').
Proof.
  intros Hc Hr. unfold aiOCRExtraction, try_catch.
  destruct (vision_extract w fileUrl filename st) as [[r|e] st1] eqn:E.
  - exists r, st1. split; [reflexivity|]. intros e st2 H. discriminate.
  - destruct (FallbackFacts.enhancedPatternExtraction_total w filename Hc Hr st1)
      as (r & st' & E').
    exists r, st'. split; [exact E'|]. intros e0 st2 [= <- <-]. exact E'.
Qed.

Lemma aiOCRExtraction_never_raises_witness :
  clock_ok (sample_world half None []) /\
  random_ok (sample_world half None []) /\
  exists r st',
    aiOCRExtraction (sample_world half None []) url "scan.jpg" st0
    = (Ok r, st') /\
    forall e st1,
      vision_extract (sample_world half None []) url "scan.jpg" st0
      = (Throw e, st1) ->
      enhancedPatternExtraction (sample_world half None []) "scan.jpg" st1
      = (Ok r, st').
Proof.
  split; [apply sample_clock_ok|]. split; [apply half_ok|].
  apply (aiOCRExtraction_never_raises (sample_world half None []) url
           "scan.jpg" st0); [apply sample_clock_ok|apply half_ok].
Defined.

Module WindowFacts.
Import MonadFacts FallbackFacts JSDate DateFacts.





End WindowFacts.

Module VisionFacts.
Import MonadFacts.

Lemma validate_ok w reply filename st r st' text :
  JSON.parse (json_parse_other w) (jsonMatch text) = Some reply ->
  validate w reply filename st = (Ok r, st') ->
  reply_run w filename text r.
Proof.
  intros Hp H. unfold validate in H.
  apply bind_ok in H as (vm & s1 & H1 & H). apply of_option_ok in H1 as [H1 <-].
  apply bind_ok in H as (m & s1 & M1 & H). apply of_option_ok in M1 as [M1 <-].
  apply bind_ok in H as (va & s2 & H2 & H). apply of_option_ok in H2 as [H2 <-].
  apply bind_ok in H as (a & s2 & M2 & H). apply of_option_ok in M2 as [M2 <-].
  apply bind_ok in H as (vc & s3 & H3 & H). apply of_option_ok in H3 as [H3 <-].
  apply bind_ok in H as (vd & s4 & H4 & H). apply of_option_ok in H4 as [H4 <-].
  apply bind_ok in H as (fixed & s5 & H5 & H).
  apply bind_ok in H as (vf & s6 & H6 & H). apply of_option_ok in H6 as [H6 <-].
  apply bind_ok in H as (vn & s7 & H7 & H). apply of_option_ok in H7 as [H7 <-].
  apply ret_ok in H as [<- <-].
  exact (reply_run_intro w filename text _ reply vm va vc vd vf vn m a fixed
           st s5 Hp H1 M1 H2 M2 H3 H4 H6 H7 H5 eq_refl).
Qed.

Lemma parse_reply_ok w text filename st r st' :
  parse_reply w text filename st = (Ok r, st') -> reply_run w filename text r.
Proof.
  unfold parse_reply. intros H.
  apply try_catch_ok in H as [H | (e & s1 & _ & H)]; [|discriminate].
  apply bind_ok in H as (reply & s1 & Hp & H).
  apply of_option_ok in Hp as [Hp <-].
  eapply validate_ok; eauto.
Qed.

Lemma withKeyProtection_ok {A} k o (fn : M A) st a st' :
  withKeyProtection k o fn st = (Ok a, st') -> fn st = (Ok a, st').
Proof.
  unfold withKeyProtection. intros H.
  apply try_catch_ok in H as [H | (e & s1 & _ & H)]; [|discriminate].
  apply bind_ok in H as (x & s1 & Hx & H). apply ret_ok in H as [<- <-].
  exact Hx.
Qed.

Lemma vision_extract_ok w fileUrl filename st r st' :
  vision_extract w fileUrl filename st = (Ok r, st') -> vision_run w filename r.
Proof.
  unfold vision_extract. intros H.
  apply bind_ok in H as (img & s1 & _ & H).
  apply bind_ok in H as (now & s2 & _ & H).
  apply bind_ok in H as (today & s3 & _ & H).
  apply bind_ok in H as (data & s4 & Hd & H).
  apply withKeyProtection_ok in Hd.
  apply bind_ok in Hd as (key & s5 & _ & Hd).
  apply of_option_ok in Hd as [Hd _].
  eexists _, data. unfold first_content.
  destruct (choices data) as [[|c l]|]; try discriminate.
  destruct (message c) as [m|]; [|discriminate].
  destruct (content m) as [text|]; [|discriminate].
  destruct (Str.is_empty text); [discriminate|].
  exists text. split; [exact Hd|]. split; [reflexivity|].
  eapply parse_reply_ok; eauto.
Qed.

(** A record of [aiOCRExtraction] comes from the vision path or from the
    pattern fallback. *)
Lemma aiOCRExtraction_ok w fileUrl filename st r st' :
  aiOCRExtraction w fileUrl filename st = (Ok r, st') ->
  vision_run w filename r \/
  exists st1, enhancedPatternExtraction w filename st1 = (Ok r, st').
Proof.
  unfold aiOCRExtraction. intros H.
  apply try_catch_ok in H as [H | (e & s1 & _ & H)].
  - left. eapply vision_extract_ok; eauto.
  - right. now exists s1.
Qed.

Lemma enhancedPatternExtraction_ok w filename st r st' :
  enhancedPatternExtraction w filename st = (Ok r, st') ->
  exists d st1,
    generateReasonableDate w filename
      {| ticks := ticks st; draws := S (S (draws st)) |} = (Ok d, st1) /\
    let matched := matchedMerchant filename in
    r = {| merchant_name :=
             match matched with
             | Some p => str_or (name p) "Unknown Merchant"
             | None => "Unknown Merchant"
             end;
           amount :=
             Num.of_Q (synthesize_amount (fst (amount_range matched))
                         (snd (amount_range matched))
                         (random w (draws st)) (random w (S (draws st))));
           category :=
             match matched with
             | Some p => str_or (pattern_category p) "Other"
             | None => "Other"
             end;
           receipt_date := DateResult.date d;
           confidence := DateResult.confidence d;
           date_source := "estimated";
           extraction_notes := None |}.
Proof.
  unfold enhancedPatternExtraction.
  destruct (amount_range (matchedMerchant filename)) as [lo hi]. intros H.
  apply bind_ok in H as (r1 & s1 & H1 & H). rewrite Math_random_eq in H1.
  injection H1 as <- <-.
  apply bind_ok in H as (r2 & s2 & H2 & H). rewrite Math_random_eq in H2.
  injection H2 as <- <-.
  apply bind_ok in H as (d & s3 & H3 & H). apply ret_ok in H as [<- <-].
  exists d, s3. split; [exact H3|reflexivity].
Qed.

End VisionFacts.

(** ** C3: the score and the review flag *)

Module ScoreFacts.

Lemma score_high : confidenceScore "high" = Fin 0.9.
Proof. reflexivity. Qed.

Lemma score_cases c :
  (c = "high" /\ confidenceScore c = Fin 0.9)
  \/ (c <> "high" /\ c = "medium" /\ confidenceScore c = Fin 0.7)
  \/ (c <> "high" /\ c <> "medium" /\ confidenceScore c = Fin 0.5).
Proof.
  unfold confidenceScore.
  destruct (String.eqb_spec c "high") as [->|H1]; [now left|].
  destruct (String.eqb_spec c "medium") as [->|H2]; right; [left|right]; auto.
Qed.

End ScoreFacts.

(** C3: for every record the orchestrator returns, the numeric score is
    0.9 for the categorical confidence high, 0.7 for medium and 0.5
    otherwise, hence one of the three; the review flag is the comparison of
    the score with 0.72, and it is set exactly when the categorical
    confidence is not high. *)
Theorem confidence_score_and_review (w : World) (user : Z)
    (fileUrl filename : string) (st st' : St) (p : Processed.t) :
  POST w user fileUrl filename st = (Ok p, st') ->
  exists e st1,
    aiOCRExtraction w fileUrl filename st = (Ok e, st1) /\
    Processed.confidence p = confidenceScore (confidence e) /\
    (confidence e = "high" -> Processed.confidence p = Fin 0.9) /\
    (confidence e = "medium" -> Processed.confidence p = Fin 0.7) /\
    (confidence e <> "high" -> confidence e <> "medium" ->
     Processed.confidence p = Fin 0.5) /\
    (Processed.confidence p = Fin 0.9 \/ Processed.confidence p = Fin 0.7
     \/ Processed.confidence p = Fin 0.5) /\
    Processed.needs_review p = Num.ltb (Processed.confidence p) (Fin 0.72) /\
    (Processed.needs_review p = true <-> confidence e <> "high").
Proof.
  intros H. unfold POST in H.
  apply MonadFacts.bind_ok in H as (e & st1 & He & H).
  apply MonadFacts.bind_ok in H as (dup & st2 & _ & H).
  apply MonadFacts.ret_ok in H as [<- _]. simpl.
  exists e, st1. split; [exact He|]. split; [reflexivity|].
  destruct (ScoreFacts.score_cases (confidence e))
    as [[Hc ->] | [(Hn & Hc & ->) | (Hn & Hm & ->)]].
  all: repeat split; auto; try (intros; congruence); try discriminate.
Qed.

Lemma confidence_score_and_review_witness :
  POST (sample_world half (Some uber_reply) []) 7 url "scan.jpg" st0
  = (Ok uber_processed, {| ticks := 4; draws := 1 |}) /\
  (Processed.confidence uber_processed = Fin 0.9
   \/ Processed.confidence uber_processed = Fin 0.7
   \/ Processed.confidence uber_processed = Fin 0.5) /\
  Processed.needs_review uber_processed
  = Num.ltb (Processed.confidence uber_processed) (Fin 0.72).
Proof.
  split; [vm_compute; reflexivity|].
  destruct (confidence_score_and_review
              (sample_world half (Some uber_reply) []) 7 url "scan.jpg" st0
              {| ticks := 4; draws := 1 |} uber_processed)
    as (e & st1 & _ & _ & _ & _ & _ & H1 & H2 & _); [vm_compute; reflexivity|].
  split; [exact H1|exact H2].
Defined.

(** ** C4: the closed set of categories *)

Module CategoryFacts.

Lemma in_strings_in l v c : Val.in_strings l v = Some c -> In c l.
Proof.
  destruct v as [[| | |s| |]|]; simpl; try discriminate.
  destruct (existsb (String.eqb s) l) eqn:E; [|discriminate].
  intros [= <-]. apply existsb_exists in E as (x & Hx & Heq).
  apply String.eqb_eq in Heq. now subst.
Qed.

Lemma coerce_category_in v : In (coerce_category v) categories.
Proof.
  unfold coerce_category. destruct (Val.in_strings categories v) eqn:E.
  - eapply in_strings_in; eauto.
  - simpl. tauto.
Qed.


Lemma known_category_in c : known_category c = true -> In c categories.
Proof.
  unfold known_category. intros H. apply existsb_exists in H as (x & Hx & Heq).
  apply String.eqb_eq in Heq. now subst.
Qed.

Lemma table_categories :
  forallb (fun e => known_category (str_or (pattern_category (snd e)) "Other"))
          merchantPatterns = true.
Proof. vm_compute. reflexivity. Qed.

Lemma fallback_category_in filename :
  In (match matchedMerchant filename with
      | Some p => str_or (pattern_category p) "Other"
      | None => "Other"
      end) categories.
Proof.
  unfold matchedMerchant.
  destruct (find _ merchantPatterns) as [e|] eqn:E; [|simpl; tauto].
  apply find_some in E as [Hin _].
  pose proof table_categories as H. rewrite forallb_forall in H.
  apply known_category_in. exact (H e Hin).
Qed.

Lemma extracted_category_in w fileUrl filename st r st' :
  aiOCRExtraction w fileUrl filename st = (Ok r, st') ->
  In (category r) categories.
Proof.
  intros H. apply VisionFacts.aiOCRExtraction_ok in H as [H | [st1 H]].
  - destruct H as (q & data & text & _ & _ & []). subst r.
    apply coerce_category_in.
  - apply VisionFacts.enhancedPatternExtraction_ok in H as (d & st2 & _ & ->).
    apply fallback_category_in.
Qed.

End CategoryFacts.

(** C4: the category of every record the extraction returns, and of every
    record the orchestrator returns from it, is one of Meals, Travel,
    Supplies, Other, whatever the model replied; a reply whose category is
    the string Gadgets gives Other. *)
Theorem category_in_closed_set (w : World) (user : Z)
    (fileUrl filename : string) (st st' : St) (p : Processed.t) :
  POST w user fileUrl filename st = (Ok p, st') ->
  In (Processed.category p) categories /\
  (exists e st1,
     aiOCRExtraction w fileUrl filename st = (Ok e, st1)
     /\ Processed.category p = category e) /\
  (forall e st1,
     aiOCRExtraction w fileUrl filename st = (Ok e, st1) ->
     In (category e) categories) /\
  (forall text reply e,
     JSON.parse (json_parse_other w) (jsonMatch text) = Some reply ->
     JSON.get reply "category" = Some (Some (JStr "Gadgets")) ->
     reply_run w filename text e -> category e = "Other").
Proof.
  intros H. unfold POST in H.
  apply MonadFacts.bind_ok in H as (e & st1 & He & H).
  apply MonadFacts.bind_ok in H as (dup & st2 & _ & H).
  apply MonadFacts.ret_ok in H as [<- _]. simpl.
  split; [eapply CategoryFacts.extracted_category_in; eauto|].
  split; [now exists e, st1|].
  split; [intros e' st1'; apply CategoryFacts.extracted_category_in|].
  intros text reply e' Hp Hg []. subst e'. simpl.
  assert (reply0 = reply) by congruence. subst reply0.
  assert (v_category = Some (JStr "Gadgets")) by congruence. now subst.
Qed.

Lemma category_in_closed_set_witness :
  POST (sample_world half (Some gadgets_reply) []) 7 url "scan.jpg" st0
  = (Ok gadgets_processed, {| ticks := 3; draws := 0 |}) /\
  In (Processed.category gadgets_processed) categories /\
  Processed.category gadgets_processed = "Other".
Proof.
  split; [vm_compute; reflexivity|]. split; [|reflexivity].
  refine (proj1 (category_in_closed_set
                   (sample_world half (Some gadgets_reply) []) 7 url
                   "scan.jpg" st0 {| ticks := 3; draws := 0 |}
                   gadgets_processed _)).
  vm_compute; reflexivity.
Defined.

(** ** C6: the amount of the extracted record *)

Module AmountFacts.

Lemma num_or_zero_not_NaN n : Num.is_NaN (num_or_zero n) = false.
Proof. destruct n as [| |q]; try reflexivity. unfold num_or_zero. simpl.
  destruct (negb (Qeq_bool q 0)); reflexivity. Qed.

Lemma num_or_zero_NaN n : Num.is_NaN n = true -> num_or_zero n = Fin 0.
Proof. destruct n; try discriminate. reflexivity. Qed.

Lemma num_or_zero_kept n :
  Num.truthy n = true -> num_or_zero n = n.
Proof. unfold num_or_zero. now intros ->. Qed.

End AmountFacts.

(** C6, as stated, fails: a reply whose amount is -5 gives a record whose
    amount is -5, a negative number. *)
Lemma negative_amount_is_kept :
  run (aiOCRExtraction (sample_world half (Some refund_reply) []) url "scan.jpg")
  = (Ok refund_record, {| ticks := 2; draws := 0 |})
  /\ amount refund_record = Fin (-5)
  /\ Num.ltb (amount refund_record) (Fin 0) = true.
Proof. repeat split; vm_compute; reflexivity. Qed.

(** C6, amended: the amount of the record built from a vision reply is
    never NaN: it is the number [parseFloat] reads in the amount of the
    reply, kept as it is when it is not zero (negative and infinite values
    too), and 0 when nothing can be read; the amount of a record of the
    pattern fallback is finite. *)
Theorem amount_is_never_NaN (w : World) (fileUrl filename : string)
    (st st' : St) (r : ExtractedData) :
  aiOCRExtraction w fileUrl filename st = (Ok r, st') ->
  Num.is_NaN (amount r) = false /\
  (date_source r = "ai_vision" ->
   exists request data text reply va,
     vision w request = Some data /\ first_content data = Some text /\
     JSON.parse (json_parse_other w) (jsonMatch text) = Some reply /\
     JSON.get reply "amount" = Some va /\
     exists parsed,
       Val.parseFloat va = Some parsed /\
       amount r = num_or_zero parsed /\
       (Num.is_NaN parsed = true -> amount r = Fin 0) /\
       (Num.truthy parsed = true -> amount r = parsed)) /\
  (date_source r = "estimated" -> Num.is_finite (amount r) = true).
Proof.
  intros H. apply VisionFacts.aiOCRExtraction_ok in H as [H | [st1 H]].
  - destruct H as (q & data & text & Hq & Ht & []). subst r.
    split; [apply AmountFacts.num_or_zero_not_NaN|]. split; [|discriminate].
    intros _. exists q, data, text, reply, v_amount. simpl.
    repeat split; auto. exists parsed. repeat split; auto.
    + apply AmountFacts.num_or_zero_NaN.
    + apply AmountFacts.num_or_zero_kept.
  - apply VisionFacts.enhancedPatternExtraction_ok in H as (d & st2 & _ & ->).
    split; [reflexivity|]. split; [discriminate|reflexivity].
Qed.

Lemma amount_is_never_NaN_witness :
  aiOCRExtraction (sample_world half (Some refund_reply) []) url "scan.jpg" st0
  = (Ok refund_record, {| ticks := 2; draws := 0 |}) /\
  Num.is_NaN (amount refund_record) = false.
Proof.
  split; [vm_compute; reflexivity|].
  refine (proj1 (amount_is_never_NaN
                   (sample_world half (Some refund_reply) []) url "scan.jpg"
                   st0 {| ticks := 2; draws := 0 |} refund_record _)).
  vm_compute; reflexivity.
Defined.

(** ** C9: the duplicate detector *)

(** C9: [checkForDuplicate] never raises; it answers true only when the
    receipt table holds a row with the same user, merchant, amount and
    date that was created less than ninety days before the clock reading;
    when the table cannot be reached it answers false. *)
Theorem checkForDuplicate_sound (w : World) (user : Z) (merchant : string)
    (amount : number) (date : string) (st : St) :
  exists b st',
    checkForDuplicate w user merchant amount date st = (Ok b, st') /\
    (b = true ->
     exists rows r d,
       receipts w = Some rows /\ In r rows /\
       userId r = user /\ merchantName r = merchant /\
       Num.eqb (receiptAmount r) amount = true /\
       Date_parse w date = Some d /\ receiptDate r = d /\
       clock w (ticks st) - 90 * JSDate.msPerDay < createdAt r) /\
    (receipts w = None -> b = false).
Proof.
  unfold checkForDuplicate, try_catch, bind. rewrite MonadFacts.new_Date_eq.
  rewrite DateFacts.setDate_shift. unfold findFirst, bind, of_option, ret, throw.
  destruct (receipts w) as [rows|].
  2:{ eexists _, _. split; [reflexivity|]. split; [discriminate|reflexivity]. }
  destruct (Date_parse w date) as [d|].
  2:{ eexists _, _. split; [reflexivity|]. split; discriminate. }
  destruct (JSDate.TimeClip (clock w (ticks st) - 90 * JSDate.msPerDay))
    as [since|] eqn:Es.
  2:{ eexists _, _. split; [reflexivity|]. split; discriminate. }
  destruct (find (same_receipt user merchant amount d since) rows) as [r|] eqn:E.
  2:{ eexists _, _. split; [reflexivity|]. split; discriminate. }
  eexists _, _. split; [reflexivity|]. split; [|discriminate]. intros _.
  apply find_some in E as [Hin Hr]. unfold same_receipt in Hr.
  rewrite !andb_true_iff in Hr. destruct Hr as [[[[H1 H2] H3] H4] H5].
  exists rows, r, d. repeat split; auto.
  - now apply Z.eqb_eq.
  - now apply String.eqb_eq.
  - now apply Z.eqb_eq.
  - unfold JSDate.TimeClip in Es. destruct (_ <=? _); [|discriminate].
    injection Es as <-. now apply Z.ltb_lt.
Qed.

Lemma checkForDuplicate_sound_witness :
  exists b st',
    checkForDuplicate (sample_world half None [uber_row]) 7 "UBER"
      (Fin (25 # 2)) "2026-10-25" st0 = (Ok b, st') /\
    (b = true ->
     exists rows r d,
       receipts (sample_world half None [uber_row]) = Some rows /\ In r rows /\
       userId r = 7 /\ merchantName r = "UBER" /\
       Num.eqb (receiptAmount r) (Fin (25 # 2)) = true /\
       Date_parse (sample_world half None [uber_row]) "2026-10-25" = Some d /\
       receiptDate r = d /\
       clock (sample_world half None [uber_row]) (ticks st0)
       - 90 * JSDate.msPerDay < createdAt r) /\
    (receipts (sample_world half None [uber_row]) = None -> b = false).
Proof.
  apply (checkForDuplicate_sound (sample_world half None [uber_row]) 7 "UBER"
           (Fin (25 # 2)) "2026-10-25" st0).
Defined.

(** The detector finds the row of the sample table, and no row in an empty
    table. *)
Example duplicate_found :
  run (checkForDuplicate (sample_world half None [uber_row]) 7 "UBER"
         (Fin (25 # 2)) "2026-10-25")
  = (Ok true, {| ticks := 1; draws := 0 |})
  /\ run (checkForDuplicate (sample_world half None []) 7 "UBER"
            (Fin (25 # 2)) "2026-10-25")
     = (Ok false, {| ticks := 1; draws := 0 |}).
Proof. split; vm_compute; reflexivity. Qed.

(** ** C8: the synthesized amount *)

Module SynthFacts.

Lemma table_ranges :
  forallb (fun e => let (lo, hi) := avgAmount (snd e) in lo <=? hi)
          merchantPatterns = true.
Proof. vm_compute. reflexivity. Qed.

Lemma range_ordered filename :
  fst (amount_range (matchedMerchant filename))
  <= snd (amount_range (matchedMerchant filename)).
Proof.
  unfold matchedMerchant.
  destruct (find _ merchantPatterns) as [e|] eqn:E; [|simpl; lia].
  apply find_some in E as [Hin _].
  pose proof table_ranges as H. rewrite forallb_forall in H.
  specialize (H e Hin). simpl. destruct (avgAmount (snd e)) as [lo hi].
  apply Z.leb_le in H. exact H.
Qed.

Lemma round_lower (y : Q) (n : Z) : (inject_Z n <= y)%Q -> n <= Num.round y.
Proof.
  intros H. unfold Num.round. rewrite <- (Qfloor_Z n).
  apply Qfloor_resp_le. lra.
Qed.

Lemma round_upper (y : Q) (n : Z) : (y < inject_Z n)%Q -> Num.round y <= n.
Proof.
  intros H. unfold Num.round.
  pose proof (Qfloor_le (y + (1 # 2))) as Hf.
  assert (Hlt : (inject_Z (Qfloor (y + (1 # 2))) < inject_Z (n + 1))%Q).
  { rewrite inject_Z_plus. change (inject_Z 1) with 1%Q. lra. }
  rewrite <- Zlt_Qlt in Hlt. lia.
Qed.

Lemma synthesize_bounds lo hi r1 r2 :
  lo <= hi -> (0 <= r1)%Q -> (r1 < 1)%Q -> (0 <= r2)%Q -> (r2 < 1)%Q ->
  (inject_Z lo <= synthesize_amount lo hi r1 r2)%Q
  /\ (synthesize_amount lo hi r1 r2 <= inject_Z hi + 1)%Q.
Proof.
  intros Hle H1 H1' H2 H2'. unfold synthesize_amount.
  set (x := ((r1 * inject_Z (hi - lo) + inject_Z lo + r2) * 100)%Q).
  assert (Ha : (0 <= inject_Z (hi - lo))%Q).
  { change 0%Q with (inject_Z 0). rewrite <- Zle_Qle. lia. }
  assert (Hd : (inject_Z (hi - lo) == inject_Z hi - inject_Z lo)%Q).
  { unfold Z.sub. rewrite inject_Z_plus, inject_Z_opp. reflexivity. }
  assert (Hlo : (inject_Z (100 * lo) <= x)%Q).
  { rewrite inject_Z_mult. change (inject_Z 100) with 100%Q. unfold x. nra. }
  assert (Hhi : (x < inject_Z (100 * (hi + 1)))%Q).
  { rewrite inject_Z_mult, inject_Z_plus. change (inject_Z 100) with 100%Q.
    change (inject_Z 1) with 1%Q. unfold x. nra. }
  apply round_lower in Hlo. apply round_upper in Hhi.
  rewrite Zle_Qle in Hlo, Hhi.
  rewrite inject_Z_mult in Hlo. rewrite inject_Z_mult, inject_Z_plus in Hhi.
  change (inject_Z 100) with 100%Q in *. change (inject_Z 1) with 1%Q in *.
  split.
  - apply Qle_shift_div_l; lra.
  - apply Qle_shift_div_r; lra.
Qed.

End SynthFacts.

(** C8, as stated, fails: with the draws 63/64 and 3/4 and the default
    range from 5 to 50 the amount is 50.05, more than a cent above 50. *)
Lemma synthesized_amount_above_range :
  run (enhancedPatternExtraction (sample_world high_draws None []) "scan.jpg")
  = (Ok fallback_record, {| ticks := 1; draws := 3 |})
  /\ amount_range (matchedMerchant "scan.jpg") = (5, 50)
  /\ amount fallback_record = Fin (1001 # 20)
  /\ Num.ltb (Fin (50 + (1 # 100))) (amount fallback_record) = true.
Proof. repeat split; vm_compute; reflexivity. Qed.

(** C8, amended: the amount of the pattern fallback is the sum of a draw
    scaled to the width of the matched range, the lower bound of the range
    and a second draw of [[0, 1)], rounded to two decimals; it lies between
    the lower bound of the range and its upper bound plus one. *)
Theorem synthesized_amount_bounds (w : World) (filename : string)
    (st st' : St) (r : ExtractedData) :
  random_ok w ->
  enhancedPatternExtraction w filename st = (Ok r, st') ->
  let lo := fst (amount_range (matchedMerchant filename)) in
  let hi := snd (amount_range (matchedMerchant filename)) in
  exists q,
    amount r = Fin q /\
    (q == synthesize_amount lo hi (random w (draws st))
            (random w (S (draws st))))%Q /\
    (q == inject_Z (Num.round
            ((random w (draws st) * inject_Z (hi - lo) + inject_Z lo
              + random w (S (draws st))) * 100)) / 100)%Q /\
    (inject_Z lo <= q)%Q /\ (q <= inject_Z hi + 1)%Q.
Proof.
  intros Hr H lo hi.
  apply VisionFacts.enhancedPatternExtraction_ok in H as (d & st1 & _ & ->).
  simpl amount. unfold Num.of_Q. fold lo hi.
  eexists. split; [reflexivity|].
  destruct (Hr (draws st)) as [H1 H1']. destruct (Hr (S (draws st))) as [H2 H2'].
  pose proof (SynthFacts.synthesize_bounds lo hi _ _
                (SynthFacts.range_ordered filename) H1 H1' H2 H2') as [Hlo Hhi].
  rewrite !Qred_correct. repeat split; auto; reflexivity.
Qed.

Lemma synthesized_amount_bounds_witness :
  random_ok (sample_world high_draws None []) /\
  enhancedPatternExtraction (sample_world high_draws None []) "scan.jpg" st0
  = (Ok fallback_record, {| ticks := 1; draws := 3 |}) /\
  exists q,
    amount fallback_record = Fin q /\ (inject_Z 5 <= q)%Q
    /\ (q <= inject_Z 50 + 1)%Q.
Proof.
  split; [apply high_draws_ok|]. split; [vm_compute; reflexivity|].
  destruct (synthesized_amount_bounds (sample_world high_draws None [])
              "scan.jpg" st0 {| ticks := 1; draws := 3 |} fallback_record
              (high_draws_ok None []))
    as (q & H1 & _ & _ & H2 & H3); [vm_compute; reflexivity|].
  exists q. split; [exact H1|]. split; [exact H2|exact H3].
Defined.

(** ** C1: the date of the record and the plausibility window *)




(** ** C5: the reply about UBER *)

Module UberFacts.

Lemma uber_parsed w :
  JSON.parse (json_parse_other w) (jsonMatch uber_reply) = Some uber_object.
Proof. vm_compute. reflexivity. Qed.

Lemma far_future_out_of_window today :
  0 <= today < 4070822400000 ->
  out_of_window today (Some 4070908800000) = true.
Proof.
  intros H. unfold out_of_window. apply orb_true_iff. left.
  apply orb_true_iff. right. unfold tomorrow, JSDate.new_Date_ms.
  rewrite FallbackFacts.TimeClip_some by (unfold JSDate.maxTime; lia).
  simpl. apply Z.ltb_lt. lia.
Qed.

Lemma uber_date_parsed w :
  new_Date_value w (Some (JStr "2099-01-01")) = Some (Some 4070908800000).
Proof. reflexivity. Qed.

Lemma uber_date_regenerated w filename st :
  0 <= clock w (ticks st) < 4070822400000 ->
  validateAndFixDate w (Some (JStr "2099-01-01")) filename st =
  try_catch (generateReasonableDate w filename)
            (fun _ => generateReasonableDate w filename)
            {| ticks := S (ticks st); draws := draws st |}.
Proof.
  intros Ht. unfold validateAndFixDate.
  unfold bind at 1. rewrite MonadFacts.new_Date_eq.
  rewrite uber_date_parsed. simpl of_option.
  unfold try_catch, bind at 1 2, ret at 1.
  change (is_invalid (Some 4070908800000)) with false.
  cbv beta iota. unfold ret at 1. cbv beta iota.
  rewrite (far_future_out_of_window _ Ht). reflexivity.
Qed.

Lemma uber_validated w filename st :
  validate w uber_object filename st =
  bind (validateAndFixDate w (Some (JStr "2099-01-01")) filename)
       (fun fixed => ret (uber_record (DateResult.date fixed))) st.
Proof.
  cbv -[validateAndFixDate].
  destruct (validateAndFixDate w (Some (JStr "2099-01-01")) filename st)
    as [[d|e] st1]; reflexivity.
Qed.

(** In every world whose clock stands before 2098-12-31, the reply is
    parsed, the date 2099-01-01 is thrown away and the date of the record
    is the one of [generateReasonableDate]. *)
Lemma uber_reply_run w filename st r st' :
  0 <= clock w (ticks st) < 4070822400000 ->
  parse_reply w uber_reply filename st = (Ok r, st') ->
  exists d st1,
    generateReasonableDate w filename st1 = (Ok d, st')
    /\ r = uber_record (DateResult.date d).
Proof.
  intros Ht H. unfold parse_reply in H.
  apply MonadFacts.try_catch_ok in H as [H | (e & s1 & _ & H)]; [|discriminate].
  rewrite uber_parsed in H. simpl of_option in H.
  change (bind (ret uber_object) (fun x => validate w x filename) st)
    with (validate w uber_object filename st) in H.
  rewrite uber_validated in H.
  apply MonadFacts.bind_ok in H as (d & s1 & Hd & H).
  apply MonadFacts.ret_ok in H as [<- <-].
  rewrite (uber_date_regenerated _ _ _ Ht) in Hd.
  apply MonadFacts.try_catch_ok in Hd as [Hd | (e & s2 & _ & Hd)];
    eexists _, _; split; eauto.
Qed.

End UberFacts.

(** C5: the reply that wraps the object about UBER in prose is located and
    parsed, its date 2099-01-01 is thrown away for the one of the fallback
    (here a day of the last fourteen), its amount becomes 12.5 -- but the
    merchant name stays UBER: [normalizeMerchant] puts initials in upper
    case and never puts a letter in lower case. *)
Theorem uber_reply_merchant_stays_upper_case :
  (forall (w : World) (filename : string) (st st' : St) (r : ExtractedData),
     0 <= clock w (ticks st) < 4070822400000 ->
     parse_reply w uber_reply filename st = (Ok r, st') ->
     exists d st1,
       generateReasonableDate w filename st1 = (Ok d, st') /\
       r = uber_record (DateResult.date d) /\
       Currency.amount (normalizeCurrency (ANum (amount r)) "USD")
       = Fin (25 # 2) /\
       normalizeMerchant (merchant_name r) = "UBER")
  /\ jsonMatch uber_reply
     = "{" ++ member "merchant_name" (JSON.quoted "UBER")
       ++ "," ++ member "amount" (JSON.quoted "12.50")
       ++ "," ++ member "category" (JSON.quoted "Travel")
       ++ "," ++ member "receipt_date" (JSON.quoted "2099-01-01")
       ++ "," ++ member "confidence" (JSON.quoted "high") ++ "}"
  /\ JSON.parse (fun _ => None) (jsonMatch uber_reply) = Some uber_object
  /\ run (validateAndFixDate (sample_world half (Some uber_reply) [])
            (Some (JStr "2099-01-01")) "scan.jpg")
     = (Ok {| DateResult.date := "2026-10-25"; DateResult.confidence := "low" |},
        {| ticks := 2; draws := 1 |})
  /\ run (aiOCRExtraction (sample_world half (Some uber_reply) []) url "scan.jpg")
     = (Ok (uber_record "2026-10-25"), {| ticks := 3; draws := 1 |})
  /\ run (POST (sample_world half (Some uber_reply) []) 7 url "scan.jpg")
     = (Ok uber_processed, {| ticks := 4; draws := 1 |})
  /\ Processed.merchant_name uber_processed = "UBER"
  /\ Processed.amount uber_processed = Fin (25 # 2)
  /\ normalizeMerchant "UBER" = "UBER"
  /\ String.eqb (normalizeMerchant "UBER") "Uber" = false.
Proof.
  split; [|repeat split; vm_compute; reflexivity].
  intros w filename st st' r Ht H.
  destruct (UberFacts.uber_reply_run w filename st r st' Ht H)
    as (d & st1 & Hd & ->).
  exists d, st1. repeat split; auto.
Qed.

(** ** C10: the confidence on the vision path *)



(** * Further properties of the program *)

(** ** The merchant normalizer: the form of its result *)

Module SpacedFacts.
Import Str StrFacts CharFacts MerchantFacts.

Lemma spaced_upper p b s : spaced p (upperInitials b s) = spaced p s.
Proof.
  revert p b. induction s as [|c s IH]; intros p b; [reflexivity|].
  rewrite upper_cons. simpl. rewrite initial_ws.
  destruct (Char.is_ws c) eqn:E.
  - rewrite (initial_not_word b c (ws_not_word c E)), IH. reflexivity.
  - apply IH.
Qed.

Lemma trimEnd_empty_skip s : is_empty (trimEnd s) = is_empty (skipWs s).
Proof.
  unfold skipWs. induction s as [|c s IH]; [reflexivity|].
  simpl. destruct (Char.is_ws c) eqn:E; simpl.
  - rewrite <- IH. destruct (is_empty (trimEnd s)); reflexivity.
  - reflexivity.
Qed.

Lemma trimEnd_fixed_skip s : trimEnd s = s -> trimEnd (skipWs s) = skipWs s.
Proof.
  unfold skipWs. induction s as [|c s IH]; [reflexivity|].
  intros H. simpl in H.
  destruct (Char.is_ws c && is_empty (trimEnd s)) eqn:E; [discriminate|].
  injection H as H. simpl. destruct (Char.is_ws c) eqn:Ec; [now apply IH|].
  rewrite trimEnd_head by exact Ec. now rewrite H.
Qed.

Lemma spaced_collapse_bounded n : forall prev s,
  (String.length s <= n)%nat -> trimEnd s = s ->
  (prev = false -> lead_ok s = true /\ is_empty s = false) ->
  spaced prev (collapseSpaces s) = true.
Proof.
  induction n as [|n IH]; intros prev [|c s] Hn Ht Hp.
  - destruct prev; [reflexivity|]. now destruct (Hp eq_refl).
  - simpl in Hn. lia.
  - destruct prev; [reflexivity|]. now destruct (Hp eq_refl).
  - simpl in Hn. simpl in Ht.
    destruct (Char.is_ws c && is_empty (trimEnd s)) eqn:E; [discriminate|].
    injection Ht as Ht.
    destruct (Char.is_ws c) eqn:Ec.
    + rewrite collapse_ws by exact Ec. simpl in E. rewrite Ht in E.
      destruct prev.
      * simpl. apply IH.
        -- pose proof (length_skip Char.is_ws s). unfold skipWs. lia.
        -- now apply trimEnd_fixed_skip.
        -- intros _. split; [apply lead_ok_skipWs|].
           rewrite <- trimEnd_empty_skip, Ht. exact E.
      * destruct (Hp eq_refl) as [Hl _]. simpl in Hl. now rewrite Ec in Hl.
    + rewrite collapse_other by exact Ec. simpl. rewrite Ec.
      apply IH; [lia|exact Ht|discriminate].
Qed.

Lemma spaced_tidy s : is_empty (tidy s) = false -> spaced false (tidy s) = true.
Proof.
  unfold tidy. rewrite upper_empty, collapse_empty, spaced_upper. intros H.
  apply (spaced_collapse_bounded (String.length (trim s))); [lia| |].
  - unfold trim. apply trimEnd_trimEnd.
  - intros _. split; [|exact H]. unfold trim, trimStart.
    rewrite <- skipWs_trimEnd. apply lead_ok_skipWs.
Qed.

End SpacedFacts.

(** X1: whatever the name, [normalizeMerchant] returns a string that is not
    empty, that neither starts nor ends with white space, and in which
    every white-space character is a single space standing alone between
    two words. *)
Theorem normalizeMerchant_spaced (merchantName : string) :
  spaced false (normalizeMerchant merchantName) = true.
Proof.
  rewrite Idem.normalizeMerchant_eq.
  destruct (Str.is_empty merchantName); [reflexivity|].
  destruct (Str.is_empty (tidy (cuts merchantName))) eqn:E; [reflexivity|].
  now apply SpacedFacts.spaced_tidy.
Qed.

Module InitialFacts.
Import Str StrFacts CharFacts.

Lemma upper_not_lower c : Char.is_lower (Char.upper c) = false.
Proof. by_cases c. Qed.

Lemma lower_word c : Char.is_lower c = true -> Char.is_word c = true.
Proof. by_cases c. Qed.

Lemma capitalized_upper b s : capitalized b (upperInitials b s) = true.
Proof.
  revert b. induction s as [|c s IH]; intros b; [reflexivity|].
  rewrite MerchantFacts.upper_cons. cbn [capitalized].
  rewrite initial_word, IH, andb_true_r.
  destruct b; [reflexivity|]. unfold initial. rewrite andb_true_r.
  destruct (Char.is_word c) eqn:E.
  - simpl. now rewrite upper_not_lower.
  - simpl. destruct (Char.is_lower c) eqn:L; [|reflexivity].
    apply lower_word in L. congruence.
Qed.

End InitialFacts.

(** X2: in the result of [normalizeMerchant] no word begins with a
    lower-case letter of a-z: a letter that follows a character outside
    [A-Za-z0-9_], or that opens the string, is never lower case.  (The
    other letters are left as they were.) *)
Theorem normalizeMerchant_capitalized (merchantName : string) :
  capitalized false (normalizeMerchant merchantName) = true.
Proof.
  rewrite Idem.normalizeMerchant_eq.
  destruct (Str.is_empty merchantName); [reflexivity|].
  destruct (Str.is_empty (tidy (cuts merchantName))); [reflexivity|].
  apply InitialFacts.capitalized_upper.
Qed.

(** X3: for a name without a line terminator, none of the five noise
    patterns of [normalizeMerchant] (the trip code, the trailing asterisk,
    the store number, the four-digit code, the location suffix) matches
    anywhere in the result. *)
Theorem normalizeMerchant_noise_free (merchantName : string) :
  Str.noLT merchantName = true -> all_nowhere (normalizeMerchant merchantName).
Proof.
  intros Hx. rewrite Idem.normalizeMerchant_eq.
  assert (U : all_nowhere "Unknown Merchant") by (cbv; tauto).
  destruct (Str.is_empty merchantName); [exact U|].
  destruct (Str.is_empty (tidy (cuts merchantName))); [exact U|].
  destruct (Idem.cuts_nowhere merchantName Hx) as [Hn Hl].
  now apply Idem.tidy_all_nowhere.
Qed.

Lemma normalizeMerchant_noise_free_witness :
  Str.noLT "Joe's Diner #12 - Austin" = true /\
  all_nowhere (normalizeMerchant "Joe's Diner #12 - Austin").
Proof.
  split; [reflexivity|].
  apply (normalizeMerchant_noise_free "Joe's Diner #12 - Austin"). reflexivity.
Defined.

(** ** The currency normalizer *)

Module NumFacts.
Import Str StrFacts CharFacts.

Lemma span_all p s : all p (fst (span p s)) = true.
Proof.
  induction s as [|c s IH]; [reflexivity|]. simpl.
  destruct (p c) eqn:E; [|reflexivity].
  destruct (span p s) as [a b]. simpl in *. now rewrite E.
Qed.

Lemma span_head p c s :
  p c = true -> exists a b, span p (String c s) = (String c a, b).
Proof.
  intros H. simpl. rewrite H. destruct (span p s) as [a b]. now exists a, b.
Qed.

Lemma digit_val_nonneg c : Char.is_digit c = true -> 0 <= Char.digit_val c <= 9.
Proof.
  unfold Char.is_digit, Char.in_range, Char.digit_val. intros H.
  apply andb_true_iff in H as [H1 H2]. apply Z.leb_le in H1, H2. lia.
Qed.

Lemma digits_acc_nonneg s : forall acc,
  all Char.is_digit s = true -> 0 <= acc -> 0 <= Num.digits_acc acc s.
Proof.
  induction s as [|c s IH]; intros acc H Ha; [exact Ha|].
  simpl in H. apply andb_true_iff in H as [Hc Hs]. cbn [Num.digits_acc].
  apply IH; [exact Hs|]. pose proof (digit_val_nonneg c Hc). lia.
Qed.

Lemma digits_nonneg s : all Char.is_digit s = true -> 0 <= Num.digits s.
Proof. intros H. apply digits_acc_nonneg; [exact H|lia]. Qed.

Lemma pow10_pos e : (0 < Num.pow10 e)%Q.
Proof.
  unfold Num.pow10. destruct (0 <=? e) eqn:E.
  - apply Z.leb_le in E. rewrite <- (Z2Nat.id e E).
    change 0%Q with (inject_Z 0). rewrite <- Zlt_Qlt.
    apply Z.pow_pos_nonneg; lia.
  - apply Z.leb_gt in E.
    assert (H : 0 < 10 ^ (- e)) by (apply Z.pow_pos_nonneg; lia).
    unfold Qdiv. rewrite Qmult_1_l. apply Qinv_lt_0_compat.
    change 0%Q with (inject_Z 0). now rewrite <- Zlt_Qlt.
Qed.

(** The sign and the white space of [parseFloat] leave a text that starts
    with a digit as it is. *)
Lemma parseFloat_digit c r :
  Char.is_digit c = true ->
  exists ip fp e,
    all Char.is_digit ip = true /\ all Char.is_digit fp = true /\
    Num.parseFloat (String c r)
    = Num.of_Q (inject_Z (Num.digits (ip ++ fp)) * Num.pow10 e).
Proof.
  intros Hc.
  assert (Hs : span Char.is_digit (String c r)
               = (String c (fst (span Char.is_digit r)), snd (span Char.is_digit r))).
  { simpl. rewrite Hc. now destruct (span Char.is_digit r). }
  pose proof (span_all Char.is_digit (String c r)) as Ha. rewrite Hs in Ha.
  simpl fst in Ha.
  set (ip := String c (fst (span Char.is_digit r))) in *.
  set (r1 := snd (span Char.is_digit r)) in *.
  assert (E : Num.parseFloat (String c r) =
    let '(fp, r2) :=
      match r1 with
      | String "." r' => span Char.is_digit r'
      | _ => (EmptyString, r1)
      end in
    Num.of_Q (inject_Z (Num.digits (ip ++ fp))
              * Num.pow10 (Num.exponent_part r2 - Z.of_nat (String.length fp)))).
  { unfold Num.parseFloat, trimStart, skipWs.
    rewrite skip_head by now apply digit_not_ws.
    replace (match String c r with
             | String "-" r0 => (true, r0)
             | String "+" r0 => (false, r0)
             | _ => (false, String c r)
             end) with (false, String c r)
      by (clear -Hc; destruct c as [[] [] [] [] [] [] [] []];
          try reflexivity; discriminate Hc).
    replace (starts_with "Infinity" (String c r)) with false
      by (clear -Hc; destruct c as [[] [] [] [] [] [] [] []];
          try reflexivity; discriminate Hc).
    rewrite Hs. fold ip r1.
    destruct (match r1 with
              | String "." r' => span Char.is_digit r'
              | _ => (EmptyString, r1)
              end) as [fp r2].
    reflexivity. }
  rewrite E.
  assert (F : forall x, all Char.is_digit (fst (match r1 with
               | String "." r' => span Char.is_digit r'
               | _ => (EmptyString, x)
               end)) = true).
  { intros x. destruct r1 as [|d r']; [reflexivity|].
    destruct d as [[] [] [] [] [] [] [] []]; try reflexivity.
    apply span_all. }
  specialize (F r1).
  destruct (match r1 with
            | String "." r' => span Char.is_digit r'
            | _ => (EmptyString, r1)
            end) as [fp r2].
  exists ip, fp, (Num.exponent_part r2 - Z.of_nat (String.length fp)).
  auto.
Qed.

Lemma parseFloat_digit_nonneg c r :
  Char.is_digit c = true ->
  exists q, Num.parseFloat (String c r) = Fin q /\ (0 <= q)%Q.
Proof.
  intros Hc. destruct (parseFloat_digit c r Hc) as (ip & fp & e & Hi & Hf & E).
  rewrite E. unfold Num.of_Q. eexists. split; [reflexivity|].
  rewrite Qred_correct.
  apply Qmult_le_0_compat.
  - change 0%Q with (inject_Z 0). rewrite <- Zle_Qle.
    apply digits_nonneg. now rewrite all_app, Hi, Hf.
  - apply Qlt_le_weak, pow10_pos.
Qed.

Lemma find_first_some {A} (m : string -> option A) s a :
  Re.find_first m s = Some a -> exists u, m u = Some a.
Proof.
  induction s as [|c s IH]; simpl.
  - destruct (m "") eqn:E; [|discriminate]. intros [= <-]. now exists "".
  - destruct (m (String c s)) eqn:E.
    + intros [= <-]. now exists (String c s).
    + exact IH.
Qed.

Lemma amount_at_head u g :
  Re.amount_at u = Some g ->
  exists c r, g = String c r /\ Char.is_digit c = true.
Proof.
  unfold Re.amount_at.
  pose proof (span_all Char.is_digit u) as Ha.
  destruct (span Char.is_digit u) as [ip r]. simpl in Ha.
  destruct ip as [|c ip]; [discriminate|]. simpl is_empty. cbv iota.
  simpl in Ha. apply andb_true_iff in Ha as [Hc _].
  destruct r as [|d r'].
  - intros [= <-]. now exists c, ip.
  - destruct (Ascii.eqb d ".") eqn:Ed.
    + apply Ascii.eqb_eq in Ed. subst d.
      destruct (span Char.is_digit r') as [fp r2]. intros [= <-].
      simpl. eexists _, _. split; [reflexivity|exact Hc].
    + assert (X : forall (k1 : string -> option string) (k2 : option string),
                match String d r' with
                | String "." r1 => k1 r1
                | _ => k2
                end = k2).
      { intros k1 k2. destruct d as [[] [] [] [] [] [] [] []];
          try reflexivity; discriminate Ed. }
      rewrite (X (fun r1 => let (fp, _) := span Char.is_digit r1 in
                            Some (String c ip ++ "." ++ fp))).
      intros [= <-]. now exists c, ip.
Qed.

End NumFacts.


Module PlainFacts.
Import Str StrFacts CharFacts.

Lemma digit_plain c : Char.is_digit c = true -> plain c = true.
Proof. by_cases c. Qed.

Lemma all_weaken (p q : ascii -> bool) s :
  (forall c, p c = true -> q c = true) -> all p s = true -> all q s = true.
Proof.
  intros H. induction s as [|c s IH]; [reflexivity|]. simpl.
  intros E. apply andb_true_iff in E as [E1 E2]. now rewrite (H c E1), IH.
Qed.

Lemma all_skip p q s : all p s = true -> all p (skip q s) = true.
Proof.
  induction s as [|c s IH]; [reflexivity|]. simpl. intros E.
  destruct (q c); [|exact E]. apply andb_true_iff in E as [_ E]. auto.
Qed.

Lemma all_take p n : forall s, all p s = true -> all p (take n s) = true.
Proof.
  induction n as [|n IH]; intros [|c s]; try reflexivity. simpl. intros E.
  apply andb_true_iff in E as [E1 E2]. now rewrite E1, IH.
Qed.

Lemma all_drop p n : forall s, all p s = true -> all p (drop n s) = true.
Proof.
  induction n as [|n IH]; intros [|c s]; try reflexivity; [auto|]. simpl.
  intros E. apply andb_true_iff in E as [E1 E2]. auto.
Qed.

Lemma all_repeat p c n : p c = true -> all p (repeat c n) = true.
Proof. intros H. induction n as [|n IH]; [reflexivity|]. simpl. now rewrite H. Qed.

Lemma all_of_list p l : all p (string_of_list_ascii l) = forallb p l.
Proof. induction l as [|c l IH]; [reflexivity|]. simpl. now rewrite IH. Qed.

Lemma all_to_list p s : forallb p (list_ascii_of_string s) = all p s.
Proof. induction s as [|c s IH]; [reflexivity|]. simpl. now rewrite IH. Qed.

Lemma forallb_rev {A} (p : A -> bool) l : forallb p (rev l) = forallb p l.
Proof.
  induction l as [|a l IH]; [reflexivity|]. simpl.
  rewrite forallb_app, IH. simpl. rewrite andb_true_r. apply andb_comm.
Qed.

Lemma all_reverse p s :
  all p (string_of_list_ascii (rev (list_ascii_of_string s))) = all p s.
Proof. now rewrite all_of_list, forallb_rev, all_to_list. Qed.

Lemma uint_digits u : all Char.is_digit (NilEmpty.string_of_uint u) = true.
Proof. induction u; simpl; auto. Qed.

Lemma Z_digits_digits z : all Char.is_digit (Num.Z_digits z) = true.
Proof.
  unfold Num.Z_digits, NilZero.string_of_uint.
  destruct (N.to_uint (Z.to_N z)); try apply uint_digits. reflexivity.
Qed.

Lemma of_digit_digit d : 0 <= d <= 9 -> Char.is_digit (Char.of_digit d) = true.
Proof.
  intros H.
  assert (C : d = 0 \/ d = 1 \/ d = 2 \/ d = 3 \/ d = 4 \/ d = 5 \/ d = 6
              \/ d = 7 \/ d = 8 \/ d = 9) by lia.
  repeat (destruct C as [-> | C]; [reflexivity|]). now subst.
Qed.

Lemma frac_step r :
  (0 <= r)%Q -> (r < 1)%Q ->
  0 <= Qfloor (r * 10) <= 9 /\
  (0 <= Qred (r * 10 - inject_Z (Qfloor (r * 10))))%Q /\
  (Qred (r * 10 - inject_Z (Qfloor (r * 10))) < 1)%Q.
Proof.
  intros H0 H1.
  pose proof (Qfloor_le (r * 10)) as Hlo.
  pose proof (Qlt_floor (r * 10)) as Hhi.
  rewrite inject_Z_plus in Hhi. change (inject_Z 1) with 1%Q in Hhi.
  split; [split|split].
  - assert (H : (inject_Z 0 < inject_Z (Qfloor (r * 10) + 1))%Q).
    { rewrite inject_Z_plus. change (inject_Z 1) with 1%Q.
      change (inject_Z 0) with 0%Q. nra. }
    rewrite <- Zlt_Qlt in H. lia.
  - assert (H : (inject_Z (Qfloor (r * 10)) < inject_Z 10)%Q).
    { change (inject_Z 10) with 10%Q. nra. }
    rewrite <- Zlt_Qlt in H. lia.
  - rewrite Qred_correct. nra.
  - rewrite Qred_correct. nra.
Qed.

Lemma frac_digits_digits fuel : forall r,
  (0 <= r)%Q -> (r < 1)%Q -> all Char.is_digit (Num.frac_digits fuel r) = true.
Proof.
  induction fuel as [|f IH]; intros r H0 H1; [reflexivity|]. simpl.
  destruct (Qeq_bool r 0); [reflexivity|].
  destruct (frac_step r H0 H1) as (Hd & Hr0 & Hr1).
  simpl. rewrite of_digit_digit by exact Hd. now apply IH.
Qed.

Lemma frac_part q :
  (0 <= Qred (q - inject_Z (Qfloor q)))%Q /\ (Qred (q - inject_Z (Qfloor q)) < 1)%Q.
Proof.
  pose proof (Qfloor_le q) as Hlo. pose proof (Qlt_floor q) as Hhi.
  rewrite inject_Z_plus in Hhi. change (inject_Z 1) with 1%Q in Hhi.
  rewrite Qred_correct. split; nra.
Qed.

Lemma toString_pos_plain q : all plain (Num.toString_pos q) = true.
Proof.
  unfold Num.toString_pos.
  set (ipart := if Qfloor q =? 0 then "" else Num.Z_digits (Qfloor q)).
  set (fpart := Num.frac_digits _ _).
  assert (Hi : all plain ipart = true).
  { unfold ipart. destruct (Qfloor q =? 0); [reflexivity|].
    eapply all_weaken; [exact digit_plain|apply Z_digits_digits]. }
  assert (Hf : all plain fpart = true).
  { eapply all_weaken; [exact digit_plain|].
    destruct (frac_part q). now apply frac_digits_digits. }
  assert (Ha : all plain (ipart ++ fpart) = true) by now rewrite all_app, Hi, Hf.
  set (lead := skip Num.is_zero_char (ipart ++ fpart)).
  assert (Hl : all plain lead = true) by now apply all_skip.
  set (s := if is_empty fpart then _ else lead).
  assert (Hs : all plain s = true).
  { unfold s. destruct (is_empty fpart); [|exact Hl].
    rewrite all_reverse. apply all_skip. now rewrite all_reverse. }
  cbv zeta.
  set (n := Z.of_nat (String.length ipart) - _).
  destruct (_ && _).
  { rewrite all_app, Hs. now apply all_repeat. }
  destruct (_ && _).
  { rewrite all_app, all_take by exact Hs. simpl. now apply all_drop. }
  destruct (_ && _).
  { simpl. rewrite all_app, Hs, andb_true_r. now apply all_repeat. }
  assert (Hz : forall z, all plain (Num.Z_digits z) = true).
  { intros z. eapply all_weaken; [exact digit_plain|apply Z_digits_digits]. }
  assert (Hsg : forall b : bool, all plain (if b then "-" else "+") = true)
    by now intros [].
  destruct s as [|c [|c' r]]; [reflexivity| |].
  - simpl in Hs. apply andb_true_iff in Hs as [Hc _].
    cbn [all append]. rewrite Hc, all_app, Hsg, Hz. reflexivity.
  - simpl in Hs. apply andb_true_iff in Hs as [Hc Hs].
    apply andb_true_iff in Hs as [Hc' Hs].
    cbn [all append]. rewrite Hc, Hc', !all_app, Hs. cbn [all append].
    rewrite all_app, Hsg, Hz. reflexivity.
Qed.

Lemma toString_plain n : all plain (Num.toString n) = true.
Proof.
  destruct n as [|[]|q]; try reflexivity. simpl.
  destruct (Qeq_bool q 0); [reflexivity|].
  destruct (Num.Qltb q 0); [simpl|]; apply toString_pos_plain.
Qed.

Lemma no_symbol s : all plain s = true -> Re.find_first symbol_at s = None.
Proof.
  induction s as [|c s IH]; [reflexivity|]. simpl.
  intros E. apply andb_true_iff in E as [Ec Es]. unfold plain in Ec.
  destruct (symbolMap c); [discriminate|]. auto.
Qed.

End PlainFacts.

(** X5: for an amount that is a number, [normalizeCurrency] finds no
    currency symbol: the currency of the result is the one passed in, and
    the symbol is the dollar sign. *)
Theorem normalizeCurrency_number (n : number) (currency : string) :
  Currency.currency (normalizeCurrency (ANum n) currency) = currency /\
  Currency.symbol (normalizeCurrency (ANum n) currency) = "$".
Proof.
  unfold normalizeCurrency. simpl arg_toString.
  rewrite (PlainFacts.no_symbol _ (PlainFacts.toString_plain n)).
  split; reflexivity.
Qed.

(** ** Dates: the calendar and the ISO form *)

Module CivilFacts.
Import JSDate DateFacts.

(** The year of the era, read back from the day of the era. *)
Lemma yoe_of_doe yoe doy :
  0 <= yoe <= 399 -> 0 <= doy <= 365 ->
  (doy = 365 -> (yoe + 1) mod 4 = 0 /\ ((yoe + 1) mod 100 <> 0 \/ yoe = 399)) ->
  let doe := yoe * 365 + yoe / 4 - yoe / 100 + doy in
  0 <= doe <= 146096 /\
  (doe - doe / 1460 + doe / 36524 - doe / 146096) / 365 = yoe.
Proof.
  intros Hy Hd Hl. cbv zeta. Z.div_mod_to_equations. lia.
Qed.

Lemma mp_of_doy mp d :
  0 <= mp <= 11 -> 1 <= d ->
  d <= (153 * (mp + 1) + 2) / 5 - (153 * mp + 2) / 5 ->
  let doy := (153 * mp + 2) / 5 + d - 1 in
  (5 * doy + 2) / 153 = mp.
Proof.
  intros Hm Hd Hl. cbv zeta. Z.div_mod_to_equations. lia.
Qed.

End CivilFacts.

Module CivilInverse.
Import JSDate DateFacts CivilFacts.

Lemma month_length y m :
  1 <= m <= 12 ->
  let mp := if 2 <? m then m - 3 else m + 9 in
  0 <= mp <= 11 /\
  (mp <> 11 -> days_in_month y m = (153 * (mp + 1) + 2) / 5 - (153 * mp + 2) / 5) /\
  (mp = 11 -> m = 2).
Proof.
  intros Hm.
  assert (C : m = 1 \/ m = 2 \/ m = 3 \/ m = 4 \/ m = 5 \/ m = 6 \/ m = 7
              \/ m = 8 \/ m = 9 \/ m = 10 \/ m = 11 \/ m = 12) by lia.
  repeat (destruct C as [-> | C]; [cbv; repeat split; try lia; try discriminate;
                                    intros; try lia; try reflexivity|]).
  subst. cbv; repeat split; try lia; try discriminate; intros; try lia;
    try reflexivity.
Qed.

Lemma civil_inverse y m d :
  1 <= m <= 12 -> 1 <= d <= days_in_month y m ->
  civil_from_days (days_from_civil y m d) = (y, m, d).
Proof.
  intros Hm Hd.
  destruct (month_length y m Hm) as (Hmp & Hlen & Hfeb). cbv zeta in *.
  unfold days_from_civil.
  set (y' := if m <=? 2 then y - 1 else y).
  set (era := y' / 400).
  set (yoe := y' - era * 400).
  set (mp := if 2 <? m then m - 3 else m + 9) in *.
  set (doy := (153 * mp + 2) / 5 + d - 1).
  assert (Hyoe : 0 <= yoe <= 399).
  { unfold yoe, era. pose proof (Z.div_mod y' 400 ltac:(lia)).
    pose proof (Z.mod_pos_bound y' 400 ltac:(lia)). lia. }
  assert (Hdl : d <= (153 * (mp + 1) + 2) / 5 - (153 * mp + 2) / 5
                /\ (mp = 11 -> d <= 29)
                /\ (mp = 11 -> d = 29 -> is_leap y = true)).
  { destruct (Z.eq_dec mp 11) as [E|E].
    - specialize (Hfeb E).
      replace ((153 * (mp + 1) + 2) / 5 - (153 * mp + 2) / 5) with 30
        by (rewrite E; reflexivity).
      rewrite Hfeb in Hd. unfold days_in_month in Hd. simpl in Hd.
      destruct (is_leap y); repeat split; try lia; auto.
    - rewrite <- (Hlen E). repeat split; [lia|contradiction|contradiction]. }
  destruct Hdl as (Hdl & H29 & Hleap).
  assert (Hdoy : 0 <= doy <= 365).
  { unfold doy. clear - Hmp Hd Hdl H29. Z.div_mod_to_equations. lia. }
  assert (H365 : doy = 365 ->
                 (yoe + 1) mod 4 = 0 /\ ((yoe + 1) mod 100 <> 0 \/ yoe = 399)).
  { intros E.
    assert (E11 : mp = 11 /\ d = 29).
    { unfold doy in E. clear - E Hmp Hd Hdl. Z.div_mod_to_equations. lia. }
    destruct E11 as [E11 E29]. specialize (Hleap E11 E29).
    specialize (Hfeb E11).
    assert (Hy : y = yoe + 1 + era * 400).
    { unfold yoe, y'. subst m. simpl. lia. }
    unfold is_leap in Hleap.
    apply orb_true_iff in Hleap as [Hleap | Hleap].
    - apply andb_true_iff in Hleap as [H4 H100].
      apply Z.eqb_eq in H4. apply negb_true_iff, Z.eqb_neq in H100.
      rewrite Hy in H4, H100. clear - H4 H100 Hyoe.
      Z.div_mod_to_equations. lia.
    - apply Z.eqb_eq in Hleap. rewrite Hy in Hleap. clear - Hleap Hyoe.
      Z.div_mod_to_equations. lia. }
  pose proof (yoe_of_doe yoe doy Hyoe Hdoy H365) as Hk. cbv zeta in Hk.
  set (doe := yoe * 365 + yoe / 4 - yoe / 100 + doy) in *.
  destruct Hk as [Hdoe Hk].
  unfold civil_from_days. cbv zeta.
  replace (era * 146097 + doe - 719468 + 719468) with (doe + era * 146097) by lia.
  rewrite Z.div_add by lia. rewrite (Z.div_small doe) by lia.
  replace (doe + era * 146097 - (0 + era) * 146097) with doe by lia.
  rewrite Hk.
  replace (doe - (365 * yoe + yoe / 4 - yoe / 100)) with doy by (unfold doe; lia).
  pose proof (mp_of_doy mp d Hmp ltac:(lia) Hdl) as Hm'. cbv zeta in Hm'.
  fold doy in Hm'. rewrite Hm'.
  replace (doy - (153 * mp + 2) / 5 + 1) with d by (unfold doy; lia).
  unfold mp, yoe, y'.
  destruct (2 <? m) eqn:E2.
  - apply Z.ltb_lt in E2.
    replace (m <=? 2) with false by (symmetry; apply Z.leb_gt; lia).
    replace (m - 3 <? 10) with true by (symmetry; apply Z.ltb_lt; lia).
    replace (m - 3 + 3 <=? 2) with false by (symmetry; apply Z.leb_gt; lia).
    apply f_equal2; [apply f_equal2|]; lia.
  - apply Z.ltb_ge in E2.
    replace (m <=? 2) with true by (symmetry; apply Z.leb_le; lia).
    replace (m + 9 <? 10) with false by (symmetry; apply Z.ltb_ge; lia).
    replace (m + 9 - 9 <=? 2) with true by (symmetry; apply Z.leb_le; lia).
    apply f_equal2; [apply f_equal2|]; lia.
Qed.

End CivilInverse.

Module DigitFacts.
Import Str StrFacts CharFacts PlainFacts.

Lemma in_range lo n z : lo <= z < lo + Z.of_nat n -> In z (range lo n).
Proof.
  revert lo. induction n as [|n IH]; intros lo H; [lia|]. simpl.
  destruct (Z.eq_dec lo z) as [E|E]; [now left|]. right. apply IH. lia.
Qed.

Lemma years_checked :
  forallb (fun y => digits_of 4 y (Num.Z_digits y)) (range 1000 (Z.to_nat 9000)) = true.
Proof. vm_compute. reflexivity. Qed.

Lemma pads_checked :
  forallb (fun k => digits_of 2 k (padStart0 2 (Num.Z_digits k))) (range 0 (Z.to_nat 100))
  = true.
Proof. vm_compute. reflexivity. Qed.

Lemma year_digits y : 1000 <= y <= 9999 -> digits_of 4 y (Num.Z_digits y) = true.
Proof.
  intros H. pose proof years_checked as C. rewrite forallb_forall in C.
  apply C, in_range. lia.
Qed.

Lemma pad_digits k :
  0 <= k <= 99 -> digits_of 2 k (padStart0 2 (Num.Z_digits k)) = true.
Proof.
  intros H. pose proof pads_checked as C. rewrite forallb_forall in C.
  apply C, in_range. lia.
Qed.

Lemma digits_of_4 z s :
  digits_of 4 z s = true ->
  exists a b c d,
    s = String a (String b (String c (String d ""))) /\
    Char.is_digit a = true /\ Char.is_digit b = true /\
    Char.is_digit c = true /\ Char.is_digit d = true /\ Num.digits s = z.
Proof.
  unfold digits_of. intros H. apply andb_true_iff in H as [H Hz].
  apply andb_true_iff in H as [Hl Ha]. apply Z.eqb_eq in Hz.
  destruct s as [|a [|b [|c [|d [|e s]]]]]; try discriminate.
  simpl in Ha. rewrite !andb_true_iff in Ha.
  destruct Ha as (Ha & Hb & Hc & Hd & _). now exists a, b, c, d.
Qed.

Lemma digits_of_2 z s :
  digits_of 2 z s = true ->
  exists a b,
    s = String a (String b "") /\
    Char.is_digit a = true /\ Char.is_digit b = true /\ Num.digits s = z.
Proof.
  unfold digits_of. intros H. apply andb_true_iff in H as [H Hz].
  apply andb_true_iff in H as [Hl Ha]. apply Z.eqb_eq in Hz.
  destruct s as [|a [|b [|c s]]]; try discriminate.
  simpl in Ha. rewrite !andb_true_iff in Ha.
  destruct Ha as (Ha & Hb & _). now exists a, b.
Qed.

Lemma digit_not_dash c : Char.is_digit c = true -> Re.dash c = false.
Proof. by_cases c. Qed.

Lemma digit_not_T c : Char.is_digit c = true -> Ascii.eqb c "T" = false.
Proof. by_cases c. Qed.

End DigitFacts.

Module IsoFacts.
Import Str StrFacts CharFacts PlainFacts DigitFacts JSDate DateFacts CivilInverse.

Lemma find_first_here {A} (m : string -> option A) s x :
  m s = Some x -> Re.find_first m s = Some x.
Proof. intros H. destruct s; simpl; now rewrite H. Qed.

Lemma ymd_shape y m d :
  1000 <= y <= 9999 -> 0 <= m <= 99 -> 0 <= d <= 99 ->
  exists a b c e m1 m2 d1 d2,
    ymd_string y m d = iso10 a b c e m1 m2 d1 d2 /\
    all Char.is_digit (String a (String b (String c (String e
      (String m1 (String m2 (String d1 (String d2 "")))))))) = true /\
    Num.digits (String a (String b (String c (String e "")))) = y /\
    Num.digits (String m1 (String m2 "")) = m /\
    Num.digits (String d1 (String d2 "")) = d.
Proof.
  intros Hy Hm Hd. unfold ymd_string.
  destruct (digits_of_4 _ _ (year_digits y Hy))
    as (a & b & c & e & -> & Ha & Hb & Hc & He & Vy).
  destruct (digits_of_2 _ _ (pad_digits m Hm)) as (m1 & m2 & -> & Hm1 & Hm2 & Vm).
  destruct (digits_of_2 _ _ (pad_digits d Hd)) as (d1 & d2 & -> & Hd1 & Hd2 & Vd).
  exists a, b, c, e, m1, m2, d1, d2. split; [reflexivity|].
  split; [|auto]. simpl. now rewrite Ha, Hb, Hc, He, Hm1, Hm2, Hd1, Hd2.
Qed.

Section Shape.
Variables a b c e m1 m2 d1 d2 : ascii.
Hypothesis digits8 :
  all Char.is_digit (String a (String b (String c (String e
    (String m1 (String m2 (String d1 (String d2 "")))))))) = true.

Lemma digits8_each :
  Char.is_digit a = true /\ Char.is_digit b = true /\ Char.is_digit c = true /\
  Char.is_digit e = true /\ Char.is_digit m1 = true /\ Char.is_digit m2 = true /\
  Char.is_digit d1 = true /\ Char.is_digit d2 = true.
Proof.
  pose proof digits8 as H. simpl in H. rewrite !andb_true_iff in H. tauto.
Qed.

Lemma match_Ymd_iso10 :
  Re.match_Ymd_dash (iso10 a b c e m1 m2 d1 d2)
  = Some (String a (String b (String c (String e ""))),
          String m1 (String m2 ""), String d1 (String d2 "")).
Proof.
  destruct digits8_each as (Ha & Hb & Hc & He & Hm1 & Hm2 & Hd1 & Hd2).
  unfold Re.match_Ymd_dash. apply find_first_here.
  unfold iso10, Re.four_short_short, Re.digits_n.
  rewrite Ha, Hb, Hc, He. change (Re.dash "-") with true. cbv iota.
  unfold Re.digits_1_2_sep. rewrite Hm1, Hm2, (digit_not_dash m2 Hm2).
  change (Re.dash "-") with true. cbv iota.
  unfold Re.digits_1_2. rewrite Hd1, Hd2. reflexivity.
Qed.

Lemma before_T_iso10 r :
  before "T" (iso10 a b c e m1 m2 d1 d2 ++ "T" ++ r) = iso10 a b c e m1 m2 d1 d2.
Proof.
  destruct digits8_each as (Ha & Hb & Hc & He & Hm1 & Hm2 & Hd1 & Hd2).
  unfold iso10. cbn [append before].
  rewrite (digit_not_T a Ha), (digit_not_T b Hb), (digit_not_T c Hc),
    (digit_not_T e He), (digit_not_T m1 Hm1), (digit_not_T m2 Hm2),
    (digit_not_T d1 Hd1), (digit_not_T d2 Hd2). reflexivity.
Qed.

Lemma parse_iso10 :
  parse_iso_date_only (iso10 a b c e m1 m2 d1 d2) =
  let y := Num.digits (String a (String b (String c (String e "")))) in
  let m := Num.digits (String m1 (String m2 "")) in
  let d := Num.digits (String d1 (String d2 "")) in
  if (1 <=? m) && (m <=? 12) && (1 <=? d) && (d <=? days_in_month y m)
  then Some (days_from_civil y m d * msPerDay) else None.
Proof.
  unfold parse_iso_date_only, iso10. rewrite digits8. reflexivity.
Qed.

End Shape.

Lemma day_bound y m d :
  0 <= y <= 9999 -> 0 <= m <= 99 -> 0 <= d <= 99 ->
  - maxTime <= MakeDate (MakeDay y (m - 1) d) 0 <= maxTime.
Proof.
  intros Hy Hm Hd. unfold MakeDate, MakeDay, days_from_civil, msPerDay, maxTime.
  cbv zeta.
  destruct ((m - 1) mod 12 + 1 <=? 2); destruct (2 <? (m - 1) mod 12 + 1);
    Z.div_mod_to_equations; lia.
Qed.

Lemma MakeDay_civil y m d :
  1 <= m <= 12 -> MakeDay y (m - 1) d = days_from_civil y m d.
Proof.
  intros Hm. unfold MakeDay.
  replace ((m - 1) / 12) with 0 by (symmetry; apply Z.div_small; lia).
  rewrite Z.mod_small by lia.
  replace (y + 0) with y by lia. replace (m - 1 + 1) with m by lia.
  unfold days_from_civil. lia.
Qed.

Lemma Day_of_day z : Day (z * msPerDay) = z.
Proof. unfold Day, msPerDay. apply Z.div_mul. lia. Qed.

(** The ISO day of midnight of a civil date with a year of four digits. *)
Lemma iso_day_of_civil y m d :
  1000 <= y <= 9999 -> 1 <= m <= 12 -> 1 <= d <= days_in_month y m ->
  iso_day_of (days_from_civil y m d * msPerDay) = ymd_string y m d.
Proof.
  intros Hy Hm Hd.
  assert (Hd31 : d <= 31).
  { unfold days_in_month in Hd.
    destruct (m =? 2); [destruct (is_leap y)|destruct (_ || _)]; lia. }
  unfold iso_day_of, iso_date. rewrite Day_of_day, civil_inverse by assumption.
  replace ((0 <=? y) && (y <=? 9999)) with true
    by (symmetry; apply andb_true_iff; split; apply Z.leb_le; lia).
  assert (P4 : pad 4 y = Num.Z_digits y).
  { unfold pad, padStart0.
    destruct (digits_of_4 _ _ (year_digits y Hy)) as (a & b & c & e & -> & _).
    reflexivity. }
  rewrite P4. change (Num.Z_digits y ++ "-" ++ pad 2 m ++ "-" ++ pad 2 d)
    with (ymd_string y m d).
  destruct (ymd_shape y m d Hy ltac:(lia) ltac:(lia))
    as (a & b & c & e & m1 & m2 & d1 & d2 & -> & H8 & _).
  now apply before_T_iso10.
Qed.

Lemma parseDateRobust_ymd y m d :
  1000 <= y <= 9999 -> 0 <= m <= 99 -> 0 <= d <= 99 ->
  parseDateRobust (ymd_string y m d)
  = Some (iso_day_of (MakeDate (MakeDay y (m - 1) d) 0)).
Proof.
  intros Hy Hm Hd.
  destruct (ymd_shape y m d Hy Hm Hd)
    as (a & b & c & e & m1 & m2 & d1 & d2 & -> & H8 & Vy & Vm & Vd).
  unfold parseDateRobust. change (is_empty (iso10 a b c e m1 m2 d1 d2)) with false.
  cbv iota. rewrite (match_Ymd_iso10 _ _ _ _ _ _ _ _ H8).
  unfold try_format at 1. unfold Num.parseInt. rewrite Vy, Vm, Vd.
  unfold robust_date, new_Date_ymd.
  replace ((0 <=? y) && (y <=? 99)) with false
    by (symmetry; apply andb_false_iff; right; apply Z.leb_gt; lia).
  rewrite FallbackFacts.TimeClip_some by (apply day_bound; lia).
  reflexivity.
Qed.

End IsoFacts.

(** X6: [parseDateRobust] returns a date [YYYY-MM-DD] of the calendar, with
    a year of four digits from 1000 on, as it is (local time being UTC). *)
Theorem parseDateRobust_iso_fixed (y m d : Z) :
  1000 <= y <= 9999 -> 1 <= m <= 12 -> 1 <= d <= JSDate.days_in_month y m ->
  parseDateRobust (ymd_string y m d) = Some (ymd_string y m d).
Proof.
  intros Hy Hm Hd.
  assert (Hd31 : d <= 31).
  { unfold JSDate.days_in_month in Hd.
    destruct (m =? 2); [destruct (JSDate.is_leap y)|destruct (_ || _)]; lia. }
  rewrite IsoFacts.parseDateRobust_ymd by lia.
  rewrite IsoFacts.MakeDay_civil by lia. unfold JSDate.MakeDate.
  rewrite Z.add_0_r. now rewrite IsoFacts.iso_day_of_civil.
Qed.

Lemma parseDateRobust_iso_fixed_witness :
  parseDateRobust "2024-02-29" = Some "2024-02-29".
Proof.
  apply (parseDateRobust_iso_fixed 2024 2 29); [lia|lia|].
  split; [lia|]. vm_compute. discriminate.
Defined.

(** ** Dates: what the orchestrator and the reconciler return *)

Module DayFacts.
Import Str StrFacts CharFacts PlainFacts DigitFacts JSDate DateFacts MonadFacts.
Import IsoFacts.

Lemma iso_day_some t st : iso_day (Some t) st = (Ok (iso_day_of t), st).
Proof. reflexivity. Qed.

Lemma robust_date_day y m d r : robust_date y m d = Some r -> is_day r.
Proof.
  unfold robust_date. destruct (new_Date_ymd _ _ _) as [t|]; [|discriminate].
  intros [= <-]. now exists t.
Qed.

Lemma try_format_day m f next r :
  (forall g x, f g = Some x -> is_day x) ->
  (next = Some r -> is_day r) ->
  try_format m f next = Some r -> is_day r.
Proof.
  intros Hf Hn. unfold try_format. destruct m as [g|]; [|exact Hn].
  destruct (f g) as [x|] eqn:E; [|exact Hn]. intros [= <-]. eapply Hf; eauto.
Qed.

Lemma parseDateRobust_day s r : parseDateRobust s = Some r -> is_day r.
Proof.
  unfold parseDateRobust. destruct (is_empty s); [discriminate|].
  repeat (apply try_format_day;
          [intros [[g1 g2] g3] x; apply robust_date_day|]).
  discriminate.
Qed.

Lemma digit_is_not_T c : Char.is_digit c = true -> not_T c = true.
Proof. intros H. unfold not_T. now rewrite digit_not_T. Qed.

Lemma pad_not_T n z : all not_T (pad n z) = true.
Proof.
  unfold pad, padStart0. rewrite all_app.
  rewrite all_repeat by reflexivity.
  eapply all_weaken; [exact digit_is_not_T|apply Z_digits_digits].
Qed.

Lemma before_head s r :
  all not_T s = true -> is_empty (before "T" (s ++ "-" ++ r)) = false.
Proof.
  destruct s as [|c s]; [reflexivity|]. simpl. intros H.
  apply andb_true_iff in H as [H _]. unfold not_T in H.
  apply negb_true_iff in H. now rewrite H.
Qed.

Lemma iso_day_of_nonempty t : is_empty (iso_day_of t) = false.
Proof.
  unfold iso_day_of, iso_date.
  destruct (civil_from_days (Day t)) as [[y m] d].
  rewrite !StrFacts.app_assoc. apply before_head.
  destruct ((0 <=? y) && (y <=? 9999)); [apply pad_not_T|].
  rewrite all_app, pad_not_T. now destruct (y <? 0).
Qed.

Lemma digits_n_4 s g rest :
  Re.digits_n 4 s = Some (g, rest) -> 0 <= Num.digits g <= 9999.
Proof.
  unfold Re.digits_n.
  destruct s as [|a [|b [|c [|d s]]]]; try discriminate;
    repeat match goal with
           | |- context [Char.is_digit ?x] =>
               let E := fresh "E" in
               destruct (Char.is_digit x) eqn:E; try discriminate
           end.
  intros [= <- _]. unfold Num.digits. cbn [Num.digits_acc].
  pose proof (NumFacts.digit_val_nonneg a E).
  pose proof (NumFacts.digit_val_nonneg b E0).
  pose proof (NumFacts.digit_val_nonneg c E1).
  pose proof (NumFacts.digit_val_nonneg d E2). lia.
Qed.

Lemma from_filename_ranged today y m d r :
  0 <= Num.parseInt y <= 9999 ->
  from_filename today y m d = Some r -> is_ranged (DateResult.date r).
Proof.
  intros Hy. unfold from_filename.
  destruct (sane_ymd _ _ _ _) eqn:E; [|discriminate].
  intros [= <-]. unfold sane_ymd in E. rewrite !andb_true_iff in E.
  destruct E as [[[[[E1 E2] E3] E4] E5] E6].
  exists (Num.parseInt y), (Num.parseInt m), (Num.parseInt d).
  repeat split; try reflexivity; lia.
Qed.

Lemma file_Ymd_year f y m d :
  Re.match_file_Ymd f = Some (y, m, d) -> 0 <= Num.parseInt y <= 9999.
Proof.
  intros H. apply NumFacts.find_first_some in H as [u H].
  unfold Re.four_short_short in H.
  destruct (Re.digits_n 4 u) as [[g [|c r1]]|] eqn:E; try discriminate.
  destruct (Re.dash_or_underscore c); [|discriminate].
  destruct (Re.digits_1_2_sep _ r1) as [[g2 r2]|]; [|discriminate].
  destruct (Re.digits_1_2 r2) as [[g3 r3]|]; [|discriminate].
  injection H as <- _ _. eapply digits_n_4; eauto.
Qed.

Lemma file_mdY_year f y m d :
  Re.match_file_mdY f = Some (m, d, y) -> 0 <= Num.parseInt y <= 9999.
Proof.
  intros H. apply NumFacts.find_first_some in H as [u H].
  unfold Re.short_short_n in H.
  destruct (Re.digits_1_2_sep _ u) as [[g1 r1]|]; [|discriminate].
  destruct (Re.digits_1_2_sep _ r1) as [[g2 r2]|]; [|discriminate].
  destruct (Re.digits_n 4 r2) as [[g3 r3]|] eqn:E; [|discriminate].
  injection H as _ _ <-. eapply digits_n_4; eauto.
Qed.

Lemma generateReasonableDate_date w filename st r st' :
  generateReasonableDate w filename st = (Ok r, st') ->
  is_day (DateResult.date r) \/ is_ranged (DateResult.date r).
Proof.
  unfold generateReasonableDate, bind. rewrite new_Date_eq.
  destruct (filename_Ymd _ _) as [r1|] eqn:E1.
  { intros [= <- _]. right. unfold filename_Ymd in E1.
    destruct (Re.match_file_Ymd filename) as [[[y m] d]|] eqn:E; [|discriminate].
    eapply from_filename_ranged; [|exact E1]. eapply file_Ymd_year; eauto. }
  destruct (filename_mdY _ _) as [r2|] eqn:E2.
  { intros [= <- _]. right. unfold filename_mdY in E2.
    destruct (Re.match_file_mdY filename) as [[[m d] y]|] eqn:E; [|discriminate].
    eapply from_filename_ranged; [|exact E2]. eapply file_mdY_year; eauto. }
  cbv beta. unfold random_recent, bind. rewrite Math_random_eq.
  unfold iso_day, bind.
  destruct (setDate _ _) as [t|]; [|discriminate].
  simpl. intros [= <- _]. left. now exists t.
Qed.

Lemma validateAndFixDate_date w v filename st r st' :
  validateAndFixDate w v filename st = (Ok r, st') ->
  is_day (DateResult.date r) \/ is_ranged (DateResult.date r).
Proof.
  unfold validateAndFixDate. intros H.
  apply bind_ok in H as (today & st1 & Ht & H).
  apply try_catch_ok in H as [H | (e & st2 & _ & H)];
    [|eapply generateReasonableDate_date; eauto].
  apply bind_ok in H as (parsed0 & st2 & _ & H).
  apply bind_ok in H as (parsed & st3 & _ & H).
  destruct (out_of_window today parsed);
    [eapply generateReasonableDate_date; eauto|].
  destruct parsed as [t|]; [|discriminate].
  unfold iso_day, bind in H. simpl in H. injection H as <- _.
  left. now exists t.
Qed.

Lemma aiOCRExtraction_date w fileUrl filename st r st' :
  aiOCRExtraction w fileUrl filename st = (Ok r, st') ->
  is_day (receipt_date r) \/ is_ranged (receipt_date r).
Proof.
  intros H. apply VisionFacts.aiOCRExtraction_ok in H as [H | [st1 H]].
  - destruct H as (q & data & text & _ & _ & []). subst r. simpl.
    eapply validateAndFixDate_date; eauto.
  - apply VisionFacts.enhancedPatternExtraction_ok in H as (d & st2 & H & ->).
    simpl. eapply generateReasonableDate_date; eauto.
Qed.

(** The date of the response: the robust parse of the extracted date, or
    that date itself. *)
Lemma normalizedDate_day s :
  is_day s \/ is_ranged s ->
  is_day (match parseDateRobust s with
          | Some d => str_or d s
          | None => s
          end).
Proof.
  intros [H | (y & m & d & Hy & Hm & Hd & ->)].
  - destruct (parseDateRobust s) as [x|] eqn:E; [|exact H].
    apply parseDateRobust_day in E. unfold str_or.
    destruct (is_empty x); assumption.
  - rewrite parseDateRobust_ymd by lia. unfold str_or.
    rewrite iso_day_of_nonempty. now eexists.
Qed.

End DayFacts.

(** X7: the date of every record the orchestrator returns is the ISO day of
    an instant, hence a day of the calendar, also when the extraction gave
    a date that was only checked against the ranges of month and day (as
    2024-02-31, which becomes 2024-03-02); [date_iso] is the same string. *)
Theorem POST_receipt_date_is_a_day (w : World) (user : Z)
    (fileUrl filename : string) (st st' : St) (p : Processed.t) :
  POST w user fileUrl filename st = (Ok p, st') ->
  (exists t, Processed.receipt_date p = iso_day_of t) /\
  Processed.date_iso p = Processed.receipt_date p.
Proof.
  intros H. unfold POST in H.
  apply MonadFacts.bind_ok in H as (e & st1 & He & H).
  apply MonadFacts.bind_ok in H as (dup & st2 & _ & H).
  apply MonadFacts.ret_ok in H as [<- _]. simpl. split; [|reflexivity].
  apply DayFacts.normalizedDate_day.
  eapply DayFacts.aiOCRExtraction_date; eauto.
Qed.

Lemma POST_receipt_date_is_a_day_witness :
  POST (sample_world half (Some uber_reply) []) 7 url "scan.jpg" st0
  = (Ok uber_processed, {| ticks := 4; draws := 1 |}) /\
  (exists t, Processed.receipt_date uber_processed = iso_day_of t) /\
  Processed.date_iso uber_processed = Processed.receipt_date uber_processed.
Proof.
  split; [vm_compute; reflexivity|].
  apply (POST_receipt_date_is_a_day
           (sample_world half (Some uber_reply) []) 7 url "scan.jpg" st0
           {| ticks := 4; draws := 1 |} uber_processed).
  vm_compute; reflexivity.
Defined.

(** X8: [validateAndFixDate] returns a date [YYYY-MM-DD] of the calendar
    that lies in the plausibility window as it is, with the confidence
    high, after one reading of the clock and whatever the filename. *)
Theorem validateAndFixDate_keeps_iso (w : World) (y m d : Z)
    (filename : string) (st : St) :
  1000 <= y <= 9999 -> 1 <= m <= 12 -> 1 <= d <= JSDate.days_in_month y m ->
  in_window (clock w (ticks st)) (JSDate.days_from_civil y m d * JSDate.msPerDay) ->
  validateAndFixDate w (Some (JStr (ymd_string y m d))) filename st
  = (Ok {| DateResult.date := ymd_string y m d;
           DateResult.confidence := "high" |},
     {| ticks := S (ticks st); draws := draws st |}).
Proof.
  intros Hy Hm Hd Hw.
  assert (Hd31 : d <= 31).
  { unfold JSDate.days_in_month in Hd.
    destruct (m =? 2); [destruct (JSDate.is_leap y)|destruct (_ || _)]; lia. }
  unfold validateAndFixDate, bind, try_catch. rewrite MonadFacts.new_Date_eq.
  assert (P : Date_parse w (ymd_string y m d)
              = Some (JSDate.days_from_civil y m d * JSDate.msPerDay)).
  { unfold Date_parse.
    destruct (IsoFacts.ymd_shape y m d Hy ltac:(lia) ltac:(lia))
      as (a & b & c & e & m1 & m2 & d1 & d2 & -> & H8 & Vy & Vm & Vd).
    rewrite (IsoFacts.parse_iso10 _ _ _ _ _ _ _ _ H8). cbv zeta.
    rewrite Vy, Vm, Vd.
    replace ((1 <=? m) && (m <=? 12) && (1 <=? d)
             && (d <=? JSDate.days_in_month y m)) with true
      by (symmetry; rewrite !andb_true_iff; repeat split; apply Z.leb_le; lia).
    apply FallbackFacts.TimeClip_some.
    pose proof (IsoFacts.day_bound y m d ltac:(lia) ltac:(lia) ltac:(lia)) as B.
    rewrite IsoFacts.MakeDay_civil in B by lia. unfold JSDate.MakeDate in B. lia. }
  simpl new_Date_value. rewrite P. simpl of_option. unfold ret at 1.
  change (is_invalid (Some ?t)) with false. cbv iota. unfold ret at 1.
  unfold in_window in Hw. rewrite Hw.
  unfold bind. rewrite DayFacts.iso_day_some.
  now rewrite IsoFacts.iso_day_of_civil.
Qed.

Lemma validateAndFixDate_keeps_iso_witness :
  in_window (clock (sample_world half None []) (ticks st0))
            (JSDate.days_from_civil 2026 10 25 * JSDate.msPerDay) /\
  validateAndFixDate (sample_world half None []) (Some (JStr "2026-10-25"))
    "scan.jpg" st0
  = (Ok {| DateResult.date := "2026-10-25"; DateResult.confidence := "high" |},
     {| ticks := 1; draws := 0 |}).
Proof.
  split; [vm_compute; reflexivity|].
  apply (validateAndFixDate_keeps_iso (sample_world half None []) 2026 10 25
           "scan.jpg" st0); [lia|lia| |vm_compute; reflexivity].
  split; [lia|]. vm_compute. discriminate.
Defined.

(** ** The date fallback and the filename *)

Module FilenameFacts.
Import Str StrFacts CharFacts IsoFacts DigitFacts.

Lemma find_first_skip {A} (m : string -> option A) pre s :
  (forall c r, Char.is_digit c = false -> m (String c r) = None) ->
  no_digit pre = true ->
  Re.find_first m (pre ++ s) = Re.find_first m s.
Proof.
  intros Hm. unfold no_digit. induction pre as [|c pre IH]; [reflexivity|].
  simpl all. intros H. apply andb_true_iff in H as [Hc Hp].
  apply negb_true_iff in Hc.
  change (String c pre ++ s) with (String c (pre ++ s)).
  simpl Re.find_first. rewrite (Hm c _ Hc). auto.
Qed.

Lemma four_short_short_head sep c r :
  Char.is_digit c = false -> Re.four_short_short sep (String c r) = None.
Proof. intros H. unfold Re.four_short_short. simpl. now rewrite H. Qed.

Lemma digit_not_sep c : Char.is_digit c = true -> Re.dash_or_underscore c = false.
Proof. by_cases c. Qed.

Lemma match_file_iso10 a b c e m1 m2 d1 d2 post :
  all Char.is_digit (String a (String b (String c (String e
    (String m1 (String m2 (String d1 (String d2 "")))))))) = true ->
  Re.four_short_short Re.dash_or_underscore (iso10 a b c e m1 m2 d1 d2 ++ post)
  = Some (String a (String b (String c (String e ""))),
          String m1 (String m2 ""), String d1 (String d2 "")).
Proof.
  intros H8.
  destruct (digits8_each _ _ _ _ _ _ _ _ H8)
    as (Ha & Hb & Hc & He & Hm1 & Hm2 & Hd1 & Hd2).
  unfold iso10. cbn [append]. unfold Re.four_short_short, Re.digits_n.
  rewrite Ha, Hb, Hc, He. change (Re.dash_or_underscore "-") with true. cbv iota.
  unfold Re.digits_1_2_sep. rewrite Hm1, Hm2, (digit_not_sep m2 Hm2).
  change (Re.dash_or_underscore "-") with true. cbv iota.
  unfold Re.digits_1_2. rewrite Hd1, Hd2. reflexivity.
Qed.

End FilenameFacts.

(** X9: when the filename holds a date [YYYY-MM-DD] after a text without a
    digit, with a year from 2020 to the current year, a month from 1 to 12
    and a day from 1 to 31, [generateReasonableDate] returns that date with
    the confidence medium, whatever follows it in the name. *)
Theorem filename_date_is_used (w : World) (pre post : string) (y m d : Z)
    (st : St) :
  no_digit pre = true ->
  2020 <= y <= 9999 -> y <= JSDate.YearFromTime (clock w (ticks st)) ->
  1 <= m <= 12 -> 1 <= d <= 31 ->
  generateReasonableDate w (pre ++ ymd_string y m d ++ post) st
  = (Ok {| DateResult.date := ymd_string y m d;
           DateResult.confidence := "medium" |},
     {| ticks := S (ticks st); draws := draws st |}).
Proof.
  intros Hpre Hy Hnow Hm Hd.
  unfold generateReasonableDate, bind. rewrite MonadFacts.new_Date_eq.
  unfold filename_Ymd, Re.match_file_Ymd.
  rewrite FilenameFacts.find_first_skip;
    [|intros; now apply FilenameFacts.four_short_short_head|exact Hpre].
  destruct (IsoFacts.ymd_shape y m d ltac:(lia) ltac:(lia) ltac:(lia))
    as (a & b & c & e & m1 & m2 & d1 & d2 & E & H8 & Vy & Vm & Vd).
  rewrite E.
  rewrite (IsoFacts.find_first_here _ _ _
             (FilenameFacts.match_file_iso10 _ _ _ _ _ _ _ _ post H8)).
  unfold from_filename, Num.parseInt. rewrite Vy, Vm, Vd.
  replace (sane_ymd (clock w (ticks st)) y m d) with true; [now rewrite E|].
  symmetry. unfold sane_ymd. rewrite !andb_true_iff.
  repeat split; apply Z.leb_le; lia.
Qed.

Lemma filename_date_is_used_witness :
  generateReasonableDate (sample_world half None []) "receipt_2024-03-05.jpg" st0
  = (Ok {| DateResult.date := "2024-03-05"; DateResult.confidence := "medium" |},
     {| ticks := 1; draws := 0 |}).
Proof.
  apply (filename_date_is_used (sample_world half None []) "receipt_" ".jpg"
           2024 3 5 st0); try lia; [reflexivity|].
  vm_compute. discriminate.
Defined.

(** ** The orchestrator *)

Module HandlerFacts.
Import MonadFacts.

Lemma aiOCRExtraction_total w fileUrl filename :
  clock_ok w -> random_ok w -> total (aiOCRExtraction w fileUrl filename).
Proof.
  intros Hc Hr. unfold aiOCRExtraction. apply total_try_catch. intros e.
  now apply FallbackFacts.enhancedPatternExtraction_total.
Qed.

Lemma checkForDuplicate_total w user merchant amount date :
  total (checkForDuplicate w user merchant amount date).
Proof.
  unfold checkForDuplicate. apply total_try_catch. intros e. apply total_ret.
Qed.

Lemma generateReasonableDate_confidence w filename st r st' :
  generateReasonableDate w filename st = (Ok r, st') ->
  DateResult.confidence r = "medium" \/ DateResult.confidence r = "low".
Proof.
  unfold generateReasonableDate, bind. rewrite new_Date_eq.
  destruct (filename_Ymd _ _) as [r1|] eqn:E1.
  { intros [= <- _]. left. unfold filename_Ymd, from_filename in E1.
    destruct (Re.match_file_Ymd filename) as [[[y m] d]|]; [|discriminate].
    destruct (sane_ymd _ _ _ _); [|discriminate]. now injection E1 as <-. }
  destruct (filename_mdY _ _) as [r2|] eqn:E2.
  { intros [= <- _]. left. unfold filename_mdY, from_filename in E2.
    destruct (Re.match_file_mdY filename) as [[[m d] y]|]; [|discriminate].
    destruct (sane_ymd _ _ _ _); [|discriminate]. now injection E2 as <-. }
  cbv beta. unfold random_recent. intros H.
  apply bind_ok in H as (x & s1 & _ & H).
  apply bind_ok in H as (s & s2 & _ & H). apply ret_ok in H as [<- _].
  now right.
Qed.

End HandlerFacts.

(** X10: with a clock of the current era and a random source in [[0, 1)],
    the orchestrator returns a record and never raises, whatever the
    fetch, the model and the receipt table do. *)
Theorem POST_never_raises (w : World) (user : Z) (fileUrl filename : string)
    (st : St) :
  clock_ok w -> random_ok w ->
  exists p st', POST w user fileUrl filename st = (Ok p, st').
Proof.
  intros Hc Hr. revert st. change (total (POST w user fileUrl filename)).
  unfold POST. apply MonadFacts.total_bind.
  - now apply HandlerFacts.aiOCRExtraction_total.
  - intros e. apply MonadFacts.total_bind.
    + apply HandlerFacts.checkForDuplicate_total.
    + intros dup. apply MonadFacts.total_ret.
Qed.

Lemma POST_never_raises_witness :
  clock_ok (sample_world half None []) /\
  random_ok (sample_world half None []) /\
  exists p st',
    POST (sample_world half None []) 7 url "scan.jpg" st0 = (Ok p, st').
Proof.
  split; [apply sample_clock_ok|]. split; [apply half_ok|].
  apply (POST_never_raises (sample_world half None []) 7 url "scan.jpg" st0);
    [apply sample_clock_ok|apply half_ok].
Defined.

(** X11: the amount of every record the orchestrator returns is a finite
    number that is not negative (a negative amount of the extraction loses
    its sign, an infinite one becomes 0), and its currency is USD. *)
Theorem POST_amount_and_currency (w : World) (user : Z)
    (fileUrl filename : string) (st st' : St) (p : Processed.t) :
  POST w user fileUrl filename st = (Ok p, st') ->
  (exists q, Processed.amount p = Fin q /\ (0 <= q)%Q) /\
  Processed.currency p = "USD".
Proof.
  intros H. unfold POST in H.
  apply MonadFacts.bind_ok in H as (e & st1 & He & H).
  apply MonadFacts.bind_ok in H as (dup & st2 & _ & H).
  apply MonadFacts.ret_ok in H as [<- _]. cbn [Processed.amount Processed.currency].
  split.
  - unfold normalizeCurrency. cbn [Currency.amount].
    destruct (Re.match_amount (arg_toString (ANum (amount e)))) as [g|] eqn:E.
    + apply NumFacts.find_first_some in E as [u E].
      apply NumFacts.amount_at_head in E as (c & r & -> & Hc).
      now apply NumFacts.parseFloat_digit_nonneg.
    + exists 0%Q. split; [reflexivity|]. apply Qle_refl.
  - unfold normalizeCurrency. cbn [arg_toString Currency.currency].
    now rewrite (PlainFacts.no_symbol _ (PlainFacts.toString_plain (amount e))).
Qed.

Lemma POST_amount_and_currency_witness :
  POST (sample_world half (Some refund_reply) []) 7 url "scan.jpg" st0
  = (Ok refund_processed, {| ticks := 3; draws := 0 |}) /\
  (exists q, Processed.amount refund_processed = Fin q /\ (0 <= q)%Q) /\
  Processed.currency refund_processed = "USD".
Proof.
  split; [vm_compute; reflexivity|].
  apply (POST_amount_and_currency
           (sample_world half (Some refund_reply) []) 7 url "scan.jpg" st0
           {| ticks := 3; draws := 0 |} refund_processed).
  vm_compute; reflexivity.
Defined.

(** X12: when the vision path raises, the record the orchestrator returns
    is flagged for review, its score is 0.7 or 0.5, and its note is the
    one of the orchestrator. *)
Theorem fallback_needs_review (w : World) (user : Z)
    (fileUrl filename : string) (st st1 st' : St) (error : string)
    (p : Processed.t) :
  vision_extract w fileUrl filename st = (Throw error, st1) ->
  POST w user fileUrl filename st = (Ok p, st') ->
  Processed.needs_review p = true /\
  (Processed.confidence p = Fin 0.7 \/ Processed.confidence p = Fin 0.5) /\
  Processed.extraction_notes p
  = Some (JStr "Processed with enhanced normalization").
Proof.
  intros Hv H. unfold POST in H.
  apply MonadFacts.bind_ok in H as (e & s1 & He & H).
  apply MonadFacts.bind_ok in H as (dup & s2 & _ & H).
  apply MonadFacts.ret_ok in H as [<- _].
  cbn [Processed.needs_review Processed.confidence Processed.extraction_notes].
  unfold aiOCRExtraction, try_catch in He. rewrite Hv in He.
  apply VisionFacts.enhancedPatternExtraction_ok in He as (d & s3 & Hd & ->).
  cbn [confidence extraction_notes].
  apply HandlerFacts.generateReasonableDate_confidence in Hd as [-> | ->];
    repeat split; auto.
Qed.

Lemma fallback_needs_review_witness :
  vision_extract (sample_world half None []) url "scan.jpg" st0
  = (Throw "request failed", {| ticks := 1; draws := 0 |}) /\
  POST (sample_world half None []) 7 url "scan.jpg" st0
  = (Ok fallback_processed, {| ticks := 3; draws := 3 |}) /\
  Processed.needs_review fallback_processed = true /\
  (Processed.confidence fallback_processed = Fin 0.7
   \/ Processed.confidence fallback_processed = Fin 0.5) /\
  Processed.extraction_notes fallback_processed
  = Some (JStr "Processed with enhanced normalization").
Proof.
  split; [vm_compute; reflexivity|]. split; [vm_compute; reflexivity|].
  apply (fallback_needs_review (sample_world half None []) 7 url "scan.jpg"
           st0 {| ticks := 1; draws := 0 |} {| ticks := 3; draws := 3 |}
           "request failed" fallback_processed); vm_compute; reflexivity.
Defined.

(** ** The merchant names of the pattern fallback *)

(** The names of the merchant table after [normalizeMerchant]. *)
Lemma table_names_normalized :
  forallb (fun e =>
             let n := str_or (name (snd e)) "Unknown Merchant" in
             String.eqb (normalizeMerchant n) n
             || (String.eqb n "McDonald's"
                 && String.eqb (normalizeMerchant n) "McDonald'S"))
          merchantPatterns = true.
Proof. vm_compute. reflexivity. Qed.

(** X13: [normalizeMerchant] leaves the merchant name of every record of
    the pattern fallback as it is, but for one: the name McDonald's, whose
    letter after the apostrophe it puts in upper case. *)
Theorem fallback_merchant_after_normalizing (w : World) (filename : string)
    (st st' : St) (r : ExtractedData) :
  enhancedPatternExtraction w filename st = (Ok r, st') ->
  normalizeMerchant (merchant_name r) = merchant_name r
  \/ (merchant_name r = "McDonald's"
      /\ normalizeMerchant (merchant_name r) = "McDonald'S").
Proof.
  intros H. apply VisionFacts.enhancedPatternExtraction_ok in H as (d & s1 & _ & ->).
  cbn [merchant_name]. unfold matchedMerchant.
  destruct (find _ merchantPatterns) as [e|] eqn:E; [|now left].
  apply find_some in E as [Hin _].
  pose proof table_names_normalized as T. rewrite forallb_forall in T.
  specialize (T e Hin). cbv zeta in T.
  apply orb_true_iff in T as [T | T].
  - left. now apply String.eqb_eq in T.
  - right. apply andb_true_iff in T as [T1 T2].
    apply String.eqb_eq in T1, T2. now split.
Qed.

Lemma fallback_merchant_after_normalizing_witness :
  enhancedPatternExtraction (sample_world half None []) "mcdonalds_lunch.jpg" st0
  = (Ok burger_record, {| ticks := 1; draws := 3 |}) /\
  (normalizeMerchant (merchant_name burger_record) = merchant_name burger_record
   \/ (merchant_name burger_record = "McDonald's"
       /\ normalizeMerchant (merchant_name burger_record) = "McDonald'S")).
Proof.
  split; [vm_compute; reflexivity|].
  apply (fallback_merchant_after_normalizing (sample_world half None [])
           "mcdonalds_lunch.jpg" st0 {| ticks := 1; draws := 3 |} burger_record).
  vm_compute; reflexivity.
Defined.

(** ** The two route handlers *)

Module RouteFacts.
Import MonadFacts.

Lemma or_else_truthy v d :
  Val.truthy (Some d) = true -> Val.truthy (Some (Val.or_else v d)) = true.
Proof.
  intros Hd. unfold Val.or_else. destruct v as [j|]; [|exact Hd].
  destruct (Val.truthy (Some j)) eqn:E; [exact E|exact Hd].
Qed.

Lemma or_else_kept j d : Val.truthy (Some j) = true -> Val.or_else (Some j) d = j.
Proof. unfold Val.or_else. now intros ->. Qed.

(** The notes of an extracted record: a truthy value on the vision path,
    none on the fallback path. *)
Lemma extracted_notes w fileUrl filename st r st' :
  aiOCRExtraction w fileUrl filename st = (Ok r, st') ->
  (exists n, extraction_notes r = Some n /\ Val.truthy (Some n) = true)
  \/ extraction_notes r = None.
Proof.
  intros H. apply VisionFacts.aiOCRExtraction_ok in H as [H | [st1 H]].
  - left. destruct H as (q & data & text & _ & _ & []). subst r. simpl.
    eexists. split; [reflexivity|]. now apply or_else_truthy.
  - right. now apply VisionFacts.enhancedPatternExtraction_ok in H as (d & st2 & _ & ->).
Qed.

End RouteFacts.

(** X14: on the same request, in the same world and state, the handler of
    [app/api/ocr/route.ts] and the orchestrator raise together or answer
    together, with the same merchant, amount, currency, date, category,
    score, review flag and duplicate flag; their notes are the same too,
    but for a record of the pattern fallback, where each handler puts its
    own default. *)
Theorem routes_agree (w : World) (user : Z) (fileUrl filename : string)
    (st : St) :
  match POST w user fileUrl filename st,
        OcrRoute.POST w user fileUrl filename st with
  | (Ok p, s1), (Ok q, s2) =>
      s1 = s2 /\
      RouteData.merchant_name q = Processed.merchant_name p /\
      RouteData.amount q = Processed.amount p /\
      RouteData.currency q = Processed.currency p /\
      RouteData.receipt_date q = Processed.receipt_date p /\
      RouteData.category q = Processed.category p /\
      RouteData.confidence q = Processed.confidence p /\
      RouteData.needs_review q = Processed.needs_review p /\
      RouteData.is_duplicate q = Processed.is_duplicate p /\
      (Processed.extraction_notes p = Some (RouteData.extraction_notes q)
       \/ (Processed.extraction_notes p
           = Some (JStr "Processed with enhanced normalization")
           /\ RouteData.extraction_notes q = JStr "Processed successfully"))
  | (Throw e1, s1), (Throw e2, s2) => e1 = e2 /\ s1 = s2
  | _, _ => False
  end.
Proof.
  unfold POST, OcrRoute.POST, bind.
  destruct (aiOCRExtraction w fileUrl filename st) as [[e|err] s1] eqn:He;
    [|split; reflexivity].
  destruct (checkForDuplicate _ _ _ _ _ s1) as [[dup|err] s2];
    [|split; reflexivity].
  unfold ret. cbn.
  repeat (split; [reflexivity|]).
  destruct (RouteFacts.extracted_notes _ _ _ _ _ _ He) as [(n & -> & Hn) | ->].
  - left. now rewrite RouteFacts.or_else_kept.
  - right. split; reflexivity.
Qed.

(** ** The reply of the model: the text around the object *)

Module BraceFacts.
Import Str StrFacts CharFacts PlainFacts.

Lemma skip_before p a c b :
  p c = false -> skip p (a ++ String c b) = skip p a ++ String c b.
Proof.
  intros H. induction a as [|x a IH]; simpl; [now rewrite H|].
  destruct (p x); [exact IH|reflexivity].
Qed.

Lemma trimEnd_before a c b :
  Char.is_ws c = false -> trimEnd (a ++ String c b) = a ++ String c (trimEnd b).
Proof.
  intros H. induction a as [|x a IH].
  - simpl. now rewrite H.
  - change (trimEnd (String x (a ++ String c b))
            = String x (a ++ String c (trimEnd b))).
    simpl trimEnd. rewrite IH.
    replace (is_empty (a ++ String c (trimEnd b))) with false
      by now destruct a.
    now rewrite andb_false_r.
Qed.

Lemma all_trimEnd p s : all p s = true -> all p (trimEnd s) = true.
Proof.
  intros H. destruct (trimEnd_prefix s) as [t Ht]. rewrite Ht in H.
  rewrite all_app in H. now apply andb_true_iff in H.
Qed.

Lemma from_brace_app a r :
  lacks "{" a = true -> Re.from_brace (a ++ String "{" r) = Some (String "{" r).
Proof.
  unfold lacks. induction a as [|x a IH]; [reflexivity|]. simpl.
  intros H. apply andb_true_iff in H as [Hx Ha]. apply negb_true_iff in Hx.
  rewrite Hx. auto.
Qed.

Lemma upto_none b : lacks "}" b = true -> Re.upto_last_brace b = None.
Proof.
  unfold lacks. induction b as [|x b IH]; [reflexivity|]. simpl.
  intros H. apply andb_true_iff in H as [Hx Hb]. apply negb_true_iff in Hx.
  now rewrite IH, Hx.
Qed.

Lemma upto_last_brace_app a b :
  lacks "}" b = true ->
  Re.upto_last_brace (a ++ String "}" b) = Some (a ++ "}").
Proof.
  intros H. induction a as [|x a IH].
  - simpl. now rewrite upto_none.
  - change (Re.upto_last_brace (String x (a ++ String "}" b))
            = Some (String x (a ++ "}"))).
    simpl Re.upto_last_brace. now rewrite IH.
Qed.

Lemma match_json_object_app a mid b :
  lacks "{" a = true -> lacks "}" b = true ->
  Re.match_json_object (a ++ String "{" (mid ++ String "}" b))
  = Some (String "{" (mid ++ "}")).
Proof.
  intros Ha Hb. unfold Re.match_json_object. rewrite from_brace_app by exact Ha.
  rewrite upto_last_brace_app by exact Hb.
  exact (upto_last_brace_app (String "{" mid) b Hb).
Qed.

Lemma jsonMatch_drops_surroundings (pre mid post : string) :
  lacks "{" pre = true -> lacks "}" post = true ->
  jsonMatch (pre ++ "{" ++ mid ++ "}" ++ post) = "{" ++ mid ++ "}".
Proof.
  intros Hpre Hpost. unfold jsonMatch, trim, trimStart, skipWs.
  change (pre ++ "{" ++ mid ++ "}" ++ post)
    with (pre ++ String "{" (mid ++ String "}" post)).
  rewrite skip_before by reflexivity.
  replace (Str.skip Char.is_ws pre ++ String "{" (mid ++ String "}" post))
    with ((Str.skip Char.is_ws pre ++ String "{" mid) ++ String "}" post)
    by (now rewrite app_assoc).
  rewrite trimEnd_before by reflexivity.
  rewrite app_assoc.
  change (String "{" mid ++ String "}" (Str.trimEnd post))
    with (String "{" (mid ++ String "}" (Str.trimEnd post))).
  rewrite match_json_object_app; [reflexivity| |].
  - now apply all_skip.
  - now apply all_trimEnd.
Qed.

End BraceFacts.

(** X15: text around the JSON object of a reply is ignored: when nothing
    before the object holds an opening brace and nothing after it holds a
    closing brace, the text handed to [JSON.parse] is the object alone, and
    the reply is read as the bare object would be. *)
Theorem parse_reply_ignores_surroundings (w : World)
    (pre mid post filename : string) :
  lacks "{" pre = true -> lacks "}" post = true ->
  jsonMatch (pre ++ "{" ++ mid ++ "}" ++ post) = "{" ++ mid ++ "}" /\
  parse_reply w (pre ++ "{" ++ mid ++ "}" ++ post) filename
  = parse_reply w ("{" ++ mid ++ "}") filename.
Proof.
  intros Hpre Hpost.
  assert (E1 : jsonMatch (pre ++ "{" ++ mid ++ "}" ++ post) = "{" ++ mid ++ "}")
    by now apply BraceFacts.jsonMatch_drops_surroundings.
  assert (E2 : jsonMatch ("{" ++ mid ++ "}") = "{" ++ mid ++ "}").
  { pose proof (BraceFacts.jsonMatch_drops_surroundings "" mid "" eq_refl eq_refl) as E.
    now rewrite StrFacts.app_empty_r in E. }
  split; [exact E1|]. unfold parse_reply. now rewrite E1, E2.
Qed.

Lemma parse_reply_ignores_surroundings_witness :
  lacks "{" ("Here you are:" ++ LF) = true /\
  lacks "}" (LF ++ "Anything else?") = true /\
  jsonMatch (("Here you are:" ++ LF) ++ "{" ++ member "amount" "12.5" ++ "}"
             ++ (LF ++ "Anything else?"))
  = "{" ++ member "amount" "12.5" ++ "}" /\
  parse_reply (sample_world half None [])
    (("Here you are:" ++ LF) ++ "{" ++ member "amount" "12.5" ++ "}"
     ++ (LF ++ "Anything else?")) "scan.jpg"
  = parse_reply (sample_world half None [])
      ("{" ++ member "amount" "12.5" ++ "}") "scan.jpg".
Proof.
  split; [reflexivity|]. split; [reflexivity|].
  apply (parse_reply_ignores_surroundings (sample_world half None [])
           ("Here you are:" ++ LF) (member "amount" "12.5")
           (LF ++ "Anything else?") "scan.jpg"); reflexivity.
Defined.

(** ** The image fetcher *)

Module FetchFacts.
Import Str StrFacts.

Lemma starts_with_app lit s t :
  starts_with lit s = true -> starts_with lit (s ++ t) = true.
Proof.
  unfold starts_with.
  destruct (strip_prefix Ascii.eqb lit s) as [r|] eqn:E; [|discriminate].
  intros _. now rewrite (PatternFacts.strip_prefix_app _ _ _ t _ E).
Qed.

Lemma starts_with_cons c lit s :
  starts_with (String c lit) (String c s) = starts_with lit s.
Proof. unfold starts_with. simpl. now rewrite Ascii.eqb_refl. Qed.

End FetchFacts.

(** X16: when [imageUrlToBase64] returns, the fetch answered with a status
    from 200 to 299 and a readable body, and the result is a data URL of an
    image type (it starts with data:image/); a response without a content
    type, or with an empty one, is taken for a JPEG image. *)
Theorem imageUrlToBase64_gives_an_image_url (w : World) (imageUrl : string)
    (st st' : St) (s : string) :
  imageUrlToBase64 w imageUrl st = (Ok s, st') ->
  st' = st /\
  Str.starts_with "data:image/" s = true /\
  exists response buffer,
    fetch w imageUrl = Some response /\
    200 <= status response <= 299 /\
    body response = Some buffer /\
    ((content_type response = None \/ content_type response = Some "") ->
     s = "data:image/jpeg;base64," ++ Base64.encode buffer).
Proof.
  unfold imageUrlToBase64. intros H.
  apply MonadFacts.bind_ok in H as (response & s1 & Hf & H).
  apply MonadFacts.of_option_ok in Hf as [Hf <-].
  destruct ((200 <=? status response) && (status response <=? 299)) eqn:Eok;
    [|discriminate].
  cbn [negb] in H.
  apply MonadFacts.bind_ok in H as (buffer & s2 & Hb & H).
  apply MonadFacts.of_option_ok in Hb as [Hb <-].
  set (contentType := match content_type response with
                      | Some t => str_or t "image/jpeg"
                      | None => "image/jpeg"
                      end) in *.
  destruct (Str.starts_with "image/" contentType) eqn:Ei; [|discriminate].
  cbn [negb] in H. apply MonadFacts.ret_ok in H as [<- <-].
  split; [reflexivity|]. split.
  - change ("data:" ++ contentType ++ ";base64," ++ Base64.encode buffer)
      with (String "d" (String "a" (String "t" (String "a" (String ":"
              (contentType ++ ";base64," ++ Base64.encode buffer)))))).
    change "data:image/" with
      (String "d" (String "a" (String "t" (String "a" (String ":" "image/"))))).
    rewrite !FetchFacts.starts_with_cons. now apply FetchFacts.starts_with_app.
  - exists response, buffer. apply andb_true_iff in Eok as [E1 E2].
    apply Z.leb_le in E1, E2. repeat split; auto.
    intros [E | E]; unfold contentType; rewrite E; reflexivity.
Qed.

Lemma imageUrlToBase64_gives_an_image_url_witness :
  imageUrlToBase64 (sample_world half None []) url st0
  = (Ok "data:image/png;base64,cmVjZWlwdA==", st0) /\
  Str.starts_with "data:image/" "data:image/png;base64,cmVjZWlwdA==" = true.
Proof.
  split; [vm_compute; reflexivity|].
  destruct (imageUrlToBase64_gives_an_image_url (sample_world half None []) url
              st0 st0 "data:image/png;base64,cmVjZWlwdA==") as (_ & H & _);
    [vm_compute; reflexivity|exact H].
Defined.

(** ** The duplicate detector: completeness *)

Module DuplicateFacts.

Lemma find_true {A} (f : A -> bool) l x :
  In x l -> f x = true -> exists y, find f l = Some y.
Proof.
  intros Hin Hx. destruct (find f l) as [y|] eqn:E; [now exists y|].
  pose proof (find_none f l E x Hin). congruence.
Qed.

End DuplicateFacts.

(** X17: [checkForDuplicate] misses no duplicate: with a clock of the
    current era, when the table can be read, the date can be parsed and a
    row has the same user, merchant, amount and date and was created less
    than ninety days before the clock reading, the answer is true. *)
Theorem checkForDuplicate_complete (w : World) (user : Z) (merchant : string)
    (amount : number) (date : string) (st : St) (rows : list Receipt)
    (d : Z) (r : Receipt) :
  clock_ok w ->
  receipts w = Some rows -> Date_parse w date = Some d -> In r rows ->
  userId r = user -> merchantName r = merchant ->
  Num.eqb (receiptAmount r) amount = true -> receiptDate r = d ->
  clock w (ticks st) - 90 * JSDate.msPerDay < createdAt r ->
  checkForDuplicate w user merchant amount date st
  = (Ok true, {| ticks := S (ticks st); draws := draws st |}).
Proof.
  intros Hc Hrows Hd Hin Hu Hm Ha Hr Hcr.
  unfold checkForDuplicate, try_catch, bind. rewrite MonadFacts.new_Date_eq.
  rewrite DateFacts.setDate_shift. unfold findFirst, bind, of_option, ret.
  rewrite Hrows, Hd.
  rewrite FallbackFacts.TimeClip_some
    by (pose proof (Hc (ticks st)); unfold JSDate.msPerDay, JSDate.maxTime in *; lia).
  destruct (DuplicateFacts.find_true
              (same_receipt user merchant amount d
                 (clock w (ticks st) - 90 * JSDate.msPerDay)) rows r Hin)
    as [y ->]; [|reflexivity].
  unfold same_receipt. rewrite Hu, Hm, Ha, Hr, !Z.eqb_refl, String.eqb_refl.
  cbn [andb]. now apply Z.ltb_lt.
Qed.

Lemma checkForDuplicate_complete_witness :
  checkForDuplicate (sample_world half None [uber_row]) 7 "UBER"
    (Fin (25 # 2)) "2026-10-25" st0
  = (Ok true, {| ticks := 1; draws := 0 |}).
Proof.
  apply (checkForDuplicate_complete (sample_world half None [uber_row]) 7 "UBER"
           (Fin (25 # 2)) "2026-10-25" st0 [uber_row] 1792886400000 uber_row);
    try reflexivity.
  - apply sample_clock_ok.
  - now left.
Defined.

(** ** Keys: validation and the key store *)

Module KeyFacts.
Import SecureKeyStore KeySecurityManager.

Lemma app_nil {A} (a b : list A) : (a ++ b)%list = [] -> a = [] /\ b = [].
Proof. destruct a; [auto|discriminate]. Qed.

Lemma validated env :
  validateKeys env = Ok true ->
  lacks_prefix "sk-" (env "OPENAI_API_KEY") = false /\
  lacks_prefix "sk_" (finalStripeKey env) = false /\
  lacks_prefix "whsec_" (finalWebhookSecret env) = false /\
  (forall s, env "AUTH_SECRET" = Some s -> Str.is_empty s = false ->
             (32 <= String.length s)%nat).
Proof.
  unfold validateKeys. destruct (issues env) eqn:E; [|discriminate]. intros _.
  unfold issues in E.
  apply app_nil in E as [E1 E]. apply app_nil in E as [E2 E].
  apply app_nil in E as [E3 E4].
  repeat split.
  - destruct (lacks_prefix "sk-" _); [discriminate|reflexivity].
  - destruct (lacks_prefix "sk_" _); [discriminate|reflexivity].
  - destruct (lacks_prefix "whsec_" _); [discriminate|reflexivity].
  - intros s Hs Hne. rewrite Hs, Hne in E4. simpl in E4.
    destruct (String.length s <? 32)%nat eqn:L; [discriminate|].
    now apply Nat.ltb_ge in L.
Qed.

Lemma get_set_same k v keys : get k (set k v keys) = v.
Proof.
  induction keys as [|[k' v'] keys IH]; simpl.
  - now rewrite String.eqb_refl.
  - destruct (String.eqb k' k) eqn:E; simpl.
    + now rewrite String.eqb_refl.
    + now rewrite E.
Qed.

Lemma get_set_other k k' v keys :
  String.eqb k k' = false -> get k' (set k v keys) = get k' keys.
Proof.
  intros H. induction keys as [|[k0 v0] keys IH]; simpl.
  - now rewrite H.
  - destruct (String.eqb k0 k) eqn:E; simpl.
    + apply String.eqb_eq in E. subst k0. now rewrite H.
    + now rewrite IH.
Qed.

Lemma loaded_openai env : get "openai" (loaded env) = env "OPENAI_API_KEY".
Proof.
  unfold loaded, initialize.
  destruct (finalStripeKey env) as [s|]; [destruct (Str.is_empty s)|];
    (destruct (finalWebhookSecret env) as [t|]; [destruct (Str.is_empty t)|]);
    reflexivity.
Qed.

Lemma loaded_auth env : get "auth" (loaded env) = env "AUTH_SECRET".
Proof. unfold loaded, initialize. apply get_set_same. Qed.

Lemma loaded_stripe env :
  get "stripe" (loaded env) =
  match finalStripeKey env with
  | Some s => if Str.is_empty s then None else Some s
  | None => None
  end.
Proof.
  unfold loaded, initialize.
  destruct (finalStripeKey env) as [s|]; [destruct (Str.is_empty s)|];
    (destruct (finalWebhookSecret env) as [t|]; [destruct (Str.is_empty t)|]);
    reflexivity.
Qed.

Lemma loaded_webhook env :
  get "webhook" (loaded env) =
  match finalWebhookSecret env with
  | Some s => if Str.is_empty s then None else Some s
  | None => None
  end.
Proof.
  unfold loaded, initialize.
  destruct (finalStripeKey env) as [s|]; [destruct (Str.is_empty s)|];
    (destruct (finalWebhookSecret env) as [t|]; [destruct (Str.is_empty t)|]);
    reflexivity.
Qed.

Lemma getKey_ok k keys key :
  getKey k keys = Ok key -> get k keys = Some key /\ Str.is_empty key = false.
Proof.
  unfold getKey. destruct (get k keys) as [x|]; [|discriminate].
  destruct (Str.is_empty x) eqn:E; [discriminate|]. now intros [= <-].
Qed.

Lemma has_prefix p s :
  lacks_prefix p (Some s) = false -> Str.is_empty s = false ->
  Str.starts_with p s = true.
Proof.
  unfold lacks_prefix. intros H Hne. rewrite Hne in H. simpl in H.
  now apply negb_false_iff in H.
Qed.

End KeyFacts.

(** X18: [validateKeys] and the key store read the environment alike: in
    an environment that [validateKeys] accepts, every key that [getKey]
    hands out of the loaded store is the one of the environment and is
    well formed (the model key starts with sk-, the payment key with sk_,
    the webhook secret with whsec_, the session secret has 32 characters
    at least). *)
Theorem validated_keys_are_well_formed (env : Env) :
  KeySecurityManager.validateKeys env = Ok true ->
  (forall key, SecureKeyStore.getKey "openai" (SecureKeyStore.loaded env) = Ok key ->
               env "OPENAI_API_KEY" = Some key /\ Str.starts_with "sk-" key = true) /\
  (forall key, SecureKeyStore.getKey "stripe" (SecureKeyStore.loaded env) = Ok key ->
               finalStripeKey env = Some key /\ Str.starts_with "sk_" key = true) /\
  (forall key, SecureKeyStore.getKey "webhook" (SecureKeyStore.loaded env) = Ok key ->
               finalWebhookSecret env = Some key
               /\ Str.starts_with "whsec_" key = true) /\
  (forall key, SecureKeyStore.getKey "auth" (SecureKeyStore.loaded env) = Ok key ->
               env "AUTH_SECRET" = Some key /\ (32 <= String.length key)%nat).
Proof.
  intros H. apply KeyFacts.validated in H as (H1 & H2 & H3 & H4).
  repeat split.
  - apply KeyFacts.getKey_ok in H as [H _]. now rewrite KeyFacts.loaded_openai in H.
  - apply KeyFacts.getKey_ok in H as [H Hne]. rewrite KeyFacts.loaded_openai in H.
    rewrite H in H1. now apply KeyFacts.has_prefix.
  - apply KeyFacts.getKey_ok in H as [H _]. rewrite KeyFacts.loaded_stripe in H.
    destruct (finalStripeKey env) as [s|]; [|discriminate].
    destruct (Str.is_empty s); [discriminate|exact H].
  - apply KeyFacts.getKey_ok in H as [H Hne]. rewrite KeyFacts.loaded_stripe in H.
    destruct (finalStripeKey env) as [s|]; [|discriminate].
    destruct (Str.is_empty s); [discriminate|]. injection H as ->.
    now apply KeyFacts.has_prefix.
  - apply KeyFacts.getKey_ok in H as [H _]. rewrite KeyFacts.loaded_webhook in H.
    destruct (finalWebhookSecret env) as [s|]; [|discriminate].
    destruct (Str.is_empty s); [discriminate|exact H].
  - apply KeyFacts.getKey_ok in H as [H Hne]. rewrite KeyFacts.loaded_webhook in H.
    destruct (finalWebhookSecret env) as [s|]; [|discriminate].
    destruct (Str.is_empty s); [discriminate|]. injection H as ->.
    now apply KeyFacts.has_prefix.
  - apply KeyFacts.getKey_ok in H as [H _]. now rewrite KeyFacts.loaded_auth in H.
  - apply KeyFacts.getKey_ok in H as [H Hne]. rewrite KeyFacts.loaded_auth in H.
    now apply H4.
Qed.

Lemma validated_keys_are_well_formed_witness :
  KeySecurityManager.validateKeys sample_env = Ok true /\
  SecureKeyStore.getKey "stripe" (SecureKeyStore.loaded sample_env)
  = Ok "sk_live_sample" /\
  finalStripeKey sample_env = Some "sk_live_sample" /\
  Str.starts_with "sk_" "sk_live_sample" = true.
Proof.
  split; [reflexivity|]. split; [reflexivity|].
  destruct (validated_keys_are_well_formed sample_env eq_refl)
    as (_ & H & _).
  exact (H "sk_live_sample" eq_refl).
Defined.

(** X19: [validateKeys] does not detect a key that is missing: an
    environment in which every variable is unset or empty is accepted,
    and [getKey] then raises for every name. *)
Theorem missing_keys_pass_validation (env : Env) :
  (forall name, env name = None \/ env name = Some "") ->
  KeySecurityManager.validateKeys env = Ok true /\
  forall keyName,
    SecureKeyStore.getKey keyName (SecureKeyStore.loaded env)
    = Throw ("Key " ++ keyName ++ " not found").
Proof.
  intros H.
  assert (E : forall a b, env_or (env a) (env b) = None
                          \/ env_or (env a) (env b) = Some "").
  { intros a b. unfold env_or.
    destruct (H a) as [-> | ->]; simpl; apply H. }
  assert (L : forall p v, v = None \/ v = Some "" -> lacks_prefix p v = false).
  { intros p v [-> | ->]; reflexivity. }
  split.
  - unfold KeySecurityManager.validateKeys, KeySecurityManager.issues.
    rewrite (L _ _ (H "OPENAI_API_KEY")).
    unfold finalStripeKey, finalWebhookSecret.
    destruct (isLive env); rewrite !L by apply E;
      destruct (H "AUTH_SECRET") as [-> | ->]; reflexivity.
  - intros k.
    assert (S : SecureKeyStore.loaded env
                = [("openai", env "OPENAI_API_KEY"); ("auth", env "AUTH_SECRET")]).
    { unfold SecureKeyStore.loaded, SecureKeyStore.initialize.
      assert (F1 : finalStripeKey env = None \/ finalStripeKey env = Some "")
        by (unfold finalStripeKey; destruct (isLive env); apply E).
      assert (F2 : finalWebhookSecret env = None \/ finalWebhookSecret env = Some "")
        by (unfold finalWebhookSecret; destruct (isLive env); apply E).
      destruct F1 as [-> | ->]; destruct F2 as [-> | ->]; reflexivity. }
    unfold SecureKeyStore.getKey. rewrite S. cbn [SecureKeyStore.get].
    destruct (String.eqb "openai" k);
      [destruct (H "OPENAI_API_KEY") as [-> | ->]; reflexivity|].
    destruct (String.eqb "auth" k);
      [destruct (H "AUTH_SECRET") as [-> | ->]; reflexivity|reflexivity].
Qed.

Lemma missing_keys_pass_validation_witness :
  (forall name, empty_env name = None \/ empty_env name = Some "") /\
  KeySecurityManager.validateKeys empty_env = Ok true /\
  forall keyName,
    SecureKeyStore.getKey keyName (SecureKeyStore.loaded empty_env)
    = Throw ("Key " ++ keyName ++ " not found").
Proof.
  split; [intros name; now left|].
  apply (missing_keys_pass_validation empty_env). intros name. now left.
Defined.

(** X20: the key store after [rotateKey]: the rotated key is handed out
    (a rotation to the empty string makes it not found), every other name
    is answered as before, and after [clearKeys] the key is not found. *)
Theorem key_store_laws (keys : SecureKeyStore.Keys) (k k' v : string) :
  SecureKeyStore.getKey k (SecureKeyStore.rotateKey k v keys)
  = (if Str.is_empty v then Throw ("Key " ++ k ++ " not found") else Ok v) /\
  (String.eqb k k' = false ->
   SecureKeyStore.getKey k' (SecureKeyStore.rotateKey k v keys)
   = SecureKeyStore.getKey k' keys) /\
  SecureKeyStore.getKey k (SecureKeyStore.clearKeys (SecureKeyStore.rotateKey k v keys))
  = Throw ("Key " ++ k ++ " not found").
Proof.
  unfold SecureKeyStore.getKey, SecureKeyStore.rotateKey. repeat split.
  - now rewrite KeyFacts.get_set_same.
  - intros H. now rewrite KeyFacts.get_set_other.
Qed.

(** ** The admin page *)

(** X21: the dashboard query is retried only while fewer than three
    attempts have failed, and never after a response of status 403; a
    failure without a response is retried exactly while fewer than three
    attempts have failed. *)
Theorem access_denied_is_not_retried (Data : Type) (f : Admin.failure)
    (failureCount : Z) (msg : string) :
  Admin.fetchDashboardData (inr f : Data + Admin.failure) = Throw msg ->
  (Admin.retry failureCount msg = true ->
   failureCount < 3 /\
   forall r, f = Admin.AxiosError (Some r) -> (Admin.status r =? 403) = false) /\
  (f = Admin.OtherError \/ f = Admin.AxiosError None ->
   Admin.retry failureCount msg = (failureCount <? 3)).
Proof.
  intros H. split.
  - intros R. unfold Admin.retry in R.
    destruct (Str.includes msg "Access denied") eqn:I; [discriminate|].
    apply Z.ltb_lt in R. split; [exact R|].
    intros r ->. simpl in H. destruct (Admin.status r =? 403); [|reflexivity].
    injection H as <-. discriminate I.
  - intros [-> | ->]; simpl in H; injection H as <-; reflexivity.
Qed.

Lemma access_denied_is_not_retried_witness :
  Admin.fetchDashboardData
    (inr (Admin.AxiosError
            (Some {| Admin.status := 403; Admin.message := Some "no" |}))
     : unit + Admin.failure)
  = Throw "Access denied. Admin privileges required." /\
  Admin.retry 0 "Access denied. Admin privileges required." = false.
Proof.
  split; [reflexivity|].
  destruct (access_denied_is_not_retried unit
              (Admin.AxiosError
                 (Some {| Admin.status := 403; Admin.message := Some "no" |}))
              0 "Access denied. Admin privileges required." eq_refl)
    as [H _].
  destruct (Admin.retry 0 "Access denied. Admin privileges required.") eqn:E;
    [|reflexivity].
  destruct (H eq_refl) as [_ H403]. discriminate (H403 _ eq_refl).
Defined.

(** X22: the badge of a metric card: none when the change is zero; green
    with a plus sign before the number when the change is positive; red
    when it is negative; the grey class is used for NaN only. *)
Theorem metric_badge_colours (change : number) :
  (Admin.MetricCard_badge change = None <-> Num.eqb change (Fin 0) = true) /\
  forall b, Admin.MetricCard_badge change = Some b ->
    (Num.ltb (Fin 0) change = true ->
     Admin.className b = "ml-2 text-sm font-medium text-green-600"
     /\ Admin.text b = "+" ++ Num.toString change ++ "%") /\
    (Num.ltb change (Fin 0) = true ->
     Admin.className b = "ml-2 text-sm font-medium text-red-600"
     /\ Admin.text b = Num.toString change ++ "%") /\
    (Admin.className b = "ml-2 text-sm font-medium text-gray-500" <-> change = NaN).
Proof.
  unfold Admin.MetricCard_badge. split.
  - destruct (Num.eqb change (Fin 0)); split; try reflexivity; discriminate.
  - intros b. destruct (Num.eqb change (Fin 0)) eqn:E0; [discriminate|].
    intros [= <-]. cbn [Admin.className Admin.text].
    destruct change as [|[]|q].
    + repeat split; try discriminate.
    + repeat split; try discriminate. 
    + repeat split; try discriminate.
    + simpl in E0. unfold Num.ltb, Num.Qltb.
      destruct (Qle_bool q 0) eqn:L1; destruct (Qle_bool 0 q) eqn:L2; simpl.
      * apply Qle_bool_iff in L1, L2.
        assert (Q0 : Qeq_bool q 0 = true)
          by (apply Qeq_bool_iff; now apply Qle_antisym).
        congruence.
      * repeat split; try discriminate; auto.
      * repeat split; try discriminate; auto.
      * exfalso. destruct (Qlt_le_dec 0 q) as [X|X].
        -- apply Qlt_le_weak, Qle_bool_iff in X. congruence.
        -- apply Qle_bool_iff in X. congruence.
Qed.

(** ** Company settings: running the handlers *)

Module SettingsFacts.
Import Settings.

(** *** Running a handler *)

Lemma run_bind {A B} (m : D A) (k : A -> D B) db r db' :
  bind m k db = (r, db') ->
  (exists e, m db = (Throw e, db') /\ r = Throw e) \/
  (exists a db1, m db = (Ok a, db1) /\ k a db1 = (r, db')).
Proof.
  unfold bind. destruct (m db) as [[a|e] db1].
  - intros H. right. now exists a, db1.
  - intros [= <- <-]. left. now exists e.
Qed.

Lemma run_of_result {A} (x : result A) db r db' :
  of_result x db = (r, db') -> r = x /\ db' = db.
Proof. unfold of_result. now intros [= <- <-]. Qed.

Lemma run_ret {A} (a : A) db r db' : ret a db = (r, db') -> r = Ok a /\ db' = db.
Proof. unfold ret. now intros [= <- <-]. Qed.

(** A call leaves the table as it is, or changes it as the operation
    tells. *)
Lemma run_call {A} store (op : list Setting.t -> result (A * list Setting.t)) db r db' :
  call store op db = (r, db') ->
  calls db' = S (calls db) /\
  ((exists e, r = Throw e /\ rows db' = rows db) \/
   (exists a, r = Ok a /\ op (rows db) = Ok (a, rows db'))).
Proof.
  unfold call. destruct (rejects store (calls db)).
  - intros [= <- <-]. split; [reflexivity|]. left. now eexists.
  - destruct (op (rows db)) as [[a t]|e] eqn:E; intros [= <- <-];
      (split; [reflexivity|]).
    + right. now exists a.
    + left. now eexists.
Qed.

(** *** The rows of the other users *)

Lemma others_clear u t : others u (cleared u t) = others u t.
Proof.
  unfold others, cleared. induction t as [|r t IH]; [reflexivity|]. simpl.
  destruct (Setting.userId r =? u) eqn:E; simpl; rewrite E; simpl; now rewrite IH.
Qed.

Lemma others_app u t r : Setting.userId r = u -> others u (t ++ [r]) = others u t.
Proof.
  intros H. unfold others. rewrite filter_app. simpl.
  rewrite H, Z.eqb_refl. simpl. apply app_nil_r.
Qed.

(** With identifiers that are unique, the row of an identifier is the one
    that was found. *)
Lemma unique_row t x r :
  unique_ids t -> In x t -> In r t -> Setting.id r = Setting.id x -> r = x.
Proof.
  unfold unique_ids. induction t as [|y t IH]; [contradiction|].
  simpl. intros N Hx Hr E. inversion N as [|? ? Hn N']; subst.
  destruct Hx as [-> | Hx]; destruct Hr as [-> | Hr]; auto.
  - exfalso. apply Hn. rewrite <- E. now apply in_map.
  - exfalso. apply Hn. rewrite E. now apply in_map.
Qed.

Lemma others_update u t x f :
  unique_ids t -> In x t -> Setting.userId x = u ->
  (forall r, Setting.userId (f r) = Setting.userId r) ->
  others u (updated (Setting.id x) f t) = others u t.
Proof.
  intros N Hx Hu Hf. unfold others, updated.
  assert (G : forall r, In r t ->
            (if Setting.id r =? Setting.id x then f r else r) = r
            \/ Setting.userId r = u /\ Setting.userId (f r) = u).
  { intros r Hr. destruct (Setting.id r =? Setting.id x) eqn:E; [|now left].
    right. apply Z.eqb_eq in E. rewrite (unique_row t x r N Hx Hr E), Hf. auto. }
  clear N Hx. induction t as [|r t IH]; [reflexivity|]. simpl.
  rewrite IH by (intros; apply G; now right).
  destruct (G r (or_introl eq_refl)) as [-> | [H1 H2]]; [reflexivity|].
  destruct (Setting.id r =? Setting.id x); [|reflexivity].
  rewrite H1, H2, Z.eqb_refl. reflexivity.
Qed.

Lemma others_delete u t i :
  (forall r, In r t -> has_id i r = true -> Setting.userId r = u) ->
  others u (without i t) = others u t.
Proof.
  intros H. unfold others, without. set (p := has_id i) in *. induction t as [|r t IH]; [reflexivity|]. simpl.
  rewrite <- IH by (intros; apply H; auto; now right).
  destruct (p r) eqn:E; simpl; [|reflexivity].
  rewrite (H r (or_introl eq_refl) E), Z.eqb_refl. reflexivity.
Qed.

Lemma ids_map (g : Setting.t -> Setting.t) t :
  (forall r, Setting.id (g r) = Setting.id r) -> map Setting.id (map g t) = map Setting.id t.
Proof. intros H. rewrite map_map. apply map_ext. exact H. Qed.

Lemma unique_cleared u t : unique_ids t -> unique_ids (cleared u t).
Proof.
  unfold unique_ids, cleared. intros N. rewrite ids_map; [exact N|].
  intros r. now destruct (Setting.userId r =? u).
Qed.

Lemma unique_updated i f t :
  (forall r, Setting.id (f r) = Setting.id r) ->
  unique_ids t -> unique_ids (updated i f t).
Proof.
  unfold unique_ids, updated. intros Hf N. rewrite ids_map; [exact N|].
  intros r. destruct (Setting.id r =? i); [apply Hf|reflexivity].
Qed.

Lemma settings_db_unique : unique_ids (rows settings_db).
Proof.
  unfold unique_ids. simpl. repeat constructor; simpl; intuition discriminate.
Qed.

End SettingsFacts.

Module PostFacts.
Import Settings SettingsFacts.

(** A handler answers with what its body gave, an error being answered
    with the status 500; the table is what the body left. *)
Lemma run_handler (m : D Reply) db r db' :
  try_catch m (fun _ => ret (Error 500 "Internal Server Error")) db = (r, db') ->
  exists r1, m db = (r1, db') /\ r = Ok (answer r1).
Proof.
  unfold try_catch, ret. destruct (m db) as [[a|e] d1]; intros [= <- <-].
  - now exists (Ok a).
  - now exists (Throw e).
Qed.

Lemma truthy_flag v flag : as_bool v = Ok flag -> Val.truthy v = flag.
Proof. destruct v as [[| b | | | |]|]; try discriminate. now intros [= <-]. Qed.

Lemma POST_effect store session body db r db' u :
  requester session = Some u ->
  unique_ids (rows db) ->
  POST store session body db = (r, db') ->
  exists reply, r = Ok reply /\ post_effect u (rows db) reply (rows db').
Proof.
  intros Hu N H. destruct session as [s|e]; [|discriminate]. simpl in Hu.
  unfold POST in H. apply run_handler in H as (r1 & E & ->).
  eexists. split; [reflexivity|].
  assert (Stop : forall t1 e,
            t1 = rows db \/ t1 = cleared u (rows db) ->
            post_effect u (rows db) (answer (Throw e)) t1).
  { intros t1 e T. exists t1. split; [exact T|]. left.
    split; [reflexivity|]. now eexists _, _. }
  apply run_bind in E as [(e & E & _) | (s' & d0 & E0 & E)];
    [apply run_of_result in E as [X _]; discriminate|].
  apply run_of_result in E0 as [[= <-] ->]. rewrite Hu in E.
  (* the body of the request *)
  apply run_bind in E as [(e & E & ->) | (b0 & d0 & E0 & E)].
  { apply run_of_result in E as [_ ->]. apply Stop. now left. }
  apply run_of_result in E0 as [_ ->].
  apply run_bind in E as [(e & E & ->) | (b & d0 & E0 & E)].
  { apply run_of_result in E as [_ ->]. apply Stop. now left. }
  apply run_of_result in E0 as [_ ->].
  (* the validation *)
  destruct (negb _ || negb _ || negb _).
  { apply run_ret in E as [-> ->]. exists (rows db). split; [now left|].
    left. split; [reflexivity|]. now eexists _, _. }
  (* the flags are cleared *)
  set (is_default := default_to (JBool false) (prop b "is_default")) in *.
  apply run_bind in E as [(e & E & ->) | ([] & d1 & E1 & E)].
  { destruct (Val.truthy is_default).
    - apply run_call in E as [_ [(e2 & _ & R) | (a & X & _)]]; [|discriminate].
      rewrite R. apply Stop. now left.
    - apply run_ret in E as [X _]. discriminate. }
  assert (T1 : (rows d1 = rows db \/ rows d1 = cleared u (rows db)) /\
               (Val.truthy is_default = true -> rows d1 = cleared u (rows db))).
  { destruct (Val.truthy is_default).
    - apply run_call in E1 as [_ [(e2 & X & _) | (a & _ & X)]]; [discriminate|].
      injection X as _ X. split; [right|intros _]; symmetry; exact X.
    - apply run_ret in E1 as [_ ->]. split; [now left|discriminate]. }
  destruct T1 as [T1 T1']. clear E1.
  (* the row of the name is looked for *)
  apply run_bind in E as [(e & E & ->) | (existing & d2 & E2 & E)].
  { apply run_bind in E as [(e2 & E & _) | (nm & d2 & E2 & E)].
    - apply run_of_result in E as [_ ->]. now apply Stop.
    - apply run_of_result in E2 as [_ ->].
      apply run_call in E as [_ [(e2 & _ & R) | (a & X & _)]]; [|discriminate].
      rewrite R. now apply Stop. }
  apply run_bind in E2 as [(e2 & _ & X) | (nm & d3 & E3 & E2)]; [discriminate|].
  apply run_of_result in E3 as [_ ->].
  apply run_call in E2 as [_ [(e2 & X & _) | (a & Ha & X)]]; [discriminate|].
  injection Ha as <-. unfold findFirst in X. injection X as Hfind R2.
  rewrite R2 in T1, T1', Hfind.
  destruct existing as [existing|].
  - (* a row is changed *)
    apply find_some in Hfind as [Hin Hp].
    apply andb_true_iff in Hp as [Hp _]. apply Z.eqb_eq in Hp.
    apply run_bind in E as [(e & E & ->) | (res & d3 & E3 & E)].
    { apply run_bind in E as [(e2 & E & _) | (name & d4 & E4 & E)].
      { apply run_of_result in E as [_ ->]. now apply Stop. }
      apply run_of_result in E4 as [_ ->].
      apply run_bind in E as [(e2 & E & _) | (flag & d4 & E4 & E)].
      { apply run_of_result in E as [_ ->]. now apply Stop. }
      apply run_of_result in E4 as [_ ->].
      apply run_call in E as [_ [(e2 & _ & R) | (a & X & _)]]; [|discriminate].
      rewrite R. now apply Stop. }
    apply run_ret in E as [-> ->].
    apply run_bind in E3 as [(e2 & _ & X) | (name & d4 & E4 & E3)]; [discriminate|].
    apply run_of_result in E4 as [_ ->].
    apply run_bind in E3 as [(e2 & _ & X) | (flag & d4 & E4 & E3)]; [discriminate|].
    apply run_of_result in E4 as [Hflag ->]. symmetry in Hflag.
    apply run_call in E3 as [_ [(e2 & X & _) | (a & Ha & X)]]; [discriminate|].
    injection Ha as <-. unfold update in X.
    destruct (find _ (rows d2)) as [x|] eqn:Fx; [|discriminate].
    injection X as Hres Hrows.
    exists (rows d2). split; [exact T1|]. right. left.
    exists existing, name, flag, (columns_of b), "Setting updated successfully".
    split; [exact Hin|]. split; [exact Hp|]. split.
    { intros ->. apply T1'. now apply truthy_flag. }
    assert (x = existing) as ->.
    { apply find_some in Fx as [Hx Ex]. apply Z.eqb_eq in Ex.
      apply (unique_row (rows d2)); auto.
      destruct T1 as [-> | ->]; [exact N|now apply unique_cleared]. }
    cbv zeta. split; [now rewrite <- Hrows|now rewrite <- Hres].
  - (* a row is added *)
    apply run_bind in E as [(e & E & ->) | (res & d3 & E3 & E)].
    { apply run_bind in E as [(e2 & E & _) | (name & d4 & E4 & E)].
      { apply run_of_result in E as [_ ->]. now apply Stop. }
      apply run_of_result in E4 as [_ ->].
      apply run_bind in E as [(e2 & E & _) | (flag & d4 & E4 & E)].
      { apply run_of_result in E as [_ ->]. now apply Stop. }
      apply run_of_result in E4 as [_ ->].
      apply run_call in E as [_ [(e2 & _ & R) | (a & X & _)]]; [|discriminate].
      rewrite R. now apply Stop. }
    apply run_ret in E as [-> ->].
    apply run_bind in E3 as [(e2 & _ & X) | (name & d4 & E4 & E3)]; [discriminate|].
    apply run_of_result in E4 as [_ ->].
    apply run_bind in E3 as [(e2 & _ & X) | (flag & d4 & E4 & E3)]; [discriminate|].
    apply run_of_result in E4 as [Hflag ->]. symmetry in Hflag.
    apply run_call in E3 as [_ [(e2 & X & _) | (a & Ha & X)]]; [discriminate|].
    injection Ha as <-. unfold create in X. injection X as Hres Hrows.
    exists (rows d2). split; [exact T1|]. right. right.
    exists res, "Setting created successfully".
    rewrite <- Hres. split; [reflexivity|]. split.
    { cbn [Setting.isDefault]. intros ->. apply T1'. now apply truthy_flag. }
    split; [now rewrite <- Hrows|reflexivity].
Qed.

End PostFacts.

Module DeleteFacts.
Import Settings SettingsFacts PostFacts.

Lemma least_spec p t x :
  least p t = Some x ->
  In x t /\ p x = true /\ forall r, In r t -> p r = true -> Setting.id x <= Setting.id r.
Proof.
  revert x. induction t as [|y t IH]; [discriminate|]. simpl. intros x.
  destruct (p y) eqn:Py.
  - destruct (least p t) as [z|] eqn:L.
    + destruct (IH z eq_refl) as (Hin & Hp & Hle).
      destruct (Setting.id z <? Setting.id y) eqn:Lt; intros [= <-].
      * apply Z.ltb_lt in Lt. repeat split; auto.
        intros r [<- | Hr] Pr; [lia|now apply Hle].
      * apply Z.ltb_ge in Lt. repeat split; auto.
        intros r [<- | Hr] Pr; [lia|]. specialize (Hle r Hr Pr). lia.
    + intros [= <-]. repeat split; auto.
      intros r [<- | Hr] Pr; [lia|].
      exfalso. clear IH. induction t as [|z t IHt]; [contradiction|].
      simpl in L. destruct Hr as [<- | Hr].
      * rewrite Pr in L. now destruct (least p t) as [w|]; [destruct (_ <? _)|].
      * destruct (p z); [now destruct (least p t) as [w|]; [destruct (_ <? _)|]|].
        now apply IHt.
  - intros L. destruct (IH x L) as (Hin & Hp & Hle). repeat split; auto.
    intros r [<- | Hr] Pr; [congruence|now apply Hle].
Qed.

Lemma least_none p t : least p t = None -> forall r, In r t -> p r = false.
Proof.
  induction t as [|y t IH]; [contradiction|]. simpl.
  destruct (p y) eqn:Py.
  - now destruct (least p t) as [w|]; [destruct (_ <? _)|].
  - intros L r [<- | Hr]; [exact Py|now apply IH].
Qed.

Lemma find_id_in t x : In x t -> exists y, find (fun r => Setting.id r =? Setting.id x) t = Some y.
Proof.
  intros H. destruct (find _ t) as [y|] eqn:F; [now exists y|].
  exfalso. apply (find_none _ _ F) in H. now rewrite Z.eqb_refl in H.
Qed.

Lemma DELETE_effect store session settingId db r db' u :
  requester session = Some u ->
  DELETE store session settingId db = (r, db') ->
  exists reply, r = Ok reply /\ delete_effect u settingId (rows db) reply (rows db').
Proof.
  intros Hu H. destruct session as [s|e]; [|discriminate]. simpl in Hu.
  unfold DELETE in H. apply run_handler in H as (r1 & E & ->).
  eexists. split; [reflexivity|].
  apply run_bind in E as [(e & E & _) | (s' & d0 & E0 & E)];
    [apply run_of_result in E as [X _]; discriminate|].
  apply run_of_result in E0 as [[= <-] ->]. rewrite Hu in E.
  destruct settingId as [text|].
  2:{ apply run_ret in E as [-> ->]. left. split; [reflexivity|]. right. auto. }
  destruct (Str.is_empty text) eqn:Empty.
  { apply run_ret in E as [-> ->]. left. split; [reflexivity|]. right.
    split; [reflexivity|]. right. destruct text; [reflexivity|discriminate]. }
  cbv zeta in E. set (i := parseInt_text text) in *.
  (* the row is looked for *)
  apply run_bind in E as [(e & E & ->) | (setting & d1 & E1 & E)].
  { apply run_call in E as [_ [(e2 & _ & R) | (a & X & _)]]; [|discriminate].
    left. split; [exact R|now left]. }
  apply run_call in E1 as [_ [(e2 & X & _) | (a & Ha & X)]]; [discriminate|].
  injection Ha as <-. unfold findFirst in X. injection X as Hfind R1.
  right. exists text. split; [reflexivity|]. split; [now intros ->|].
  fold i. cbv zeta. rewrite R1 in *. clear R1.
  destruct setting as [setting|].
  2:{ apply run_ret in E as [-> ->]. left. split; [reflexivity|].
      split; [reflexivity|]. intros r Hr Hi Hu'.
      apply (find_none _ _ Hfind) in Hr. rewrite Hi, Hu', Z.eqb_refl in Hr.
      discriminate. }
  apply find_some in Hfind as [Hin Hp].
  apply andb_true_iff in Hp as [Hi Hp]. apply Z.eqb_eq in Hp.
  right. exists setting. split; [exact Hin|]. split; [exact Hi|].
  split; [exact Hp|].
  (* the rows of the user are counted *)
  apply run_bind in E as [(e & E & ->) | (total & d2 & E2 & E)].
  { apply run_call in E as [_ [(e2 & _ & R) | (a & X & _)]]; [|discriminate].
    right. left. split; [exact R|reflexivity]. }
  apply run_call in E2 as [_ [(e2 & X & _) | (a & Ha & X)]]; [discriminate|].
  injection Ha as <-. unfold count in X. injection X as Htotal R2.
  rewrite R2 in *. clear R2. fold (mine u (rows d2)) in Htotal.
  destruct (total <=? 1) eqn:Le.
  { apply run_ret in E as [-> ->]. left. split; [reflexivity|].
    split; [reflexivity|]. apply Z.leb_le in Le. lia. }
  apply Z.leb_gt in Le. right. right. split; [lia|].
  (* another row is made the default *)
  apply run_bind in E as [(e & E & ->) | ([] & d3 & E3 & E)].
  { left. split; [|reflexivity].
    destruct (Setting.isDefault setting) eqn:Def.
    2:{ apply run_ret in E as [X _]. discriminate. }
    apply run_bind in E as [(e2 & E & _) | (next & d3 & E3 & E)].
    { apply run_call in E as [_ [(e3 & _ & R) | (a & X & _)]]; [|discriminate].
      now left. }
    apply run_call in E3 as [_ [(e2 & X & _) | (a & Ha & X)]]; [discriminate|].
    injection Ha as <-. unfold findFirst_by_id in X. injection X as Hnext R3.
    destruct next as [next|].
    2:{ apply run_ret in E as [X _]. discriminate. }
    apply run_bind in E as [(e2 & E & _) | (? & d4 & E4 & E)].
    2:{ apply run_ret in E as [X _]. discriminate. }
    apply run_call in E as [_ [(e3 & _ & R) | (a & X & _)]]; [|discriminate].
    left. congruence. }
  assert (T3 : rows d3 = promoted u i setting (rows d2)).
  { unfold promoted. destruct (Setting.isDefault setting) eqn:Def.
    2:{ now apply run_ret in E3 as [_ ->]. }
    apply run_bind in E3 as [(e2 & _ & X) | (next & d4 & E4 & E3)]; [discriminate|].
    apply run_call in E4 as [_ [(e2 & X & _) | (a & Ha & X)]]; [discriminate|].
    injection Ha as <-. unfold findFirst_by_id in X. injection X as Hnext R4.
    rewrite Hnext. destruct next as [next|].
    2:{ apply run_ret in E3 as [_ ->]. now symmetry. }
    apply run_bind in E3 as [(e2 & _ & X) | (? & d5 & E5 & E3)]; [discriminate|].
    apply run_ret in E3 as [_ ->].
    apply run_call in E5 as [_ [(e2 & X & _) | (a & Ha & X)]]; [discriminate|].
    unfold update in X. destruct (find _ _); [|discriminate].
    injection X as _ <-. now rewrite R4. }
  clear E3.
  (* the row is deleted *)
  apply run_bind in E as [(e & E & ->) | ([] & d4 & E4 & E)].
  { apply run_call in E as [_ [(e2 & _ & R) | (a & X & _)]]; [|discriminate].
    left. split; [|reflexivity]. right. now rewrite R. }
  apply run_ret in E as [-> ->].
  apply run_call in E4 as [_ [(e2 & X & _) | (a & Ha & X)]]; [discriminate|].
  unfold delete in X. destruct (find _ _); [|discriminate].
  injection X as _ <-. right.
  split; [now rewrite T3|reflexivity].
Qed.

End DeleteFacts.

(** ** Company settings: the rows of the other users *)

Module IsolationFacts.
Import Settings SettingsFacts PostFacts DeleteFacts.

Lemma has_id_same i r x :
  has_id i r = true -> has_id i x = true -> Setting.id r = Setting.id x.
Proof.
  unfold has_id, Num.eqb, Num.of_Z. destruct i as [| |q]; try discriminate.
  intros H1 H2. apply Qeq_bool_iff in H1, H2.
  assert (E : (inject_Z (Setting.id r) == inject_Z (Setting.id x))%Q) by now rewrite H1, H2.
  unfold Qeq in E. simpl in E. lia.
Qed.

Lemma in_updated r i f t :
  In r (updated i f t) -> exists r0, In r0 t /\ (r = r0 \/ r = f r0 /\ Setting.id r0 = i).
Proof.
  unfold updated. intros H. apply in_map_iff in H as (r0 & <- & H).
  exists r0. split; [exact H|]. destruct (Setting.id r0 =? i) eqn:E; [|now left].
  right. split; [reflexivity|now apply Z.eqb_eq].
Qed.

Lemma others_promoted u i setting t :
  unique_ids t -> others u (promoted u i setting t) = others u t.
Proof.
  intros N. unfold promoted. destruct (Setting.isDefault setting); [|reflexivity].
  destruct (least _ t) as [next|] eqn:L; [|reflexivity].
  apply least_spec in L as (Hin & Hp & _).
  apply andb_true_iff in Hp as [Hp _]. apply Z.eqb_eq in Hp.
  now apply others_update.
Qed.

Lemma unique_promoted u i setting t :
  unique_ids t -> unique_ids (promoted u i setting t).
Proof.
  intros N. unfold promoted. destruct (Setting.isDefault setting); [|exact N].
  destruct (least _ t) as [next|]; [|exact N]. now apply unique_updated.
Qed.

Lemma in_promoted u i setting t r :
  In r (promoted u i setting t) ->
  exists r0, In r0 t /\ Setting.id r = Setting.id r0 /\ Setting.userId r = Setting.userId r0.
Proof.
  unfold promoted. destruct (Setting.isDefault setting); [|now exists r].
  destruct (least _ t) as [next|]; [|now exists r].
  intros H. apply in_updated in H as (r0 & H0 & [-> | [-> _]]); now exists r0.
Qed.

Lemma others_removed u i setting t :
  unique_ids t -> In setting t -> has_id i setting = true ->
  Setting.userId setting = u ->
  others u (without i (promoted u i setting t)) = others u t.
Proof.
  intros N Hin Hi Hu. rewrite others_delete; [now apply others_promoted|].
  intros r Hr Hr'. apply in_promoted in Hr as (r0 & H0 & E1 & E2).
  assert (r0 = setting) as ->.
  { apply (unique_row t); auto. rewrite <- E1.
    apply (has_id_same i); [exact Hr'|exact Hi]. }
  congruence.
Qed.

End IsolationFacts.

Import Settings SettingsFacts PostFacts DeleteFacts IsolationFacts.

(** X23: no handler of [/api/company-settings] touches the settings of
    another user.  For a request with a session, [GET] leaves the table as
    it is, and after [POST] and after [DELETE] the rows of the other users
    are what they were, in the same order, whatever the body, the
    parameter and the answers of the store; without a session (none, one
    without an [id], or [getSession] failing) no handler calls the store.
    The identifiers of the table are unique. *)
Theorem settings_leave_other_users_alone
    (store : Store) (session : result (option Session)) (body : result json)
    (settingId : option string) (db : Db) :
  unique_ids (rows db) ->
  match requester session with
  | Some user =>
      snd (Settings.GET store session db) = {| rows := rows db; calls := S (calls db) |} /\
      others user (rows (snd (Settings.POST store session body db))) = others user (rows db) /\
      others user (rows (snd (Settings.DELETE store session settingId db)))
      = others user (rows db)
  | None =>
      snd (Settings.GET store session db) = db /\
      snd (Settings.POST store session body db) = db /\
      snd (Settings.DELETE store session settingId db) = db
  end.
Proof.
  intros N. destruct (requester session) as [u|] eqn:Hu.
  - split; [|split].
    + destruct session as [s|e]; [|discriminate]. simpl in Hu.
      unfold GET, try_catch, bind, of_result, ret. rewrite Hu.
      unfold call, findMany. now destruct (rejects store (calls db)).
    + destruct (POST store session body db) as [r db'] eqn:E.
      apply (POST_effect _ _ _ _ _ _ u Hu N) in E as (reply & _ & t1 & T1 & H).
      simpl.
      assert (O1 : others u t1 = others u (rows db)).
      { destruct T1 as [-> | ->]; [reflexivity|apply others_clear]. }
      assert (N1 : unique_ids t1).
      { destruct T1 as [-> | ->]; [exact N|now apply unique_cleared]. }
      destruct H as [[-> _] | [(x & name & flag & cols & msg & Hin & Hx & _ & H) |
                                (new & msg & Hn & _ & -> & _)]].
      * exact O1.
      * cbv zeta in H. destruct H as [-> _]. now rewrite others_update.
      * now rewrite others_app.
    + destruct (DELETE store session settingId db) as [r db'] eqn:E.
      apply (DELETE_effect _ _ _ _ _ _ u Hu) in E as (reply & _ & H). simpl.
      destruct H as [[-> _] | (text & _ & _ & H)]; [reflexivity|].
      cbv zeta in H.
      destruct H as [[-> _] | (x & Hin & Hi & Hx & H)]; [reflexivity|].
      destruct H as [[-> _] | [[-> _] | (_ & [[[-> | ->] _] | [-> _]])]].
      * reflexivity.
      * reflexivity.
      * reflexivity.
      * now apply others_promoted.
      * now apply others_removed.
  - destruct session as [s|e];
      cbv beta iota delta [GET POST DELETE try_catch bind of_result ret];
      [simpl in Hu; rewrite Hu|]; repeat split.
Qed.

Lemma settings_leave_other_users_alone_witness :
  others 7 (rows (snd (Settings.POST settings_store session_7 (Ok delta_body) settings_db)))
  = [gamma_row] /\
  others 7 (rows (snd (Settings.DELETE settings_store session_7 (Some "1") settings_db)))
  = [gamma_row].
Proof.
  pose proof (settings_leave_other_users_alone settings_store session_7
                (Ok delta_body) (Some "1") settings_db settings_db_unique) as H.
  exact (proj2 H).
Defined.

(** ** Company settings: the default setting *)

Module DefaultFacts.
Import Settings SettingsFacts PostFacts DeleteFacts IsolationFacts.

Lemma defaults_cons u r t :
  defaults u (r :: t)
  = if (Setting.userId r =? u) && Setting.isDefault r then r :: defaults u t
    else defaults u t.
Proof.
  unfold defaults, mine. simpl. destruct (Setting.userId r =? u); [|reflexivity].
  simpl. now destruct (Setting.isDefault r).
Qed.

Lemma defaults_app u t1 t2 :
  defaults u (t1 ++ t2) = (defaults u t1 ++ defaults u t2)%list.
Proof. unfold defaults, mine. now rewrite !filter_app. Qed.

Lemma defaults_cleared u t : defaults u (cleared u t) = [].
Proof.
  induction t as [|r t IH]; [reflexivity|]. unfold cleared in *. simpl.
  rewrite defaults_cons, IH.
  destruct (Setting.userId r =? u) eqn:E; simpl; rewrite E; [reflexivity|].
  reflexivity.
Qed.

(** A change of one row that takes the flag away leaves no more defaults
    than there were. *)
Lemma defaults_unset u i f t :
  (forall r, Setting.userId (f r) = Setting.userId r) ->
  (forall r, Setting.isDefault (f r) = false) ->
  (List.length (defaults u (updated i f t)) <= List.length (defaults u t))%nat.
Proof.
  intros Hu Hf. induction t as [|r t IH]; [apply Nat.le_refl|].
  unfold updated in *. simpl. rewrite !defaults_cons.
  destruct (Setting.id r =? i).
  - rewrite Hu, Hf, andb_false_r.
    destruct ((Setting.userId r =? u) && Setting.isDefault r); simpl; lia.
  - destruct ((Setting.userId r =? u) && Setting.isDefault r); simpl; lia.
Qed.

(** A change of the row [x] that sets the flag, in a table where the user
    has no default, leaves that row as the one default. *)
Lemma updated_elsewhere i f t :
  ~ In i (map Setting.id t) -> updated i f t = t.
Proof.
  intros H. unfold updated. rewrite <- (map_id t) at 2.
  apply map_ext_in. intros r Hr.
  destruct (Setting.id r =? i) eqn:E; [|reflexivity].
  exfalso. apply H. apply Z.eqb_eq in E. rewrite <- E. now apply in_map.
Qed.

Lemma defaults_set u x f t :
  unique_ids t -> In x t -> Setting.userId x = u ->
  (forall r, Setting.userId (f r) = Setting.userId r) ->
  (forall r, Setting.isDefault (f r) = true) ->
  defaults u t = [] ->
  defaults u (updated (Setting.id x) f t) = [f x].
Proof.
  intros N Hx Hu Hfu Hf D.
  induction t as [|r t IH]; [contradiction|].
  inversion N as [|? ? Hn N']; subst.
  rewrite defaults_cons in D.
  assert (D' : defaults (Setting.userId x) t = []).
  { now destruct ((Setting.userId r =? Setting.userId x) && Setting.isDefault r). }
  change (updated (Setting.id x) f (r :: t))
    with ((if Setting.id r =? Setting.id x then f r else r) :: updated (Setting.id x) f t).
  rewrite defaults_cons.
  destruct Hx as [-> | Hx].
  - rewrite Z.eqb_refl, Hfu, Hf, Z.eqb_refl. simpl.
    now rewrite updated_elsewhere, D'.
  - destruct (Setting.id r =? Setting.id x) eqn:E.
    { exfalso. apply Hn. apply Z.eqb_eq in E. rewrite E. now apply in_map. }
    destruct ((Setting.userId r =? Setting.userId x) && Setting.isDefault r); [discriminate|].
    now apply IH.
Qed.

End DefaultFacts.

Import Settings SettingsFacts PostFacts DeleteFacts IsolationFacts DefaultFacts.

(** X24: a user who has one default setting at most has one at most after
    [POST], whatever the outcome; and when [POST] answers with a setting
    that is a default, that setting is the only default of the user. *)
Theorem settings_POST_keeps_one_default
    (store : Store) (session : result (option Session)) (body : result json)
    (db : Db) (user : Z) :
  requester session = Some user ->
  unique_ids (rows db) ->
  (List.length (defaults user (rows db)) <= 1)%nat ->
  let after := rows (snd (Settings.POST store session body db)) in
  (List.length (defaults user after) <= 1)%nat /\
  forall setting message,
    fst (Settings.POST store session body db) = Ok (Saved setting message) ->
    Setting.isDefault setting = true ->
    defaults user after = [setting].
Proof.
  intros Hu N D after. subst after.
  destruct (POST store session body db) as [r db'] eqn:E.
  apply (POST_effect _ _ _ _ _ _ user Hu N) in E as (reply & -> & t1 & T1 & H).
  cbn [fst snd].
  assert (D1 : (List.length (defaults user t1) <= 1)%nat).
  { destruct T1 as [-> | ->]; [exact D|]. rewrite defaults_cleared. simpl. lia. }
  assert (N1 : unique_ids t1).
  { destruct T1 as [-> | ->]; [exact N|now apply unique_cleared]. }
  destruct H as [[-> (st & er & ->)] |
                 [(x & name & flag & cols & msg & Hin & Hx & C & H) |
                  (new & msg & Hn & C & -> & ->)]].
  - split; [exact D1|discriminate].
  - cbv zeta in H. destruct H as [-> ->]. destruct flag.
    + rewrite (defaults_set user x); auto.
      * split; [simpl; lia|]. now intros s m [= <- _].
      * rewrite (C eq_refl). apply defaults_cleared.
    + split.
      * etransitivity; [apply defaults_unset; auto|exact D1].
      * intros s m [= <- _]. discriminate.
  - rewrite defaults_app, defaults_cons, Hn, Z.eqb_refl. simpl.
    destruct (Setting.isDefault new) eqn:Dn.
    + rewrite (C eq_refl), defaults_cleared. simpl.
      split; [lia|]. now intros s m [= <- _].
    + rewrite app_nil_r. split; [exact D1|].
      intros s m [= <- _]. congruence.
Qed.

Lemma settings_POST_keeps_one_default_witness :
  (List.length (defaults 7
     (rows (snd (Settings.POST settings_store session_7 (Ok delta_body) settings_db))))
   <= 1)%nat.
Proof.
  apply (settings_POST_keeps_one_default settings_store session_7 (Ok delta_body)
           settings_db 7 eq_refl settings_db_unique).
  simpl. lia.
Defined.

(** ** Company settings: deleting *)

Module RemoveFacts.
Import Settings SettingsFacts PostFacts DeleteFacts IsolationFacts DefaultFacts.

Lemma has_id_eq i r x :
  Setting.id r = Setting.id x -> has_id i r = has_id i x.
Proof. unfold has_id. now intros ->. Qed.

Lemma without_updated i j g t :
  (forall r, Setting.id (g r) = Setting.id r) ->
  without i (updated j g t) = updated j g (without i t).
Proof.
  intros Hg. unfold without, updated. induction t as [|r t IH]; [reflexivity|].
  simpl. rewrite IH.
  assert (E : has_id i (if Setting.id r =? j then g r else r) = has_id i r).
  { apply has_id_eq. destruct (Setting.id r =? j); [apply Hg|reflexivity]. }
  rewrite E. now destruct (has_id i r).
Qed.

Lemma flags_updated j b t :
  map (set_default false) (updated j (set_default b) t)
  = map (set_default false) t.
Proof.
  unfold updated. rewrite map_map. apply map_ext. intros r.
  now destruct (Setting.id r =? j).
Qed.

Lemma flags_promoted u i setting t :
  map (set_default false) (without i (promoted u i setting t))
  = map (set_default false) (without i t).
Proof.
  unfold promoted. destruct (Setting.isDefault setting); [|reflexivity].
  destruct (least _ t) as [next|]; [|reflexivity].
  now rewrite without_updated, flags_updated.
Qed.

Lemma mine_length_flags u t t' :
  map (set_default false) t' = map (set_default false) t ->
  List.length (mine u t') = List.length (mine u t).
Proof.
  revert t'. induction t as [|r t IH]; intros [|r' t']; try discriminate;
    [reflexivity|].
  simpl. intros [= E1 E2 E3 E4 E]. unfold mine in *. simpl. rewrite E2.
  specialize (IH t' E). destruct (Setting.userId r =? u); simpl; now rewrite IH.
Qed.

(** With identifiers that are unique, deleting takes one row away. *)
Lemma mine_without u i x t :
  unique_ids t -> In x t -> has_id i x = true -> Setting.userId x = u ->
  (List.length (mine u (without i t)) + 1 = List.length (mine u t))%nat.
Proof.
  intros N Hx Hi Hu. unfold mine, without.
  induction t as [|r t IH]; [contradiction|].
  inversion N as [|? ? Hn N']; subst. simpl.
  destruct Hx as [-> | Hx].
  - rewrite Hi, Z.eqb_refl. simpl.
    assert (E : filter (fun r => negb (has_id i r)) t = t).
    { clear IH. apply forallb_filter_id. apply forallb_forall. intros r Hr.
      destruct (has_id i r) eqn:E; [|reflexivity].
      exfalso. apply Hn. rewrite <- (has_id_same i r x E Hi). now apply in_map. }
    rewrite E. lia.
  - destruct (has_id i r) eqn:E.
    { exfalso. apply Hn. rewrite (has_id_same i r x E Hi). now apply in_map. }
    simpl. destruct (Setting.userId r =? Setting.userId x); simpl;
      specialize (IH N' Hx); lia.
Qed.

Lemma in_without i r t : In r (without i t) -> In r t /\ has_id i r = false.
Proof.
  unfold without. intros H. apply filter_In in H as [H1 H2].
  split; [exact H1|]. now destruct (has_id i r).
Qed.

Lemma find_in {A} (p : A -> bool) t x :
  In x t -> p x = true -> exists y, find p t = Some y.
Proof.
  intros Hx Hp. destruct (find p t) as [y|] eqn:F; [now exists y|].
  apply (find_none _ _ F) in Hx. congruence.
Qed.

Lemma in_promoted_kept u i setting t x :
  In x t -> has_id i x = true -> In x (promoted u i setting t).
Proof.
  intros Hx Hi. unfold promoted. destruct (Setting.isDefault setting); [|exact Hx].
  destruct (least _ t) as [next|] eqn:L; [|exact Hx].
  apply least_spec in L as (_ & Hp & _).
  apply andb_true_iff in Hp as [_ Hp]. apply negb_true_iff in Hp.
  unfold updated. apply in_map_iff. exists x. split; [|exact Hx].
  destruct (Setting.id x =? Setting.id next) eqn:E; [|reflexivity].
  apply Z.eqb_eq in E. rewrite (has_id_eq i x next E) in Hi. congruence.
Qed.

Lemma call_accepts {A} store (op : list Setting.t -> result (A * list Setting.t)) db :
  accepts store ->
  call store op db
  = match op (rows db) with
    | Ok (a, t) => (Ok a, {| rows := t; calls := S (calls db) |})
    | Throw e => (Throw e, {| rows := rows db; calls := S (calls db) |})
    end.
Proof. intros H. unfold call. now rewrite H. Qed.

End RemoveFacts.

Import Settings SettingsFacts PostFacts DeleteFacts IsolationFacts DefaultFacts.
Import RemoveFacts.

(** X25: with a store that accepts the calls, [DELETE] asked by the owner
    of a setting, who has two settings or more, with an [id] parameter
    that [parseInt] reads as the identifier of the setting, answers
    "Setting deleted successfully"; afterwards the table is the old one
    without that row, the default flags apart, and the user has one
    setting less. *)
Theorem settings_DELETE_deletes
    (store : Store) (session : result (option Session)) (text : string)
    (db : Db) (user : Z) (setting : Setting.t) :
  accepts store ->
  requester session = Some user ->
  unique_ids (rows db) ->
  In setting (rows db) ->
  Setting.userId setting = user ->
  text <> EmptyString ->
  has_id (parseInt_text text) setting = true ->
  (2 <= List.length (mine user (rows db)))%nat ->
  let after := rows (snd (Settings.DELETE store session (Some text) db)) in
  fst (Settings.DELETE store session (Some text) db)
    = Ok (Deleted "Setting deleted successfully") /\
  map (set_default false) after
    = map (set_default false)
        (filter (fun r => negb (Setting.id r =? Setting.id setting)) (rows db)) /\
  (List.length (mine user after) + 1 = List.length (mine user (rows db)))%nat.
Proof.
  intros A Hu N Hin Hs Ht Hi Two after.
  assert (W : without (parseInt_text text) (rows db)
              = filter (fun r => negb (Setting.id r =? Setting.id setting)) (rows db)).
  { unfold without. apply filter_ext_in. intros r Hr. f_equal.
    destruct (has_id _ r) eqn:E.
    - symmetry. apply Z.eqb_eq. now apply (has_id_same (parseInt_text text)).
    - symmetry. apply Z.eqb_neq. intros E'.
      rewrite (has_id_eq _ r setting E') in E. congruence. }
  assert (G : fst (DELETE store session (Some text) db)
                = Ok (Deleted "Setting deleted successfully") /\
              after = without (parseInt_text text)
                        (promoted user (parseInt_text text) setting (rows db))).
  { subst after. destruct session as [s|e]; [|discriminate]. simpl in Hu.
    unfold DELETE, try_catch, bind, of_result, ret. rewrite Hu.
    destruct text as [|c text]; [contradiction|]. cbn [Str.is_empty].
    set (i := parseInt_text (String c text)) in *. cbv zeta.
    rewrite call_accepts by exact A. unfold findFirst.
    assert (F : find (fun r => has_id i r && (Setting.userId r =? user)) (rows db)
                = Some setting).
    { destruct (find_in (fun r => has_id i r && (Setting.userId r =? user))
                  (rows db) setting Hin) as [y F].
      { now rewrite Hi, Hs, Z.eqb_refl. }
      rewrite F. f_equal. apply find_some in F as [Hy Py].
      apply andb_true_iff in Py as [Py _].
      apply (unique_row (rows db)); auto. now apply (has_id_same i). }
    rewrite F. cbn [rows calls].
    rewrite call_accepts by exact A. unfold count. cbn [rows calls].
    fold (mine user (rows db)).
    destruct (Z.of_nat (List.length (mine user (rows db))) <=? 1) eqn:Le.
    { apply Z.leb_le in Le. lia. }
    unfold promoted. destruct (Setting.isDefault setting) eqn:Def.
    - rewrite call_accepts by exact A. unfold findFirst_by_id. cbn [rows calls].
      destruct (least _ (rows db)) as [next|] eqn:L.
      + rewrite call_accepts by exact A. cbn [rows calls]. unfold update.
        destruct (least_spec _ _ _ L) as (Hn & _).
        destruct (find_id_in _ _ Hn) as [y ->].
        rewrite call_accepts by exact A. cbn [rows calls]. unfold delete.
        destruct (find_in (has_id i) (updated (Setting.id next) (set_default true) (rows db))
                    setting) as [z ->]; [|exact Hi|now split].
        pose proof (in_promoted_kept user i setting (rows db) setting Hin Hi) as K.
        unfold promoted in K. now rewrite Def, L in K.
      + rewrite call_accepts by exact A. cbn [rows calls]. unfold delete.
        destruct (find_in (has_id i) (rows db) setting Hin Hi) as [z ->].
        now split.
    - rewrite call_accepts by exact A. cbn [rows calls]. unfold delete.
      destruct (find_in (has_id i) (rows db) setting Hin Hi) as [z ->].
      now split. }
  destruct G as [G1 G2]. split; [exact G1|].
  assert (Fl : map (set_default false) after
               = map (set_default false) (without (parseInt_text text) (rows db))).
  { rewrite G2. apply flags_promoted. }
  split; [now rewrite Fl, W|].
  rewrite (mine_length_flags user _ _ Fl).
  now apply (mine_without user _ setting).
Qed.

Lemma settings_DELETE_deletes_witness :
  fst (Settings.DELETE settings_store session_7 (Some "2") settings_db)
  = Ok (Deleted "Setting deleted successfully").
Proof.
  apply (settings_DELETE_deletes settings_store session_7 "2" settings_db 7 beta_row);
    try reflexivity; try discriminate; try exact settings_db_unique.
  - intros n. reflexivity.
  - simpl. auto.
Defined.

Module PromoteFacts.
Import Settings SettingsFacts PostFacts DeleteFacts IsolationFacts DefaultFacts.
Import RemoveFacts.

Lemma in_defaults u r t :
  In r (defaults u t) <-> In r t /\ Setting.userId r = u /\ Setting.isDefault r = true.
Proof.
  unfold defaults, mine. rewrite !filter_In, Z.eqb_eq. tauto.
Qed.

Lemma in_mine u r t : In r (mine u t) <-> In r t /\ Setting.userId r = u.
Proof. unfold mine. rewrite filter_In, Z.eqb_eq. tauto. Qed.

Lemma defaults_without u i t :
  defaults u (without i t) = filter (fun r => negb (has_id i r)) (defaults u t).
Proof.
  unfold defaults, mine, without. induction t as [|r t IH]; [reflexivity|].
  simpl. destruct (has_id i r) eqn:Hi, (Setting.userId r =? u) eqn:Hu; simpl;
    rewrite ?Hu; simpl; try (destruct (Setting.isDefault r)); simpl; rewrite ?Hi;
    simpl; now rewrite IH.
Qed.

Lemma filter_nothing {A} (p : A -> bool) l :
  (forall x, In x l -> p x = false) -> filter p l = [].
Proof.
  induction l as [|x l IH]; [reflexivity|]. intros H. simpl.
  rewrite (H x (or_introl eq_refl)). apply IH. intros; apply H; now right.
Qed.

(** When the defaults of the user all have the identifier that is deleted,
    the row that was promoted is the one default that is left. *)
Lemma defaults_promoted u i next t :
  unique_ids t -> In next t -> Setting.userId next = u -> has_id i next = false ->
  (forall r, In r (defaults u t) -> has_id i r = true) ->
  filter (fun r => negb (has_id i r))
    (defaults u (updated (Setting.id next) (set_default true) t))
  = [set_default true next].
Proof.
  intros N Hn Hu Hi D. induction t as [|r t IH]; [contradiction|].
  inversion N as [|? ? Hnot N']; subst.
  change (updated (Setting.id next) (set_default true) (r :: t))
    with ((if Setting.id r =? Setting.id next then set_default true r else r)
          :: updated (Setting.id next) (set_default true) t).
  rewrite defaults_cons.
  assert (D' : forall r0, In r0 (defaults (Setting.userId next) t) -> has_id i r0 = true).
  { intros r0 H0. apply D. rewrite defaults_cons.
    destruct (_ && _); [now right|exact H0]. }
  destruct Hn as [-> | Hn].
  - rewrite Z.eqb_refl. cbn [set_default Setting.userId Setting.isDefault].
    rewrite Z.eqb_refl. cbn [andb filter].
    change (has_id i (set_default true next)) with (has_id i next).
    rewrite Hi. cbn [negb]. f_equal.
    rewrite updated_elsewhere by exact Hnot.
    apply filter_nothing. intros r0 H0. now rewrite (D' r0 H0).
  - destruct (Setting.id r =? Setting.id next) eqn:E.
    { exfalso. apply Hnot. apply Z.eqb_eq in E. rewrite E. now apply in_map. }
    destruct ((Setting.userId r =? Setting.userId next) && Setting.isDefault r) eqn:C.
    + cbn [filter]. rewrite (D r); [cbn [negb]; now apply IH|].
      rewrite defaults_cons, C. now left.
    + now apply IH.
Qed.

End PromoteFacts.

Import Settings SettingsFacts PostFacts DeleteFacts IsolationFacts DefaultFacts.
Import RemoveFacts PromoteFacts.

(** X26: [DELETE] removes nothing when no setting of the requester has
    the identifier read from the parameter (be it the identifier of a
    setting of another user), nor when the requester has one setting at
    most: the table stays as it is and the answer is an error of status
    400, 404 or 500. *)
Theorem settings_DELETE_refuses
    (store : Store) (session : result (option Session)) (text : string)
    (db : Db) (user : Z) :
  requester session = Some user ->
  (forall r, In r (mine user (rows db)) -> has_id (parseInt_text text) r = false)
  \/ (List.length (mine user (rows db)) <= 1)%nat ->
  rows (snd (Settings.DELETE store session (Some text) db)) = rows db /\
  exists status error,
    fst (Settings.DELETE store session (Some text) db) = Ok (Error status error) /\
    (status = 400 \/ status = 404 \/ status = 500).
Proof.
  intros Hu H.
  destruct (DELETE store session (Some text) db) as [r db'] eqn:E.
  apply (DELETE_effect _ _ _ _ _ _ user Hu) in E as (reply & -> & G).
  cbn [fst snd].
  destruct G as [[-> [-> | [-> _]]] | (text' & [= <-] & _ & G)].
  - split; [reflexivity|]. eexists _, _. split; [reflexivity|auto].
  - split; [reflexivity|]. eexists _, _. split; [reflexivity|auto].
  - cbv zeta in G. destruct G as [(-> & -> & _) | (x & Hin & Hi & Hx & G)].
    { split; [reflexivity|]. eexists _, _. split; [reflexivity|auto]. }
    destruct G as [(-> & -> & _) | [(-> & ->) | (Two & G)]].
    + split; [reflexivity|]. eexists _, _. split; [reflexivity|auto].
    + split; [reflexivity|]. eexists _, _. split; [reflexivity|auto].
    + exfalso. destruct H as [H | H]; [|lia].
      rewrite H in Hi; [discriminate|]. now apply in_mine.
Qed.

Lemma settings_DELETE_refuses_witness :
  rows (snd (Settings.DELETE settings_store session_7 (Some "3") settings_db))
  = rows settings_db.
Proof.
  apply (settings_DELETE_refuses settings_store session_7 "3" settings_db 7 eq_refl).
  left. intros r [<- | [<- | []]]; reflexivity.
Defined.


(** X27: when a user who has exactly one default setting deletes a
    setting and [DELETE] answers with success, the user has exactly one
    default afterwards: the same one when another setting was deleted,
    and, when the default itself was deleted, the remaining setting of the
    user with the least identifier. *)
Theorem settings_DELETE_keeps_one_default
    (store : Store) (session : result (option Session)) (text : string)
    (db : Db) (user : Z) (default : Setting.t) (message : string) :
  requester session = Some user ->
  unique_ids (rows db) ->
  defaults user (rows db) = [default] ->
  fst (Settings.DELETE store session (Some text) db) = Ok (Deleted message) ->
  let after := rows (snd (Settings.DELETE store session (Some text) db)) in
  exists default',
    defaults user after = [default'] /\
    if has_id (parseInt_text text) default
    then forall r, In r (mine user after) -> Setting.id default' <= Setting.id r
    else default' = default.
Proof.
  intros Hu N D R after. subst after.
  destruct (DELETE store session (Some text) db) as [r db'] eqn:E.
  apply (DELETE_effect _ _ _ _ _ _ user Hu) in E as (reply & -> & G).
  cbn [fst snd] in *. injection R as ->.
  destruct G as [[_ [X | [X _]]] | (text' & [= <-] & _ & G)]; try discriminate.
  cbv zeta in G. set (i := parseInt_text text) in *.
  destruct G as [(_ & X & _) | (x & Hin & Hi & Hx & G)]; [discriminate|].
  destruct G as [(_ & X & _) | [(_ & X) | (Two & G)]]; try discriminate.
  destruct G as [[_ X] | [-> _]]; [discriminate|].
  assert (Hd : In default (rows db) /\ Setting.userId default = user
               /\ Setting.isDefault default = true).
  { apply in_defaults. rewrite D. now left. }
  destruct Hd as (Hd1 & Hd2 & Hd3).
  rewrite defaults_without.
  destruct (has_id i default) eqn:Hid.
  - (* the default is deleted *)
    assert (x = default) as ->.
    { apply (unique_row (rows db)); auto. now apply (has_id_same i). }
    unfold promoted. rewrite Hd3.
    destruct (least _ (rows db)) as [next|] eqn:L.
    + destruct (least_spec _ _ _ L) as (Hn & Pn & Least).
      apply andb_true_iff in Pn as [Pu Pi]. apply Z.eqb_eq in Pu.
      apply negb_true_iff in Pi.
      exists (set_default true next). split.
      * apply defaults_promoted; auto.
        intros r Hr. rewrite D in Hr. destruct Hr as [<- | []]. exact Hid.
      * intros r Hr. apply in_mine in Hr as [Hr Hru].
        apply in_without in Hr as [Hr Hri].
        apply in_updated in Hr as (r0 & H0 & Hr).
        assert (Setting.id r = Setting.id r0 /\ Setting.userId r = Setting.userId r0
                /\ has_id i r = has_id i r0) as (E1 & E2 & E3).
        { destruct Hr as [-> | [-> _]]; auto. }
        rewrite E1. apply Least; [exact H0|].
        now rewrite <- E2, Hru, Z.eqb_refl, <- E3, Hri.
    + (* there is another row of the user *)
      exfalso. pose proof (least_none _ _ L) as None.
      pose proof (mine_without user i default (rows db) N Hd1 Hid Hd2) as C.
      assert (Z : mine user (without i (rows db)) = []).
      { apply filter_nothing. intros r Hr. apply in_without in Hr as [Hr Hri].
        specialize (None r Hr). cbv beta in None.
        rewrite Hri, andb_true_r in None. exact None. }
      rewrite Z in C. simpl in C. lia.
  - (* another row is deleted *)
    assert (Setting.isDefault x = false) as Def.
    { destruct (Setting.isDefault x) eqn:Dx; [|reflexivity].
      assert (In x (defaults user (rows db))) as Hx' by now apply in_defaults.
      rewrite D in Hx'. destruct Hx' as [<- | []]. congruence. }
    unfold promoted. rewrite Def, D. exists default. cbn [filter].
    now rewrite Hid.
Qed.

Lemma settings_DELETE_keeps_one_default_witness :
  exists default',
    defaults 7 (rows (snd (Settings.DELETE settings_store session_7 (Some "1")
                             settings_db))) = [default'] /\
    forall r,
      In r (mine 7 (rows (snd (Settings.DELETE settings_store session_7 (Some "1")
                                 settings_db)))) ->
      Setting.id default' <= Setting.id r.
Proof.
  exact (settings_DELETE_keeps_one_default settings_store session_7 "1" settings_db 7
           acme_row "Setting deleted successfully" eq_refl settings_db_unique
           eq_refl eq_refl).
Defined.

(** ** Company settings: saving *)

Module SaveFacts.
Import Settings SettingsFacts PostFacts DeleteFacts IsolationFacts DefaultFacts.
Import RemoveFacts PromoteFacts.

Lemma find_exists {A} (p : A -> bool) l :
  existsb p l = match find p l with Some _ => true | None => false end.
Proof.
  induction l as [|x l IH]; [reflexivity|]. simpl. now destruct (p x).
Qed.

(** Clearing the flags does not change which rows have a name. *)
Lemma named_cleared u key t :
  filter (named u key) (cleared u t) = cleared u (filter (named u key) t).
Proof.
  unfold cleared. induction t as [|r t IH]; [reflexivity|].
  cbn [map filter]. rewrite IH.
  assert (E : named u key (if Setting.userId r =? u then set_default false r else r)
              = named u key r).
  { now destruct (Setting.userId r =? u). }
  rewrite E. now destruct (named u key r).
Qed.

Lemma exists_filter {A} (p : A -> bool) l :
  existsb p l = negb (Nat.eqb (List.length (filter p l)) 0).
Proof.
  induction l as [|x l IH]; [reflexivity|]. simpl. now destruct (p x).
Qed.

Lemma updated_length i f t : List.length (updated i f t) = List.length t.
Proof. apply length_map. Qed.

Lemma cleared_length u t : List.length (cleared u t) = List.length t.
Proof. apply length_map. Qed.

Lemma exists_cleared u key t :
  existsb (named u key) (cleared u t) = existsb (named u key) t.
Proof. now rewrite !exists_filter, named_cleared, cleared_length. Qed.

(** The run of [POST] for a request that is well formed, with a store that
    accepts the calls. *)
Lemma POST_run store session body db user name key flag :
  accepts store ->
  requester session = Some user ->
  prop body "companyName" = Some (JStr name) -> name <> EmptyString ->
  Val.truthy (prop body "approverName") = true ->
  Val.truthy (prop body "approverEmail") = true ->
  as_string (default_to (JStr "default") (prop body "setting_name")) = Ok key ->
  as_bool (default_to (JBool false) (prop body "is_default")) = Ok flag ->
  let t1 := if flag then cleared user (rows db) else rows db in
  let f r := {| Setting.id := Setting.id r; Setting.userId := Setting.userId r;
                Setting.companyName := name; Setting.isDefault := flag;
                Setting.columns := merge (Setting.columns r) (columns_of body) |} in
  let new := {| Setting.id := new_id store t1; Setting.userId := user;
                Setting.companyName := name; Setting.isDefault := flag;
                Setting.columns := columns_of body |} in
  exists n,
  POST store session (Ok body) db
  = match find (named user key) t1 with
    | Some existing =>
        match find (fun r => Setting.id r =? Setting.id existing) t1 with
        | Some x =>
            (Ok (Saved (f x) "Setting updated successfully"),
             {| rows := updated (Setting.id existing) f t1; calls := n |})
        | None => (Ok (Error 500 "Internal Server Error"),
                   {| rows := t1; calls := n |})
        end
    | None =>
        (Ok (Saved new "Setting created successfully"),
         {| rows := (t1 ++ [new])%list; calls := n |})
    end.
Proof.
  intros A Hu Hname Hne Han Hae Hkey Hflag t1 f new.
  destruct session as [s|e]; [|discriminate]. simpl in Hu.
  unfold POST, try_catch, bind, of_result, ret. rewrite Hu.
  assert (Hb : destructure body = Ok body).
  { destruct body; try reflexivity. discriminate. }
  rewrite Hb. cbv zeta. rewrite Hname, Han, Hae, Hkey, Hflag.
  assert (Tn : Val.truthy (Some (JStr name)) = true).
  { simpl. now destruct name. }
  rewrite Tn. cbn [negb orb].
  rewrite (truthy_flag _ _ Hflag).
  set (d1 := if flag then {| rows := cleared user (rows db); calls := S (calls db) |}
             else db).
  assert (S1 : (if flag then call store (clear_defaults user) else (fun db => (Ok tt, db))) db
               = (Ok tt, d1)).
  { unfold d1. destruct flag; [|reflexivity]. now rewrite call_accepts. }
  rewrite S1. rewrite call_accepts by exact A. unfold findFirst.
  assert (R1 : rows d1 = t1) by (unfold d1, t1; now destruct flag).
  rewrite R1. cbn [rows calls]. fold (named user key).
  exists (S (S (calls d1))).
  destruct (find (named user key) t1) as [existing|] eqn:F.
  - cbn [as_string]. rewrite call_accepts by exact A. cbn [rows calls].
    unfold update. fold f.
    now destruct (find (fun r => Setting.id r =? Setting.id existing) t1) as [x|].
  - cbn [as_string]. rewrite call_accepts by exact A. cbn [rows calls].
    unfold create. reflexivity.
Qed.

End SaveFacts.

Import Settings SettingsFacts PostFacts DeleteFacts IsolationFacts DefaultFacts.
Import RemoveFacts PromoteFacts SaveFacts.

(** X28: with a store that accepts the calls, [POST] with a body whose
    [companyName] is a string that is not empty, whose [approverName] and
    [approverEmail] are truthy, whose [setting_name] is a string or absent
    and whose [is_default] is a boolean or absent, answers with the
    setting saved: a row of the table afterwards, of the requester, with
    that company name and that flag.  A setting of the requester whose
    company name is [setting_name] ("default" when absent) is updated, and
    the table keeps its size; when there is none a row is added. *)
Theorem settings_POST_saves
    (store : Store) (session : result (option Session)) (body : json)
    (db : Db) (user : Z) (name key : string) (flag : bool) :
  accepts store ->
  requester session = Some user ->
  unique_ids (rows db) ->
  prop body "companyName" = Some (JStr name) -> name <> EmptyString ->
  Val.truthy (prop body "approverName") = true ->
  Val.truthy (prop body "approverEmail") = true ->
  as_string (default_to (JStr "default") (prop body "setting_name")) = Ok key ->
  as_bool (default_to (JBool false) (prop body "is_default")) = Ok flag ->
  let after := rows (snd (Settings.POST store session (Ok body) db)) in
  exists setting message,
    fst (Settings.POST store session (Ok body) db) = Ok (Saved setting message) /\
    In setting after /\
    Setting.userId setting = user /\ Setting.companyName setting = name /\
    Setting.isDefault setting = flag /\
    if existsb (named user key) (rows db)
    then message = "Setting updated successfully"
         /\ List.length after = List.length (rows db)
    else message = "Setting created successfully"
         /\ List.length after = S (List.length (rows db)).
Proof.
  intros A Hu N Hname Hne Han Hae Hkey Hflag after. subst after.
  destruct (POST_run store session body db user name key flag)
    as [n ->]; auto.
  set (t1 := if flag then cleared user (rows db) else rows db).
  assert (N1 : unique_ids t1).
  { unfold t1. destruct flag; [now apply unique_cleared|exact N]. }
  assert (L1 : List.length t1 = List.length (rows db)).
  { unfold t1. destruct flag; [apply cleared_length|reflexivity]. }
  assert (X1 : existsb (named user key) (rows db) = existsb (named user key) t1).
  { unfold t1. destruct flag; [|reflexivity]. now rewrite exists_cleared. }
  rewrite X1, find_exists.
  destruct (find (named user key) t1) as [existing|] eqn:F.
  - apply find_some in F as [Hin Hp].
    apply andb_true_iff in Hp as [Hp _]. apply Z.eqb_eq in Hp.
    destruct (find (fun r => Setting.id r =? Setting.id existing) t1) as [x|] eqn:Fx.
    2:{ exfalso. apply (find_none _ _ Fx) in Hin. now rewrite Z.eqb_refl in Hin. }
    assert (x = existing) as ->.
    { apply find_some in Fx as [Hx Ex]. apply Z.eqb_eq in Ex.
      now apply (unique_row t1). }
    cbn [fst snd rows]. eexists _, _. split; [reflexivity|].
    split.
    { unfold updated. apply in_map_iff. exists existing.
      now rewrite Z.eqb_refl. }
    cbn [Setting.userId Setting.companyName Setting.isDefault].
    repeat split; auto. now rewrite updated_length.
  - cbn [fst snd rows]. eexists _, _. split; [reflexivity|].
    split; [apply in_or_app; right; now left|].
    cbn [Setting.userId Setting.companyName Setting.isDefault].
    repeat split; auto. rewrite length_app. simpl. lia.
Qed.

Lemma settings_POST_saves_witness :
  exists setting,
    fst (Settings.POST settings_store session_7 (Ok delta_body) settings_db)
    = Ok (Saved setting "Setting created successfully") /\
    Setting.companyName setting = "Delta" /\ Setting.isDefault setting = true.
Proof.
  destruct (settings_POST_saves settings_store session_7 delta_body settings_db 7
              "Delta" "default" true) as (setting & message & H1 & _ & _ & H2 & H3 & H4 & _);
    try reflexivity; try discriminate.
  - intros n. reflexivity.
  - exact settings_db_unique.
  - exists setting. rewrite H1, H4. auto.
Defined.


(** X29: the row to update is looked for under [setting_name] and saved
    under [companyName].  So when the two differ and the requester has no
    setting named [setting_name] ("default" when absent), sending the same
    body twice creates two settings: the second answer is again "Setting
    created successfully", and the requester has two more settings of that
    company name than before. *)
Theorem settings_POST_twice_saves_twice
    (store : Store) (session : result (option Session)) (body : json)
    (db : Db) (user : Z) (name key : string) (flag : bool) :
  accepts store ->
  requester session = Some user ->
  prop body "companyName" = Some (JStr name) -> name <> EmptyString ->
  Val.truthy (prop body "approverName") = true ->
  Val.truthy (prop body "approverEmail") = true ->
  as_string (default_to (JStr "default") (prop body "setting_name")) = Ok key ->
  as_bool (default_to (JBool false) (prop body "is_default")) = Ok flag ->
  key <> name ->
  existsb (named user key) (rows db) = false ->
  let once := snd (Settings.POST store session (Ok body) db) in
  let twice := snd (Settings.POST store session (Ok body) once) in
  (exists setting,
     fst (Settings.POST store session (Ok body) once)
     = Ok (Saved setting "Setting created successfully")) /\
  List.length (filter (named user name) (rows twice))
  = S (S (List.length (filter (named user name) (rows db)))).
Proof.
  intros A Hu Hname Hne Han Hae Hkey Hflag Hdiff Hnone once twice.
  subst twice once.
  destruct (POST_run store session body db user name key flag)
    as [n ->]; auto.
  set (t1 := if flag then cleared user (rows db) else rows db).
  assert (X1 : existsb (named user key) t1 = false).
  { unfold t1. destruct flag; [|exact Hnone]. now rewrite exists_cleared. }
  assert (C1 : List.length (filter (named user name) t1)
               = List.length (filter (named user name) (rows db))).
  { unfold t1. destruct flag; [|reflexivity].
    now rewrite named_cleared, cleared_length. }
  pose proof X1 as F1. rewrite find_exists in F1.
  destruct (find (named user key) t1) as [existing|]; [discriminate|].
  cbn [snd]. set (first := {| Setting.id := new_id store t1 |}).
  set (db1 := {| rows := (t1 ++ [first])%list |}).
  destruct (POST_run store session body db1 user name key flag)
    as [n' ->]; auto.
  cbn [rows db1].
  set (t2 := if flag then cleared user (t1 ++ [first]) else (t1 ++ [first])%list).
  assert (Kf : named user key first = false).
  { unfold named, first. cbn [Setting.userId Setting.companyName].
    rewrite Z.eqb_refl. cbn [andb]. apply String.eqb_neq. congruence. }
  assert (Nf : forall i, named user name
            {| Setting.id := i; Setting.userId := user; Setting.companyName := name;
               Setting.isDefault := flag; Setting.columns := columns_of body |} = true).
  { intros i. unfold named. cbn [Setting.userId Setting.companyName].
    now rewrite Z.eqb_refl, String.eqb_refl. }
  assert (X2 : existsb (named user key) t2 = false).
  { unfold t2. destruct flag; [rewrite exists_cleared|];
      rewrite existsb_app; cbn [existsb]; now rewrite Kf, X1. }
  assert (C2 : List.length (filter (named user name) t2)
               = S (List.length (filter (named user name) t1))).
  { assert (C : List.length (filter (named user name) (t1 ++ [first]))
                = S (List.length (filter (named user name) t1))).
    { rewrite filter_app, length_app. cbn [filter]. unfold first.
      rewrite Nf. simpl. lia. }
    unfold t2. destruct flag; [|exact C].
    now rewrite named_cleared, cleared_length. }
  rewrite find_exists in X2.
  destruct (find (named user key) t2) as [existing|]; [discriminate|].
  cbn [fst snd rows]. split; [eexists; reflexivity|].
  rewrite filter_app, length_app. cbn [filter]. rewrite Nf.
  simpl. lia.
Qed.

Lemma settings_POST_twice_saves_twice_witness :
  List.length (filter (named 7 "Delta")
    (rows (snd (Settings.POST settings_store session_7 (Ok delta_body)
             (snd (Settings.POST settings_store session_7 (Ok delta_body) settings_db))))))
  = 2%nat.
Proof.
  apply (settings_POST_twice_saves_twice settings_store session_7 delta_body settings_db 7
           "Delta" "default" true);
    try reflexivity; try discriminate. intros n. reflexivity.
Defined.

(** ** Company settings: listing *)

Module ListFacts.
Import Settings SettingsFacts.

Lemma insert_perm le r l : Permutation (insert le r l) (r :: l).
Proof.
  induction l as [|x l IH]; [reflexivity|]. simpl.
  destruct (le r x); [reflexivity|].
  rewrite IH. apply perm_swap.
Qed.

Lemma sort_perm le l : Permutation (sort le l) l.
Proof.
  induction l as [|x l IH]; [reflexivity|]. simpl.
  rewrite insert_perm. now apply perm_skip.
Qed.

Lemma insert_in le r l y : In y (insert le r l) -> y = r \/ In y l.
Proof.
  intros H. apply (Permutation_in _ (insert_perm le r l)) in H.
  destruct H as [<- | H]; auto.
Qed.

Lemma insert_ordered store r l :
  ordered l -> ordered (insert (before store) r l).
Proof.
  induction l as [|x l IH]; [now split|]. intros [Hx Hl]. simpl.
  destruct (before store r x) eqn:B.
  - split; [|now split]. intros Hr y [<- | Hy].
    + unfold before in B. rewrite Hr in B.
      destruct (Setting.isDefault x); [discriminate|reflexivity].
    + apply Hx; [|exact Hy]. unfold before in B. rewrite Hr in B.
      destruct (Setting.isDefault x); [discriminate|reflexivity].
  - split; [|now apply IH]. intros Dx y Hy.
    apply insert_in in Hy as [-> | Hy]; [|now apply Hx].
    unfold before in B. rewrite Dx in B.
    destruct (Setting.isDefault r); [discriminate|reflexivity].
Qed.

Lemma sort_ordered store l : ordered (sort (before store) l).
Proof.
  induction l as [|x l IH]; [exact I|]. simpl. now apply insert_ordered.
Qed.

Lemma ordered_first l : ordered l -> defaults_first l.
Proof.
  unfold defaults_first. induction l as [|x l IH]; [reflexivity|].
  intros [Hx Hl]. simpl. destruct (Setting.isDefault x) eqn:D; simpl.
  - f_equal. now apply IH.
  - specialize (Hx eq_refl).
    assert (E1 : filter Setting.isDefault l = []).
    { clear IH Hl. induction l as [|y l IH]; [reflexivity|]. simpl.
      rewrite (Hx y (or_introl eq_refl)). apply IH. intros; apply Hx; now right. }
    assert (E2 : filter (fun r => negb (Setting.isDefault r)) l = l).
    { clear IH Hl E1. induction l as [|y l IH]; [reflexivity|]. simpl.
      rewrite (Hx y (or_introl eq_refl)). simpl. f_equal.
      apply IH. intros; apply Hx; now right. }
    now rewrite E1, E2.
Qed.

End ListFacts.

Import Settings SettingsFacts ListFacts.

(** X30: for a request with a session, [GET] answers with the settings of
    the requester and no other: a permutation of the rows of the
    requester, the defaults first; or with the status 500 when the store
    rejects the call. *)
Theorem settings_GET_lists
    (store : Store) (session : result (option Session)) (db : Db) (user : Z) :
  requester session = Some user ->
  exists settings,
    Permutation settings (mine user (rows db)) /\
    defaults_first settings /\
    fst (Settings.GET store session db)
    = if rejects store (calls db)
      then Ok (Error 500 "Internal Server Error")
      else Ok (Listed settings).
Proof.
  intros Hu. destruct session as [s|e]; [|discriminate]. simpl in Hu.
  exists (sort (before store) (mine user (rows db))).
  split; [apply sort_perm|]. split; [apply ordered_first, sort_ordered|].
  unfold GET, try_catch, bind, of_result, ret. rewrite Hu.
  unfold call, findMany. now destruct (rejects store (calls db)).
Qed.

Lemma settings_GET_lists_witness :
  exists settings,
    Permutation settings [beta_row; acme_row] /\
    defaults_first settings /\
    fst (Settings.GET settings_store session_7 settings_db) = Ok (Listed settings).
Proof.
  exact (settings_GET_lists settings_store session_7 settings_db 7 eq_refl).
Defined.
